(** * AI-Automated-Job-Application: the scoring, tailoring, job-store and
      profile-store code, embedded and checked against its specification.

    The development follows the Python sources module by module:
    - [Py]              the built-in string operations the sources call
                        ([str.lower], [str.split], [in], [str.join]);
    - [ResumeTailor]    src/resume_tailor.py;
    - [JobDatabase]     src/job_database.py (the [jobs] table as a list of
                        rows, the job dictionaries in a heap);
    - [Json]            what [json.dump(..., indent=2)] writes and
                        [json.load] reads, on text;
    - [ProfileManager]  src/profile_manager.py (the profile files as a map
                        from path to text).
    [Spec] and [JsonSpec] hold the notions the statements need, [Scenario]
    the concrete inputs of the examples; the theorems follow.

    Conventions.  A Python [str] is a [string]; its characters are read as
    code points below 256.  A Python [int] is a [Z].  A [dict] whose keys are
    fixed by the code is a record of [option] fields ([None] = key absent); a
    [dict] iterated with [.items()] is an association list in insertion
    order.  A call that can raise returns a [result]. *)

From Stdlib Require Import ZArith Bool Ascii String List Permutation Sorted Lia.
From Stdlib Require Import Decimal DecimalFacts DecimalPos DecimalN.
From stdpp Require Import base option list gmap strings.
Import ListNotations.

Local Open Scope Z_scope.

(** ** Exceptions *)

Inductive exn : Type :=
| AttributeError (msg : string)
| ValueError (msg : string)
| EOFError
| OSError (msg : string)
| OverflowError (msg : string).

Inductive result (A : Type) : Type :=
| Ok (a : A)
| Raise (e : exn).
Arguments Ok {A} a.
Arguments Raise {A} e.

Definition bind {A B : Type} (r : result A) (k : A -> result B) : result B :=
  match r with
  | Ok a => k a
  | Raise e => Raise e
  end.

Notation "'let!' x ':=' r 'in' k" := (bind r (fun x => k))
  (at level 10, x name, r at level 100, k at level 200).

(** [for x in xs: body] over a state [S], stopping at the first exception. *)
Fixpoint for_each {A S : Type} (xs : list A) (body : A -> S -> result S) (s : S)
  : result S :=
  match xs with
  | [] => Ok s
  | x :: rest => let! s' := body x s in for_each rest body s'
  end.

(** ** Python string built-ins *)

Module Py.

Definition in_range (lo hi : nat) (n : nat) : bool :=
  (Nat.leb lo n) && (Nat.leb n hi).

(** [c.lower()] on code points below 256: A-Z and the Latin-1 capitals
    (U+00C0..U+00DE except the multiplication sign U+00D7) move up by 32. *)
Definition char_lower (c : ascii) : ascii :=
  let n := nat_of_ascii c in
  if in_range 65 90 n || (in_range 192 222 n && negb (Nat.eqb n 215))
  then ascii_of_nat (n + 32)
  else c.

(** [s.lower()] *)
Fixpoint lower (s : string) : string :=
  match s with
  | EmptyString => EmptyString
  | String c s' => String (char_lower c) (lower s')
  end.

(** [c.isspace()] on code points below 256. *)
Definition isspace (c : ascii) : bool :=
  let n := nat_of_ascii c in
  in_range 9 13 n || in_range 28 32 n || Nat.eqb n 133 || Nat.eqb n 160.

(** [s.split()]: maximal runs of non-whitespace characters, in order.
    [word] is the run being read. *)
Fixpoint split_from (word : string) (s : string) : list string :=
  match s with
  | EmptyString => if String.eqb word "" then [] else [word]
  | String c s' =>
      if isspace c
      then (if String.eqb word "" then split_from "" s'
            else word :: split_from "" s')
      else split_from (word +:+ String c "") s'
  end.

Definition split (s : string) : list string := split_from "" s.

(** [sub in s] for strings: [sub] occurs in [s] at some position. *)
Fixpoint contains (sub s : string) : bool :=
  String.prefix sub s ||
  match s with
  | EmptyString => false
  | String _ s' => contains sub s'
  end.

(** [sep.join(parts)] *)
Definition join (sep : string) (parts : list string) : string :=
  String.concat sep parts.

(** [any(f(x) for x in xs)] *)
Definition any {A : Type} (f : A -> bool) (xs : list A) : bool := existsb f xs.

(** [len(s)] *)
Definition len (s : string) : Z := Z.of_nat (String.length s).

(** The line break written [\n] in the sources. *)
Definition nl : string := String "010"%char EmptyString.

(** [c.isalnum()] on code points below 256: the digits, the letters A-Z and
    a-z, the Latin-1 letters, and the Latin-1 superscripts and fractions
    (which are numeric). *)
Definition isalnum (c : ascii) : bool :=
  let n := nat_of_ascii c in
  in_range 48 57 n || in_range 65 90 n || in_range 97 122 n
  || Nat.eqb n 170 || Nat.eqb n 178 || Nat.eqb n 179 || Nat.eqb n 181
  || Nat.eqb n 185 || Nat.eqb n 186 || in_range 188 190 n
  || in_range 192 214 n || in_range 216 246 n || in_range 248 255 n.

(** [s.lstrip()] *)
Fixpoint lstrip (s : string) : string :=
  match s with
  | EmptyString => EmptyString
  | String c s' => if isspace c then lstrip s' else s
  end.

(** [s.rstrip()] *)
Fixpoint rstrip (s : string) : string :=
  match s with
  | EmptyString => EmptyString
  | String c s' =>
      match rstrip s' with
      | EmptyString => if isspace c then EmptyString else String c EmptyString
      | String c' r => String c (String c' r)
      end
  end.

(** [s.strip()] *)
Definition strip (s : string) : string := rstrip (lstrip s).

(** ["".join(c for c in s if keep(c))] *)
Fixpoint filter_chars (keep : ascii -> bool) (s : string) : string :=
  match s with
  | EmptyString => EmptyString
  | String c s' =>
      if keep c then String c (filter_chars keep s') else filter_chars keep s'
  end.

(** [os.path.join(a, b)] on POSIX paths: an absolute [b] stands alone. *)
Definition path_join (a b : string) : string :=
  if String.prefix "/" b then b
  else if String.eqb a "" then b
  else if String.prefix "/" (String.substring (String.length a - 1) 1 a)
       then a +:+ b
       else a +:+ "/" +:+ b.

End Py.

(** ** src/resume_tailor.py *)

Module ResumeTailor.

(** One entry of [profile_data["work_experience"]].  [description] and
    [technologies] are read with [.get(key, [])], so they may be absent. *)
Record work_experience_entry : Type := {
  title : string;
  company : string;
  location : string;
  start_date : string;
  end_date : option string;
  description : option (list string);
  technologies : option (list string)
}.

(** One entry of [profile_data["projects"]]. *)
Record project_entry : Type := {
  name : string;
  p_start_date : string;
  p_end_date : option string;
  p_description : option (list string);
  p_technologies : option (list string);
  link : option string
}.

Record education_entry : Type := {
  degree : string;
  major : string;
  institution : string;
  e_location : string;
  e_start_date : string;
  e_end_date : string;
  gpa : option string;
  honors : option string
}.

Record personal_info_t : Type := {
  pi_name : string;
  email : string;
  phone : string;
  linkedin : string;
  github : string
}.

(** [self.profile_data] *)
Record profile : Type := {
  personal_info : personal_info_t;
  education : list education_entry;
  work_experience : list work_experience_entry;
  projects : list project_entry;
  skills : list (string * list string)
}.

(** [d.get(key, [])] on an optional list field. *)
Definition get_list (field : option (list string)) : list string :=
  match field with
  | Some l => l
  | None => []
  end.

(** [_calculate_keyword_score(self, text_list, keywords)] *)
Definition _calculate_keyword_score (text_list keywords : list string) : Z :=
  let text_content := Py.lower (Py.join " " text_list) in
  fold_left
    (fun score keyword =>
       if Py.contains (Py.lower keyword) text_content then score + 1 else score)
    keywords 0.

(** [_extract_keywords_from_job_description(self, job_description)] *)
Definition _extract_keywords_from_job_description (job_description : string)
  : list string :=
  map Py.lower
      (List.filter (fun word => Py.len word >? 2) (Py.split job_description)).

(** [l.sort(key=key, reverse=True)]: Python's sort is stable, and with
    [reverse=True] elements of equal key still keep their original order.
    The element being placed stood before every element already placed, so it
    moves right only past strictly larger keys. *)
Fixpoint insert_reverse {A : Type} (key : A -> Z) (x : A) (l : list A) : list A :=
  match l with
  | [] => [x]
  | y :: l' => if key x <? key y then y :: insert_reverse key x l' else x :: l
  end.

Definition sort_reverse {A : Type} (key : A -> Z) (l : list A) : list A :=
  fold_right (insert_reverse key) [] l.

(** The text scored for one work-experience entry (line 49). *)
Definition exp_text (exp : work_experience_entry) : list string :=
  [title exp; company exp] ++ get_list (description exp)
                           ++ get_list (technologies exp).

(** The text scored for one project (line 61). *)
Definition proj_text (proj : project_entry) : list string :=
  [name proj] ++ get_list (p_description proj) ++ get_list (p_technologies proj).

(** Lines 47-51: the list [scored_experiences] before it is sorted. *)
Definition score_experiences (exps : list work_experience_entry)
  (job_keywords : list string) : list (Z * work_experience_entry) :=
  map (fun exp => (_calculate_keyword_score (exp_text exp) job_keywords, exp)) exps.

(** Lines 47-55: the value stored in [tailored_resume["work_experience"]]. *)
Definition tailor_work_experience (exps : list work_experience_entry)
  (job_keywords : list string) : list work_experience_entry :=
  let scored_experiences :=
    sort_reverse fst (score_experiences exps job_keywords) in
  map snd
    (List.filter
       (fun se => (fst se >? 0) || (Z.of_nat (length scored_experiences) <=? 3))
       scored_experiences).

(** Lines 59-67: the value stored in [tailored_resume["projects"]]. *)
Definition tailor_projects (projs : list project_entry)
  (job_keywords : list string) : list project_entry :=
  let scored_projects :=
    sort_reverse fst
      (map (fun proj =>
              (_calculate_keyword_score (proj_text proj) job_keywords, proj))
           projs) in
  map snd
    (List.filter
       (fun sp => (fst sp >? 0) || (Z.of_nat (length scored_projects) <=? 2))
       scored_projects).

(** [tailored_resume["skills"]] is a [defaultdict(list)]: a dictionary from
    category to list, empty when created. *)
Definition defaultdict : Type := list (string * list string).

(** [d.insert(0, skill)] with [d] the dictionary itself: a dictionary has no
    method [insert], so the attribute lookup raises. *)
Definition defaultdict_insert (d : defaultdict) (index : Z) (skill : string)
  : result defaultdict :=
  Raise (AttributeError "'collections.defaultdict' object has no attribute 'insert'").

(** [d.append(skill)] with [d] the dictionary itself: no such method either. *)
Definition defaultdict_append (d : defaultdict) (skill : string)
  : result defaultdict :=
  Raise (AttributeError "'collections.defaultdict' object has no attribute 'append'").

Record tailored_resume_t : Type := {
  t_personal_info : personal_info_t;
  t_education : list education_entry;
  t_work_experience : list work_experience_entry;
  t_projects : list project_entry;
  t_skills : defaultdict
}.

(** Line 73: [any(keyword.lower() in skill.lower() for keyword in job_keywords)] *)
Definition skill_matches (job_keywords : list string) (skill : string) : bool :=
  Py.any (fun keyword => Py.contains (Py.lower keyword) (Py.lower skill))
         job_keywords.

(** Lines 72-76: the body of the inner loop, on the dictionary
    [tailored_resume["skills"]]. *)
Definition tailor_skill (job_keywords : list string) (skill : string)
  (d : defaultdict) : result defaultdict :=
  if skill_matches job_keywords skill
  then defaultdict_insert d 0 skill
  else defaultdict_append d skill.

(** Lines 71-76: both loops. *)
Definition tailor_skills (profile_skills : list (string * list string))
  (job_keywords : list string) (d : defaultdict) : result defaultdict :=
  for_each profile_skills
    (fun category_skills d =>
       for_each (snd category_skills) (tailor_skill job_keywords) d)
    d.

(** [tailor_resume(self, job_description)] with [self.profile_data = self_]. *)
Definition tailor_resume (self_ : profile) (job_description : string)
  : result tailored_resume_t :=
  let job_keywords := _extract_keywords_from_job_description job_description in
  let tailored_work_experience :=
    tailor_work_experience (work_experience self_) job_keywords in
  let tailored_projects := tailor_projects (projects self_) job_keywords in
  let! tailored_skills := tailor_skills (skills self_) job_keywords [] in
  Ok {| t_personal_info := personal_info self_;
        t_education := education self_;
        t_work_experience := tailored_work_experience;
        t_projects := tailored_projects;
        t_skills := tailored_skills |}.

(** [d.get(key)] used as a condition, on an optional text field: the key is
    present and its value is not empty. *)
Definition present (field : option string) : bool :=
  match field with
  | Some v => negb (String.eqb v "")
  | None => false
  end.

(** [d.get(key, default)] on an optional text field. *)
Definition get_or (field : option string) (default : string) : string :=
  match field with
  | Some v => v
  | None => default
  end.

(** Lines 92-96: the lines of one education entry. *)
Definition format_education (edu : education_entry) : string :=
  "- **" +:+ degree edu +:+ "** in " +:+ major edu +:+ Py.nl
  +:+ "  - " +:+ institution edu +:+ ", " +:+ e_location edu +:+ " ("
  +:+ e_start_date edu +:+ " - " +:+ e_end_date edu +:+ ")" +:+ Py.nl
  +:+ (if present (gpa edu)
       then "  - GPA: " +:+ get_or (gpa edu) "" +:+ Py.nl else "")
  +:+ (if present (honors edu)
       then "  - Honors: " +:+ get_or (honors edu) "" +:+ Py.nl else "").

(** The bullet lines shared by work experience and projects: one per
    description line, then the technologies when there are any. *)
Definition format_bullets (description_ technologies_ : option (list string))
  : string :=
  String.concat ""
    (map (fun desc_line => "- " +:+ desc_line +:+ Py.nl) (get_list description_))
  +:+ (match get_list technologies_ with
       | [] => ""
       | _ :: _ =>
           "- **Technologies:** " +:+ Py.join ", " (get_list technologies_)
           +:+ Py.nl
       end).

(** Lines 100-107: one work-experience entry. *)
Definition format_experience (exp : work_experience_entry) : string :=
  "### " +:+ title exp +:+ " at " +:+ company exp +:+ Py.nl
  +:+ "**" +:+ location exp +:+ "** | " +:+ start_date exp +:+ " - "
  +:+ get_or (end_date exp) "Present" +:+ Py.nl
  +:+ format_bullets (description exp) (technologies exp)
  +:+ Py.nl.

(** Lines 110-119: one project. *)
Definition format_project (proj : project_entry) : string :=
  "### " +:+ name proj +:+ Py.nl
  +:+ "**" +:+ p_start_date proj +:+ "** - "
  +:+ get_or (p_end_date proj) "Present" +:+ Py.nl
  +:+ format_bullets (p_description proj) (p_technologies proj)
  +:+ (if present (link proj)
       then "- **Link:** " +:+ get_or (link proj) "" +:+ Py.nl else "")
  +:+ Py.nl.

(** Lines 122-124: one skills category; an empty list writes nothing. *)
Definition format_skills_category (category_skills : string * list string)
  : string :=
  match snd category_skills with
  | [] => ""
  | _ :: _ =>
      "**" +:+ fst category_skills +:+ ":** "
      +:+ Py.join ", " (snd category_skills) +:+ Py.nl
  end.

(** [format_to_markdown(self, tailored_resume_data)] *)
Definition format_to_markdown (tailored_resume_data : tailored_resume_t) : string :=
  let info := t_personal_info tailored_resume_data in
  "# " +:+ pi_name info +:+ Py.nl +:+ Py.nl
  +:+ "**Email:** " +:+ email info +:+ " | "
  +:+ "**Phone:** " +:+ phone info +:+ " | "
  +:+ "**LinkedIn:** " +:+ linkedin info +:+ " | "
  +:+ "**GitHub:** " +:+ github info +:+ Py.nl +:+ Py.nl
  +:+ "## Education" +:+ Py.nl
  +:+ String.concat "" (map format_education (t_education tailored_resume_data))
  +:+ Py.nl
  +:+ "## Work Experience" +:+ Py.nl
  +:+ String.concat ""
        (map format_experience (t_work_experience tailored_resume_data))
  +:+ "## Projects" +:+ Py.nl
  +:+ String.concat "" (map format_project (t_projects tailored_resume_data))
  +:+ "## Skills" +:+ Py.nl
  +:+ String.concat ""
        (map format_skills_category (t_skills tailored_resume_data))
  +:+ Py.nl.

End ResumeTailor.

(** ** src/job_database.py *)

Module JobDatabase.

(** A job dictionary, on the keys the code reads or writes; a key that is
    absent is [None].  [fit_score] holds a number: [-1.0] when unscored,
    otherwise the integer score. *)
Record job_dict : Type := {
  j_company : option string;
  j_role : option string;
  j_location : option string;
  j_link : option string;
  j_date_posted : option string;
  j_original_category : option string;
  j_fit_score : option Z;
  j_fit_category : option string;
  j_status : option string;
  j_raw_data : option string
}.

(** [d.setdefault(key, default)], seen on the field for [key]. *)
Definition setdefault {A : Type} (field : option A) (default : A) : option A :=
  match field with
  | Some v => Some v
  | None => Some default
  end.

(** [d[key]] after [setdefault] made the key present. *)
Definition getitem {A : Type} (field : option A) (default : A) : A :=
  match field with
  | Some v => v
  | None => default
  end.

(** One row of the table [jobs].  The column [fit_score] is declared REAL
    and holds a double; every number the code stores in it is a whole number,
    and the row keeps the value of the double. *)
Record job_row : Type := {
  id : Z;
  company : string;
  role : string;
  location : string;
  link : string;
  date_posted : string;
  original_category : string;
  fit_score : Z;
  fit_category : string;
  status : string;
  raw_data : string
}.

(** The database file: the rows of [jobs] in insertion order, and the largest
    key handed out so far (AUTOINCREMENT). *)
Record db : Type := {
  rows : list job_row;
  sqlite_sequence : Z
}.

(** A Python [int] bound to a parameter of a statement becomes an SQLite
    INTEGER, which has 64 bits: [execute] raises for an [int] outside that
    range.  (The default [-1.0] is a [float] and is bound as it is.) *)
Definition bind_int (n : Z) : result Z :=
  if (- 2 ^ 63 <=? n) && (n <? 2 ^ 63) then Ok n
  else Raise (OverflowError "Python int too large to convert to SQLite INTEGER").

(** What a column declared REAL keeps of an INTEGER: the nearest double, ties
    to the even one.  A double has 53 significant bits, so an integer of more
    bits loses the low ones; the result is a whole number again. *)
Definition to_real (n : Z) : Z :=
  let magnitude := Z.abs n in
  let dropped_bits := Z.log2 magnitude - 52 in
  if dropped_bits <=? 0 then n
  else
    let kept := magnitude / 2 ^ dropped_bits in
    let rest := magnitude mod 2 ^ dropped_bits in
    let half := 2 ^ (dropped_bits - 1) in
    let rounded :=
      if (half <? rest) || ((rest =? half) && Z.odd kept) then kept + 1
      else kept in
    Z.sgn n * (rounded * 2 ^ dropped_bits).

(** The store right after [_create_table] on a new file. *)
Definition empty_db : db := {| rows := []; sqlite_sequence := 0 |}.

(** [SELECT id FROM jobs WHERE link = ? AND role = ?] and [fetchone()].
    A parameter that is [None] is bound as NULL, and [column = NULL] is true
    for no row. *)
Definition select_id_where_link_role (d : db) (link_param role_param : option string)
  : option Z :=
  match link_param, role_param with
  | Some l, Some r =>
      option_map id
        (find (fun row => String.eqb (link row) l && String.eqb (role row) r)
              (rows d))
  | _, _ => None
  end.

(** [UPDATE jobs SET status = ? WHERE id = ?] *)
Definition update_job_status (d : db) (job_id : Z) (new_status : string) : db :=
  {| rows :=
       map (fun row =>
              if id row =? job_id
              then {| id := id row; company := company row; role := role row;
                      location := location row; link := link row;
                      date_posted := date_posted row;
                      original_category := original_category row;
                      fit_score := fit_score row;
                      fit_category := fit_category row;
                      status := new_status;
                      raw_data := raw_data row |}
              else row)
           (rows d);
     sqlite_sequence := sqlite_sequence d |}.

(** [SELECT * FROM jobs WHERE id = ?] and [fetchone()]. *)
Definition get_job_by_id (d : db) (job_id : Z) : option job_row :=
  find (fun row => id row =? job_id) (rows d).

(** [UPDATE jobs SET fit_score = ?, fit_category = ? WHERE id = ?], with an
    [int] for [fit_score]. *)
Definition update_job_fit_score_and_category (d : db) (job_id : Z)
  (new_fit_score : Z) (new_fit_category : string) : result db :=
  let! bound_fit_score := bind_int new_fit_score in
  Ok {| rows :=
          map (fun row =>
                 if id row =? job_id
                 then {| id := id row; company := company row; role := role row;
                         location := location row; link := link row;
                         date_posted := date_posted row;
                         original_category := original_category row;
                         fit_score := to_real bound_fit_score;
                         fit_category := new_fit_category;
                         status := status row;
                         raw_data := raw_data row |}
                 else row)
              (rows d);
        sqlite_sequence := sqlite_sequence d |}.

(** The columns [get_jobs] selects: id, company, role, location, link,
    fit_category, status. *)
Definition job_tuple : Type :=
  (Z * string * string * string * string * string * string)%type.

Definition select_columns (row : job_row) : job_tuple :=
  (id row, company row, role row, location row, link row, fit_category row,
   status row).

(** [if param:] on an optional text parameter, and the condition
    [AND column = ?] that is added to the query when it holds. *)
Definition where_clause (param : option string) (column : string) : bool :=
  match param with
  | Some v => if negb (String.eqb v "") then String.eqb column v else true
  | None => true
  end.

(** [get_jobs(self, status=None, fit_category=None)] *)
Definition get_jobs (d : db) (status_ fit_category_ : option string)
  : list job_tuple :=
  map select_columns
      (List.filter
         (fun row => where_clause status_ (status row)
                     && where_clause fit_category_ (fit_category row))
         (rows d)).

Section Insert.

(** [json.dumps] on a job dictionary: the snapshot text kept in [raw_data]. *)
Variable json_dumps : job_dict -> string.

(** [insert_job(self, job_data)]: the dictionary after the [setdefault]
    calls, the store after the INSERT, and [lastrowid]; the INSERT raises when
    [fit_score] cannot be bound. *)
Definition insert_job (d : db) (job_data : job_dict)
  : result (job_dict * db * Z) :=
  let job_data :=
    {| j_company := setdefault (j_company job_data) "N/A";
       j_role := setdefault (j_role job_data) "N/A";
       j_location := setdefault (j_location job_data) "N/A";
       j_link := setdefault (j_link job_data) "N/A";
       j_date_posted := setdefault (j_date_posted job_data) "N/A";
       j_original_category := setdefault (j_original_category job_data) "N/A";
       j_fit_score := setdefault (j_fit_score job_data) (-1);
       j_fit_category := setdefault (j_fit_category job_data) "unclassified";
       j_status := setdefault (j_status job_data) "new";
       j_raw_data := j_raw_data job_data |} in
  let job_data :=
    {| j_company := j_company job_data;
       j_role := j_role job_data;
       j_location := j_location job_data;
       j_link := j_link job_data;
       j_date_posted := j_date_posted job_data;
       j_original_category := j_original_category job_data;
       j_fit_score := j_fit_score job_data;
       j_fit_category := j_fit_category job_data;
       j_status := j_status job_data;
       j_raw_data := setdefault (j_raw_data job_data) (json_dumps job_data) |} in
  let! bound_fit_score := bind_int (getitem (j_fit_score job_data) (-1)) in
  let lastrowid := sqlite_sequence d + 1 in
  let row :=
    {| id := lastrowid;
       company := getitem (j_company job_data) "N/A";
       role := getitem (j_role job_data) "N/A";
       location := getitem (j_location job_data) "N/A";
       link := getitem (j_link job_data) "N/A";
       date_posted := getitem (j_date_posted job_data) "N/A";
       original_category := getitem (j_original_category job_data) "N/A";
       fit_score := to_real bound_fit_score;
       fit_category := getitem (j_fit_category job_data) "unclassified";
       status := getitem (j_status job_data) "new";
       raw_data := getitem (j_raw_data job_data) "" |} in
  Ok (job_data, {| rows := rows d ++ [row]; sqlite_sequence := lastrowid |},
      lastrowid).

(** The dictionaries of [jobs_list] live in a heap, and [jobs_list] holds
    references (indices) into it: [insert_job] changes the dictionary it is
    given, and the same dictionary may stand at several places of the list. *)
Definition heap : Type := list job_dict.

(** [insert_jobs(self, jobs_list)]: the loop, with [inserted_count] as the
    accumulator.  A reference outside the heap does not occur; the loop
    passes over it.  An exception of [insert_job] ends the loop and the
    call. *)
Fixpoint insert_jobs_loop (jobs_list : list nat) (h : heap) (d : db)
  (inserted_count : Z) : result (heap * db * Z) :=
  match jobs_list with
  | [] => Ok (h, d, inserted_count)
  | r :: rest =>
      match h !! r with
      | None => insert_jobs_loop rest h d inserted_count
      | Some job_data =>
          let existing_job :=
            select_id_where_link_role d (j_link job_data) (j_role job_data) in
          match existing_job with
          | Some _ => insert_jobs_loop rest h d inserted_count
          | None =>
              let! inserted := insert_job d job_data in
              let '(job_data', d', _) := inserted in
              insert_jobs_loop rest (<[r := job_data']> h) d' (inserted_count + 1)
          end
      end
  end.

Definition insert_jobs (h : heap) (d : db) (jobs_list : list nat)
  : result (heap * db * Z) :=
  insert_jobs_loop jobs_list h d 0.

End Insert.

(** Lines 167-172: the category for a score. *)
Definition fit_category_for (score high_threshold medium_threshold : Z) : string :=
  if score >=? high_threshold then "High Fit"
  else if score >=? medium_threshold then "Medium Fit"
  else "Low Fit".

(** [if job.get(key):] the value is present and not the empty string. *)
Definition truthy (field : option string) : bool :=
  match field with
  | Some s => negb (String.eqb s "")
  | None => false
  end.

(** Lines 139-146: the keywords of one job. *)
Definition job_keywords_of (job : job_dict) : list string :=
  let job_description_parts :=
    (if truthy (j_role job) then [getitem (j_role job) ""] else [])
    ++ (if truthy (j_company job) then [getitem (j_company job) ""] else []) in
  ResumeTailor._extract_keywords_from_job_description
    (Py.join " " job_description_parts).

(** [sum] of the per-item scores, as the [score += ...] loops compute it. *)
Definition sum_scores {A : Type} (f : A -> Z) (xs : list A) (score : Z) : Z :=
  fold_left (fun score x => score + f x) xs score.

(** Lines 149-163: the aggregate score of the profile against the keywords. *)
Definition profile_score (profile_data : ResumeTailor.profile)
  (job_keywords : list string) : Z :=
  let score := 0 in
  let score :=
    sum_scores (fun category_skills =>
                  ResumeTailor._calculate_keyword_score (snd category_skills)
                                                        job_keywords)
               (ResumeTailor.skills profile_data) score in
  let score :=
    sum_scores (fun exp =>
                  ResumeTailor._calculate_keyword_score
                    (ResumeTailor.get_list (ResumeTailor.description exp)
                     ++ ResumeTailor.get_list (ResumeTailor.technologies exp))
                    job_keywords)
               (ResumeTailor.work_experience profile_data) score in
  sum_scores (fun proj =>
                ResumeTailor._calculate_keyword_score
                  (ResumeTailor.get_list (ResumeTailor.p_description proj)
                   ++ ResumeTailor.get_list (ResumeTailor.p_technologies proj))
                  job_keywords)
             (ResumeTailor.projects profile_data) score.

(** Lines 138-174: the body of the loop for one job. *)
Definition categorize_job (profile_data : ResumeTailor.profile)
  (high_threshold medium_threshold : Z) (job : job_dict) : job_dict :=
  let score := profile_score profile_data (job_keywords_of job) in
  {| j_company := j_company job;
     j_role := j_role job;
     j_location := j_location job;
     j_link := j_link job;
     j_date_posted := j_date_posted job;
     j_original_category := j_original_category job;
     j_fit_score := Some score;
     j_fit_category := Some (fit_category_for score high_threshold medium_threshold);
     j_status := j_status job;
     j_raw_data := j_raw_data job |}.

(** [ResumeTailor(profile_name)]: the constructor, which keeps what
    [load_profile] returns for the name or raises [ValueError].
    [load_profile] is the profile store as the constructor sees it: for a
    name, the pair of the data and an error message. *)
Definition ResumeTailor_init
  (load_profile : string -> option ResumeTailor.profile * option string)
  (profile_name : string) : result ResumeTailor.profile :=
  let '(profile_data, error) := load_profile profile_name in
  if truthy error
  then Raise (ValueError ("Could not load profile '" +:+ profile_name +:+ "': "
                          +:+ getitem error ""))
  else match profile_data with
       | Some p => Ok p
       | None => Raise (ValueError ("Profile '" +:+ profile_name
                                    +:+ "' is empty or invalid."))
       end.

(** [categorize_jobs(jobs_list, profile_name, high_threshold=5,
    medium_threshold=2)]; an omitted threshold is [None].  The loop assigns
    two keys of each dictionary and appends it to the result. *)
Definition categorize_jobs
  (load_profile : string -> option ResumeTailor.profile * option string)
  (jobs_list : list job_dict) (profile_name : string)
  (high_threshold medium_threshold : option Z) : list job_dict :=
  let high_threshold := getitem high_threshold 5 in
  let medium_threshold := getitem medium_threshold 2 in
  match ResumeTailor_init load_profile profile_name with
  | Raise _ => []
  | Ok profile_data =>
      map (categorize_job profile_data high_threshold medium_threshold) jobs_list
  end.

End JobDatabase.

(** ** The [json] module, as far as the profile store uses it *)

Set Warnings "-register-all".

Module Json.

(** The values [json.load] returns and [json.dump] accepts: [None],
    [True]/[False], [int], [str], [list] and [dict] (an association list in
    insertion order).  [float] is left out. *)
Inductive json : Type :=
| JNull
| JBool (b : bool)
| JInt (n : Z)
| JStr (s : string)
| JList (items : list json)
| JDict (members : list (string * json)).

Definition chars (s : string) : list ascii := list_ascii_of_string s.

Definition quote : ascii := "034"%char.
Definition backslash : ascii := "\"%char.
Definition newline : ascii := "010"%char.

(** *** [json.dump(v, f, indent=2)] *)

Definition hex_digit (n : nat) : ascii :=
  nth n (chars "0123456789abcdef") "0"%char.

(** One character of a string, as [ensure_ascii] writes it. *)
Definition escape_char (c : ascii) : list ascii :=
  let n := nat_of_ascii c in
  if Ascii.eqb c quote then [backslash; quote]
  else if Ascii.eqb c backslash then [backslash; backslash]
  else if Nat.eqb n 8 then [backslash; "b"%char]
  else if Nat.eqb n 9 then [backslash; "t"%char]
  else if Nat.eqb n 10 then [backslash; "n"%char]
  else if Nat.eqb n 12 then [backslash; "f"%char]
  else if Nat.eqb n 13 then [backslash; "r"%char]
  else if Nat.leb 32 n && Nat.leb n 126 then [c]
  else [backslash; "u"%char; "0"%char; "0"%char;
        hex_digit (n / 16); hex_digit (n mod 16)].

Fixpoint escape (s : string) : list ascii :=
  match s with
  | EmptyString => []
  | String c s' => escape_char c ++ escape s'
  end.

Definition print_string (s : string) : list ascii :=
  quote :: escape s ++ [quote].

Fixpoint uint_chars (u : uint) : list ascii :=
  match u with
  | Nil => []
  | D0 u => "0"%char :: uint_chars u
  | D1 u => "1"%char :: uint_chars u
  | D2 u => "2"%char :: uint_chars u
  | D3 u => "3"%char :: uint_chars u
  | D4 u => "4"%char :: uint_chars u
  | D5 u => "5"%char :: uint_chars u
  | D6 u => "6"%char :: uint_chars u
  | D7 u => "7"%char :: uint_chars u
  | D8 u => "8"%char :: uint_chars u
  | D9 u => "9"%char :: uint_chars u
  end.

Definition print_int (n : Z) : list ascii :=
  (if n <? 0 then ["-"%char] else []) ++ uint_chars (N.to_uint (Z.abs_N n)).

(** A line break and the indentation of a nesting level. *)
Definition newline_indent (level : nat) : list ascii :=
  newline :: repeat " "%char (2 * level).

Fixpoint print (level : nat) (v : json) {struct v} : list ascii :=
  match v with
  | JNull => chars "null"
  | JBool true => chars "true"
  | JBool false => chars "false"
  | JInt n => print_int n
  | JStr s => print_string s
  | JList [] => chars "[]"
  | JList (x :: xs) =>
      "["%char :: newline_indent (S level) ++ print (S level) x
      ++ flat_map (fun y => ","%char :: newline_indent (S level)
                             ++ print (S level) y) xs
      ++ newline_indent level ++ ["]"%char]
  | JDict [] => chars "{}"
  | JDict (m :: ms) =>
      "{"%char :: newline_indent (S level)
      ++ print_string (fst m) ++ chars ": " ++ print (S level) (snd m)
      ++ flat_map (fun m' => ","%char :: newline_indent (S level)
                             ++ print_string (fst m') ++ chars ": "
                             ++ print (S level) (snd m')) ms
      ++ newline_indent level ++ ["}"%char]
  end.

Definition dumps (v : json) : string := string_of_list_ascii (print 0 v).

(** *** [json.load(f)] *)

Definition is_ws (c : ascii) : bool :=
  Ascii.eqb c " "%char || Ascii.eqb c "009"%char || Ascii.eqb c newline
  || Ascii.eqb c "013"%char.

Fixpoint skip_ws (s : list ascii) : list ascii :=
  match s with
  | c :: r => if is_ws c then skip_ws r else s
  | [] => []
  end.

Definition digit_of (c : ascii) : option (uint -> uint) :=
  if Ascii.eqb c "0"%char then Some D0
  else if Ascii.eqb c "1"%char then Some D1
  else if Ascii.eqb c "2"%char then Some D2
  else if Ascii.eqb c "3"%char then Some D3
  else if Ascii.eqb c "4"%char then Some D4
  else if Ascii.eqb c "5"%char then Some D5
  else if Ascii.eqb c "6"%char then Some D6
  else if Ascii.eqb c "7"%char then Some D7
  else if Ascii.eqb c "8"%char then Some D8
  else if Ascii.eqb c "9"%char then Some D9
  else None.

(** The longest run of digits at the head of [s], and what follows it. *)
Fixpoint read_digits (s : list ascii) : uint * list ascii :=
  match s with
  | c :: r =>
      match digit_of c with
      | Some d => let '(u, rest) := read_digits r in (d u, rest)
      | None => (Nil, s)
      end
  | [] => (Nil, [])
  end.

(** A character after which the digits read so far are not an [int]: a
    fraction or an exponent follows. *)
Definition continues_number (rest : list ascii) : bool :=
  match rest with
  | c :: _ => Ascii.eqb c "."%char || Ascii.eqb c "e"%char || Ascii.eqb c "E"%char
  | [] => false
  end.

(** An integer literal: an optional minus sign and digits without a leading
    zero. *)
Definition parse_int (s : list ascii) : option (Z * list ascii) :=
  let '(negative, digits) :=
    match s with
    | c :: r => if Ascii.eqb c "-"%char then (true, r) else (false, s)
    | [] => (false, s)
    end in
  let '(u, rest) := read_digits digits in
  match u with
  | Nil => None
  | _ =>
      if uint_beq (unorm u) u && negb (continues_number rest)
      then Some (if negative then - Z.of_N (N.of_uint u) else Z.of_N (N.of_uint u),
                 rest)
      else None
  end.

Definition hex_value (c : ascii) : option nat :=
  let n := nat_of_ascii c in
  if Nat.leb 48 n && Nat.leb n 57 then Some (n - 48)%nat
  else if Nat.leb 97 n && Nat.leb n 102 then Some (n - 87)%nat
  else if Nat.leb 65 n && Nat.leb n 70 then Some (n - 55)%nat
  else None.

Definition unescape (c : ascii) : option ascii :=
  if Ascii.eqb c quote then Some quote
  else if Ascii.eqb c backslash then Some backslash
  else if Ascii.eqb c "/"%char then Some "/"%char
  else if Ascii.eqb c "b"%char then Some "008"%char
  else if Ascii.eqb c "t"%char then Some "009"%char
  else if Ascii.eqb c "n"%char then Some "010"%char
  else if Ascii.eqb c "f"%char then Some "012"%char
  else if Ascii.eqb c "r"%char then Some "013"%char
  else None.

(** The characters of a string literal after its opening quote, up to and
    including the closing quote.  An escape above U+00FF denotes a character
    outside the model. *)
Fixpoint parse_string_body (s : list ascii) : option (string * list ascii) :=
  match s with
  | [] => None
  | c :: r =>
      if Ascii.eqb c quote then Some (EmptyString, r)
      else if Ascii.eqb c backslash then
        match r with
        | [] => None
        | e :: r1 =>
            if Ascii.eqb e "u"%char then
              match r1 with
              | h1 :: h2 :: h3 :: h4 :: r2 =>
                  match hex_value h1, hex_value h2, hex_value h3, hex_value h4 with
                  | Some 0%nat, Some 0%nat, Some a, Some b =>
                      match parse_string_body r2 with
                      | Some (str, rest) =>
                          Some (String (ascii_of_nat (16 * a + b)) str, rest)
                      | None => None
                      end
                  | _, _, _, _ => None
                  end
              | _ => None
              end
            else
              match unescape e with
              | Some ch =>
                  match parse_string_body r1 with
                  | Some (str, rest) => Some (String ch str, rest)
                  | None => None
                  end
              | None => None
              end
        end
      else if Nat.ltb (nat_of_ascii c) 32 then None
      else
        match parse_string_body r with
        | Some (str, rest) => Some (String c str, rest)
        | None => None
        end
  end.

(** [d[k] = v] on a dictionary: a key that is present keeps its place. *)
Fixpoint dict_set (k : string) (v : json) (d : list (string * json))
  : list (string * json) :=
  match d with
  | [] => [(k, v)]
  | (k', v') :: d' =>
      if String.eqb k' k then (k', v) :: d' else (k', v') :: dict_set k v d'
  end.

Definition dict_of_pairs (pairs : list (string * json)) : list (string * json) :=
  fold_left (fun d kv => dict_set (fst kv) (snd kv) d) pairs [].

(** [s] starts with [word]: what follows it. *)
Fixpoint expect (word : list ascii) (s : list ascii) : option (list ascii) :=
  match word with
  | [] => Some s
  | w :: word' =>
      match s with
      | c :: r => if Ascii.eqb c w then expect word' r else None
      | [] => None
      end
  end.

(** [parse_value] reads one value after optional white space; [parse_items]
    reads the elements of a list after the first was found to be present, up
    to the closing bracket; [parse_members] does the same for a dictionary.
    [fuel] bounds the nesting and the number of elements. *)
Fixpoint parse_value (fuel : nat) (s : list ascii) {struct fuel}
  : option (json * list ascii) :=
  match fuel with
  | O => None
  | S fuel =>
      match skip_ws s with
      | [] => None
      | c :: r =>
          if Ascii.eqb c "n"%char then
            option_map (fun rest => (JNull, rest)) (expect (chars "ull") r)
          else if Ascii.eqb c "t"%char then
            option_map (fun rest => (JBool true, rest)) (expect (chars "rue") r)
          else if Ascii.eqb c "f"%char then
            option_map (fun rest => (JBool false, rest)) (expect (chars "alse") r)
          else if Ascii.eqb c quote then
            option_map (fun sr => (JStr (fst sr), snd sr)) (parse_string_body r)
          else if Ascii.eqb c "["%char then
            match skip_ws r with
            | c' :: r' =>
                if Ascii.eqb c' "]"%char then Some (JList [], r')
                else option_map (fun ir => (JList (fst ir), snd ir))
                                (parse_items fuel (c' :: r'))
            | [] => None
            end
          else if Ascii.eqb c "{"%char then
            match skip_ws r with
            | c' :: r' =>
                if Ascii.eqb c' "}"%char then Some (JDict [], r')
                else option_map (fun mr => (JDict (dict_of_pairs (fst mr)), snd mr))
                                (parse_members fuel (c' :: r'))
            | [] => None
            end
          else
            option_map (fun nr => (JInt (fst nr), snd nr)) (parse_int (c :: r))
      end
  end
with parse_items (fuel : nat) (s : list ascii) {struct fuel}
  : option (list json * list ascii) :=
  match fuel with
  | O => None
  | S fuel =>
      match parse_value fuel s with
      | Some (v, r) =>
          match skip_ws r with
          | c :: r' =>
              if Ascii.eqb c ","%char then
                option_map (fun ir => (v :: fst ir, snd ir)) (parse_items fuel r')
              else if Ascii.eqb c "]"%char then Some ([v], r')
              else None
          | [] => None
          end
      | None => None
      end
  end
with parse_members (fuel : nat) (s : list ascii) {struct fuel}
  : option (list (string * json) * list ascii) :=
  match fuel with
  | O => None
  | S fuel =>
      match skip_ws s with
      | q :: r0 =>
          if Ascii.eqb q quote then
            match parse_string_body r0 with
            | Some (k, r1) =>
                match skip_ws r1 with
                | colon :: r2 =>
                    if Ascii.eqb colon ":"%char then
                      match parse_value fuel r2 with
                      | Some (v, r3) =>
                          match skip_ws r3 with
                          | c :: r4 =>
                              if Ascii.eqb c ","%char then
                                option_map (fun mr => ((k, v) :: fst mr, snd mr))
                                           (parse_members fuel r4)
                              else if Ascii.eqb c "}"%char then Some ([(k, v)], r4)
                              else None
                          | [] => None
                          end
                      | None => None
                      end
                    else None
                | [] => None
                end
            | None => None
            end
          else None
      | [] => None
      end
  end.

(** [json.loads(text)]: one value, then nothing but white space; [None]
    stands for [JSONDecodeError]. *)
Definition loads (text : string) : option json :=
  let s := list_ascii_of_string text in
  match parse_value (S (length s)) s with
  | Some (v, rest) =>
      match skip_ws rest with
      | [] => Some v
      | _ :: _ => None
      end
  | None => None
  end.

End Json.

(** ** src/profile_manager.py *)

Module ProfileManager.

Import Json.

(** What the module acts on: the files by path, and the lines waiting on
    standard input.  Calls of [print] are not modelled. *)
Record world : Type := {
  files : gmap string string;
  stdin : list string
}.

(** [os.path.join(os.path.dirname(__file__), '..', 'profiles')] *)
Definition PROFILE_DIR : string := "src/../profiles".

(** [get_profile_path(profile_name)] *)
Definition get_profile_path (profile_name : string) : string :=
  Py.path_join PROFILE_DIR (profile_name +:+ ".json").

(** [open(path, 'w')] followed by [json.dump]: the store takes every write
    (no full disk, no missing directory), so the result is always [Ok]. *)
Definition write_text (w : world) (path text : string) : result world :=
  Ok {| files := <[path := text]> (files w); stdin := stdin w |}.

(** [input(prompt)]: the next line of standard input. *)
Definition input (w : world) : result (string * world) :=
  match stdin w with
  | [] => Raise EOFError
  | line :: rest => Ok (line, {| files := files w; stdin := rest |})
  end.

(** The truth value of a Python value. *)
Definition truthy (v : json) : bool :=
  match v with
  | JNull => false
  | JBool b => b
  | JInt n => negb (n =? 0)
  | JStr s => negb (String.eqb s "")
  | JList items => match items with [] => false | _ :: _ => true end
  | JDict members => match members with [] => false | _ :: _ => true end
  end.

(** [v is not None] *)
Definition is_not_None (v : json) : bool :=
  match v with
  | JNull => false
  | _ => true
  end.

(** [d.get(key)]: the value, or the Python value [None]. *)
Definition dict_get (key : string) (d : list (string * json)) : json :=
  match find (fun m => String.eqb (fst m) key) d with
  | Some m => snd m
  | None => JNull
  end.

(** [d.setdefault(key, default)] *)
Definition dict_setdefault (key : string) (default : json)
  (d : list (string * json)) : list (string * json) :=
  if existsb (fun m => String.eqb (fst m) key) d then d
  else dict_set key default d.

Section WithSchema.

(** [load_schema()] reads schemas/profile_schema.json, which is not among
    the sources.  The schema is taken as what [jsonschema.validate] does with
    it: for an instance, [None] when the instance conforms and the message of
    the [ValidationError] when it does not. *)
Variable schema : json -> option string.

(** [validate_profile(profile_data, schema)] *)
Definition validate_profile (profile_data : json) : bool * string :=
  match schema profile_data with
  | None => (true, "Profile is valid.")
  | Some message => (false, "Profile validation error: " +:+ message)
  end.

(** [load_profile(profile_name)]: the data (or [None]) and an error message
    (or [None]).  An invalid profile is returned all the same; the warning
    is only printed.  The schema file is taken to be readable, so the last
    [except] clause is not reached. *)
Definition load_profile (w : world) (profile_name : string)
  : json * option string :=
  let profile_path := get_profile_path profile_name in
  match files w !! profile_path with
  | None => (JNull, Some "Profile not found.")
  | Some text =>
      match loads text with
      | Some profile_data =>
          let '(is_valid, message) := validate_profile profile_data in
          (profile_data, None)
      | None => (JNull, Some "Error: Invalid JSON in profile file.")
      end
  end.

(** [save_profile(profile_name, profile_data)]; [create_profile_dir()]
    changes no file. *)
Definition save_profile (w : world) (profile_name : string) (profile_data : json)
  : world * (bool * string) :=
  let profile_path := get_profile_path profile_name in
  let '(is_valid, message) := validate_profile profile_data in
  if negb is_valid
  then (w, (false, "Cannot save invalid profile: " +:+ message))
  else
    match write_text w profile_path (dumps profile_data) with
    | Ok w' => (w', (true, "Profile '" +:+ profile_name +:+ "' saved successfully."))
    | Raise e => (w, (false, "Error saving profile"))
    end.

(** Lines 73-81: the prompts for the personal information, when the profile
    has none. *)
Definition ask_personal_info (w : world) (new_profile : list (string * json))
  : result (list (string * json) * world) :=
  if negb (truthy (dict_get "personal_info" new_profile))
  then
    let! r := input w in let '(name, w) := r in
    let! r := input w in let '(email, w) := r in
    let! r := input w in let '(phone, w) := r in
    let! r := input w in let '(linkedin, w) := r in
    let! r := input w in let '(github, w) := r in
    Ok (dict_set "personal_info"
                 (JDict [("name", JStr name); ("email", JStr email);
                         ("phone", JStr phone); ("linkedin", JStr linkedin);
                         ("github", JStr github)])
                 new_profile,
        w)
  else Ok (new_profile, w).

(** [create_new_profile(profile_name, initial_data=None)] *)
Definition create_new_profile (w : world) (profile_name : string)
  (initial_data : option json) : result (world * (bool * string)) :=
  if is_not_None (fst (load_profile w profile_name))
  then Ok (w, (false, "Profile '" +:+ profile_name +:+ "' already exists."))
  else
    let new_profile :=
      match initial_data with
      | Some data => if truthy data then data else JDict []
      | None => JDict []
      end in
    match new_profile with
    | JDict new_profile =>
        let! r := ask_personal_info w new_profile in
        let '(new_profile, w) := r in
        let new_profile := dict_setdefault "education" (JList []) new_profile in
        let new_profile := dict_setdefault "work_experience" (JList []) new_profile in
        let new_profile := dict_setdefault "projects" (JList []) new_profile in
        let new_profile := dict_setdefault "skills" (JDict []) new_profile in
        Ok (save_profile w profile_name (JDict new_profile))
    | _ => Raise (AttributeError "object has no attribute 'get'")
    end.

(** Lines 105-114: the loop that reads the new document.  It ends when
    [input()] raises [EOFError] (no line is left), with the lines read, or at
    a line that reads "cancel" in any letter case, with [None]; the second
    component is what is left of standard input. *)
Fixpoint read_document (stdin_ : list string) (updated_json_lines : list string)
  : option (list string) * list string :=
  match stdin_ with
  | [] => (Some updated_json_lines, [])
  | line :: rest =>
      if String.eqb (Py.lower line) "cancel" then (None, rest)
      else read_document rest (updated_json_lines ++ [line])
  end.

(** [if error:] on the error message of [load_profile]. *)
Definition is_error (error : option string) : bool :=
  match error with
  | Some message => negb (String.eqb message "")
  | None => false
  end.

(** [edit_profile(profile_name)] *)
Definition edit_profile (w : world) (profile_name : string)
  : world * (bool * string) :=
  let '(profile_data, error) := load_profile w profile_name in
  if is_error error
  then (w, (false, match error with Some message => message | None => "" end))
  else
    let '(document, stdin_left) := read_document (stdin w) [] in
    let w := {| files := files w; stdin := stdin_left |} in
    match document with
    | None => (w, (false, "Editing cancelled by user."))
    | Some updated_json_lines =>
        let updated_json_str := Py.join Py.nl updated_json_lines in
        match loads updated_json_str with
        | None => (w, (false, "Error: Invalid JSON provided. Editing failed."))
        | Some updated_profile_data =>
            save_profile w profile_name updated_profile_data
        end
    end.

End WithSchema.

End ProfileManager.

(** ** src/application_workflow.py *)

Module ApplicationWorkflow.

(** [self]: the profile name and the tailor, which is [None] when the
    profile did not load. *)
Record workflow : Type := {
  profile_name : string;
  resume_tailor : option ResumeTailor.profile
}.

(** What the flow acts on: the jobs table and the lines waiting on standard
    input. *)
Record state : Type := {
  db : JobDatabase.db;
  stdin : list string
}.

(** [ApplicationWorkflow(profile_name)]: a [ValueError] of the tailor's
    constructor leaves [resume_tailor] at [None]. *)
Definition init
  (load_profile : string -> option ResumeTailor.profile * option string)
  (profile_name_ : string) : workflow :=
  {| profile_name := profile_name_;
     resume_tailor :=
       match JobDatabase.ResumeTailor_init load_profile profile_name_ with
       | Ok p => Some p
       | Raise _ => None
       end |}.

(** [input(prompt)] *)
Definition input (st : state) : result (string * state) :=
  match stdin st with
  | [] => Raise EOFError
  | line :: rest => Ok (line, {| db := db st; stdin := rest |})
  end.

(** Lines 71-72: a company or role name as it enters the file name. *)
Definition safe_name (s : string) : string :=
  Py.rstrip
    (Py.filter_chars
       (fun c => Py.isalnum c || Ascii.eqb c " "%char || Ascii.eqb c "_"%char)
       s).

Definition OUTPUT_DIR : string := "src/../output_resumes".

Section Flow.

(** [str(v)] of a value of the raw data, as the f-strings format it. *)
Variable str_of : Json.json -> string.

(** [PDFRenderer.render_markdown_to_pdf(markdown_string, output_filepath)]:
    the success indicator and the message. *)
Variable render_markdown_to_pdf : string -> string -> bool * string.

(** Lines 42-45: the description field of the raw data, when there is one. *)
Definition add_description (raw_data : list (string * Json.json))
  (text : string) : string :=
  if ProfileManager.truthy (ProfileManager.dict_get "Description" raw_data)
  then text +:+ " " +:+ str_of (ProfileManager.dict_get "Description" raw_data)
  else if ProfileManager.truthy (ProfileManager.dict_get "description" raw_data)
  then text +:+ " " +:+ str_of (ProfileManager.dict_get "description" raw_data)
  else text.

(** Lines 47-49: the other fields of the raw data that are present. *)
Definition add_fields (raw_data : list (string * Json.json)) (text : string)
  : string :=
  fold_left
    (fun text key =>
       if ProfileManager.truthy (ProfileManager.dict_get key raw_data)
       then text +:+ " " +:+ str_of (ProfileManager.dict_get key raw_data)
       else text)
    ["location"; "requirements"; "qualifications"; "responsibilities"]
    text.

(** Lines 38-49: [full_job_description_text]. *)
Definition full_job_description_text (selected_job : JobDatabase.job_row)
  : result string :=
  let text :=
    JobDatabase.role selected_job +:+ " " +:+ JobDatabase.company selected_job in
  if negb (String.eqb (JobDatabase.raw_data selected_job) "")
  then
    match Json.loads (JobDatabase.raw_data selected_job) with
    | None => Raise (ValueError "JSONDecodeError")
    | Some (Json.JDict raw_data) =>
        Ok (add_fields raw_data (add_description raw_data text))
    | Some _ => Raise (AttributeError "object has no attribute 'get'")
    end
  else Ok text.

(** [execute_application_flow(self, selected_job)] *)
Definition execute_application_flow (self : workflow) (st : state)
  (selected_job : JobDatabase.job_row) : result (state * bool) :=
  match resume_tailor self with
  | None => Ok (st, false)
  | Some tailor =>
      let! text := full_job_description_text selected_job in
      let! tailored_resume_data := ResumeTailor.tailor_resume tailor text in
      let tailored_resume_markdown :=
        ResumeTailor.format_to_markdown tailored_resume_data in
      let! r := input st in
      let '(line, st) := r in
      let approval := Py.strip (Py.lower line) in
      if negb (String.eqb approval "yes")
      then
        Ok ({| db := JobDatabase.update_job_status (db st)
                       (JobDatabase.id selected_job) "tailoring_rejected";
               stdin := stdin st |}, false)
      else
        let safe_company_name := safe_name (JobDatabase.company selected_job) in
        let safe_role_name := safe_name (JobDatabase.role selected_job) in
        let pdf_filename :=
          profile_name self +:+ "_" +:+ safe_company_name +:+ "_"
          +:+ safe_role_name +:+ ".pdf" in
        let output_filepath := Py.path_join OUTPUT_DIR pdf_filename in
        let '(success, message) :=
          render_markdown_to_pdf tailored_resume_markdown output_filepath in
        if success
        then
          Ok ({| db := JobDatabase.update_job_status (db st)
                         (JobDatabase.id selected_job) "resume_tailored";
                 stdin := stdin st |}, true)
        else
          Ok ({| db := JobDatabase.update_job_status (db st)
                         (JobDatabase.id selected_job) "pdf_render_failed";
                 stdin := stdin st |}, false)
  end.

End Flow.

End ApplicationWorkflow.

(** ** The specification's wording, as definitions to compare the code with *)

Module Spec.

(** "k (lowercased) is a substring of the lowercased text". *)
Definition keyword_occurs (text : string) (k : string) : bool :=
  Py.contains (Py.lower k) (Py.lower text).

(** "the count of k in K such that k (lowercased) is a substring of the
    lowercased concatenation of T". *)
Definition count_in_concatenation (T K : list string) : Z :=
  Z.of_nat (length (List.filter (keyword_occurs (String.concat "" T)) K)).

(** The same count with the fragments joined by single spaces. *)
Definition count_in_joined (T K : list string) : Z :=
  Z.of_nat (length (List.filter (keyword_occurs (String.concat " " T)) K)).

Definition seen_before (seen : list string) (k : string) : bool :=
  existsb (String.eqb k) seen.

(** "the deduplication of K": every keyword once, at its first occurrence. *)
Fixpoint dedup_from (seen K : list string) : list string :=
  match K with
  | [] => []
  | k :: K' =>
      if seen_before seen k then dedup_from seen K'
      else k :: dedup_from (k :: seen) K'
  end.

Definition dedup (K : list string) : list string := dedup_from [] K.

(** The occurrences that deduplication removes. *)
Fixpoint repeats_from (seen K : list string) : list string :=
  match K with
  | [] => []
  | k :: K' =>
      if seen_before seen k then k :: repeats_from seen K'
      else repeats_from (k :: seen) K'
  end.

Definition repeats (K : list string) : list string := repeats_from [] K.

(** "sorted by score descending": every element's key is at least the key
    of each later element. *)
Definition descending {A : Type} (key : A -> Z) : list A -> Prop :=
  StronglySorted (fun a b => key b <= key a).

(** The elements of a given key; a stable sort leaves each such sublist in
    its original order. *)
Definition has_key {A : Type} (key : A -> Z) (s : Z) (x : A) : bool :=
  key x =? s.

(** "all other fields of that record are unchanged": every column but
    [status] agrees. *)
Definition same_but_status (old new : JobDatabase.job_row) : Prop :=
  JobDatabase.id new = JobDatabase.id old
  /\ JobDatabase.company new = JobDatabase.company old
  /\ JobDatabase.role new = JobDatabase.role old
  /\ JobDatabase.location new = JobDatabase.location old
  /\ JobDatabase.link new = JobDatabase.link old
  /\ JobDatabase.date_posted new = JobDatabase.date_posted old
  /\ JobDatabase.original_category new = JobDatabase.original_category old
  /\ JobDatabase.fit_score new = JobDatabase.fit_score old
  /\ JobDatabase.fit_category new = JobDatabase.fit_category old
  /\ JobDatabase.raw_data new = JobDatabase.raw_data old.

(** The pair that identifies a stored job for de-duplication. *)
Definition link_role (row : JobDatabase.job_row) : string * string :=
  (JobDatabase.link row, JobDatabase.role row).

(** "no two records share (link, role)". *)
Definition unique_link_role (d : JobDatabase.db) : Prop :=
  NoDup (map link_role (JobDatabase.rows d)).

(** A job dictionary that carries both keys of the duplicate check. *)
Definition has_link_and_role (job : JobDatabase.job_dict) : Prop :=
  is_Some (JobDatabase.j_link job) /\ is_Some (JobDatabase.j_role job).

(** A text without a whitespace character. *)
Fixpoint no_space (s : string) : bool :=
  match s with
  | EmptyString => true
  | String c s' => negb (Py.isspace c) && no_space s'
  end.

(** The scored projects of lines 59-63, before they are sorted. *)
Definition score_projects (projs : list ResumeTailor.project_entry)
  (job_keywords : list string) : list (Z * ResumeTailor.project_entry) :=
  map (fun proj =>
         (ResumeTailor._calculate_keyword_score (ResumeTailor.proj_text proj)
                                                job_keywords, proj))
      projs.

(** The order of the fit categories: Low below Medium below High. *)
Definition fit_rank (fit_category : string) : Z :=
  if String.eqb fit_category "High Fit" then 2
  else if String.eqb fit_category "Medium Fit" then 1
  else 0.

(** "all other fields are unchanged", for the keys [categorize_jobs] does
    not assign. *)
Definition same_but_fit (old new : JobDatabase.job_dict) : Prop :=
  JobDatabase.j_company new = JobDatabase.j_company old
  /\ JobDatabase.j_role new = JobDatabase.j_role old
  /\ JobDatabase.j_location new = JobDatabase.j_location old
  /\ JobDatabase.j_link new = JobDatabase.j_link old
  /\ JobDatabase.j_date_posted new = JobDatabase.j_date_posted old
  /\ JobDatabase.j_original_category new = JobDatabase.j_original_category old
  /\ JobDatabase.j_status new = JobDatabase.j_status old
  /\ JobDatabase.j_raw_data new = JobDatabase.j_raw_data old.

(** Every column of a stored record but [fit_score] and [fit_category]
    agrees. *)
Definition same_but_fit_columns (old new : JobDatabase.job_row) : Prop :=
  JobDatabase.id new = JobDatabase.id old
  /\ JobDatabase.company new = JobDatabase.company old
  /\ JobDatabase.role new = JobDatabase.role old
  /\ JobDatabase.location new = JobDatabase.location old
  /\ JobDatabase.link new = JobDatabase.link old
  /\ JobDatabase.date_posted new = JobDatabase.date_posted old
  /\ JobDatabase.original_category new = JobDatabase.original_category old
  /\ JobDatabase.status new = JobDatabase.status old
  /\ JobDatabase.raw_data new = JobDatabase.raw_data old.

(** The keys of the store are in order: every record has its own id, and no
    id is above the last one handed out. *)
Definition ids_in_order (d : JobDatabase.db) : Prop :=
  NoDup (map JobDatabase.id (JobDatabase.rows d))
  /\ Forall (fun row => JobDatabase.id row <= JobDatabase.sqlite_sequence d)
            (JobDatabase.rows d).

(** The duplicate check of [insert_jobs] finds the dictionary in the store. *)
Definition stored (d : JobDatabase.db) (job : JobDatabase.job_dict) : Prop :=
  is_Some (JobDatabase.select_id_where_link_role d (JobDatabase.j_link job)
                                                 (JobDatabase.j_role job)).

(** An [int] that SQLite can bind: it has 64 bits. *)
Definition binds (n : Z) : Prop := - 2 ^ 63 <= n < 2 ^ 63.

(** A number a double holds exactly: at most 2^53 in absolute value. *)
Definition exact_real (n : Z) : Prop := - 2 ^ 53 <= n <= 2 ^ 53.

(** The [fit_score] of a job dictionary, when it has one, can be bound. *)
Definition binds_fit_score (job : JobDatabase.job_dict) : Prop :=
  forall score, JobDatabase.j_fit_score job = Some score -> binds score.

(** The dictionary as [insert_job] leaves it before it adds [raw_data]: the
    nine other keys are present, with the default where one was missing. *)
Definition with_defaults (job : JobDatabase.job_dict) : JobDatabase.job_dict :=
  {| JobDatabase.j_company := Some (JobDatabase.getitem (JobDatabase.j_company job) "N/A");
     JobDatabase.j_role := Some (JobDatabase.getitem (JobDatabase.j_role job) "N/A");
     JobDatabase.j_location :=
       Some (JobDatabase.getitem (JobDatabase.j_location job) "N/A");
     JobDatabase.j_link := Some (JobDatabase.getitem (JobDatabase.j_link job) "N/A");
     JobDatabase.j_date_posted :=
       Some (JobDatabase.getitem (JobDatabase.j_date_posted job) "N/A");
     JobDatabase.j_original_category :=
       Some (JobDatabase.getitem (JobDatabase.j_original_category job) "N/A");
     JobDatabase.j_fit_score :=
       Some (JobDatabase.getitem (JobDatabase.j_fit_score job) (-1));
     JobDatabase.j_fit_category :=
       Some (JobDatabase.getitem (JobDatabase.j_fit_category job) "unclassified");
     JobDatabase.j_status := Some (JobDatabase.getitem (JobDatabase.j_status job) "new");
     JobDatabase.j_raw_data := JobDatabase.j_raw_data job |}.

(** The two values the duplicate check reads from a dictionary. *)
Definition link_role_of (job : JobDatabase.job_dict)
  : option string * option string :=
  (JobDatabase.j_link job, JobDatabase.j_role job).

(** "keep an entry exactly when its score is > 0 or the original list has
    [limit] or fewer entries". *)
Definition kept {A : Type} (original : list A) (limit : Z) (se : Z * A) : bool :=
  (0 <? fst se) || (Z.of_nat (length original) <=? limit).

(** "the set of lowercase tokens with length > 2, split on whitespace". *)
Definition job_keywords (job_description : string) : list string :=
  map Py.lower
      (List.filter (fun token => 2 <? Py.len token) (Py.split job_description)).

(** "title+company+description+technologies": the text fragments of one
    work-experience entry; a description or a technologies list that the entry
    lacks counts as empty. *)
Definition entry_fragments (exp : ResumeTailor.work_experience_entry)
  : list string :=
  ResumeTailor.title exp :: ResumeTailor.company exp
  :: match ResumeTailor.description exp with Some lines => lines | None => [] end
  ++ match ResumeTailor.technologies exp with Some tags => tags | None => [] end.

(** The fragments of one project: its name, description and technologies. *)
Definition project_fragments (proj : ResumeTailor.project_entry) : list string :=
  ResumeTailor.name proj
  :: match ResumeTailor.p_description proj with Some lines => lines | None => [] end
  ++ match ResumeTailor.p_technologies proj with Some tags => tags | None => [] end.

(** "compute a per-entry score": every entry of the original list paired
    with the number of keywords that occur in its fragments, in the original
    order. *)
Definition scored_entries (exps : list ResumeTailor.work_experience_entry)
  (keywords : list string) : list (Z * ResumeTailor.work_experience_entry) :=
  map (fun exp => (count_in_joined (entry_fragments exp) keywords, exp)) exps.

Definition scored_projects (projs : list ResumeTailor.project_entry)
  (keywords : list string) : list (Z * ResumeTailor.project_entry) :=
  map (fun proj => (count_in_joined (project_fragments proj) keywords, proj)) projs.

End Spec.

(** ** Notions used to state the JSON round trip *)

Module JsonSpec.

Import Json.

(** The nesting size of a value: a bound on the fuel its text needs. *)
Fixpoint size (v : json) : nat :=
  match v with
  | JList items => S (list_sum (map (fun x => S (size x)) items))
  | JDict members => S (list_sum (map (fun m => S (size (snd m))) members))
  | _ => 1%nat
  end.

Fixpoint keys_unique (keys : list string) : bool :=
  match keys with
  | [] => true
  | k :: keys' => negb (existsb (String.eqb k) keys') && keys_unique keys'
  end.

(** A value of the model that is a Python value: no dictionary in it has a
    key twice. *)
Fixpoint well_formed (v : json) : bool :=
  match v with
  | JList items => forallb well_formed items
  | JDict members =>
      keys_unique (map fst members)
      && forallb (fun m => well_formed (snd m)) members
  | _ => true
  end.

(** What may follow a value in the text [print] writes: nothing, a comma or
    a line break. *)
Definition delimited (rest : list ascii) : bool :=
  match rest with
  | [] => true
  | c :: _ => Ascii.eqb c ","%char || Ascii.eqb c newline
  end.

(** A character that starts an integer literal is none of the characters the
    parser dispatches on before it tries a number. *)
Definition number_start (c : ascii) : Prop :=
  is_ws c = false
  /\ Ascii.eqb c "n"%char = false /\ Ascii.eqb c "t"%char = false
  /\ Ascii.eqb c "f"%char = false /\ Ascii.eqb c quote = false
  /\ Ascii.eqb c "["%char = false /\ Ascii.eqb c "{"%char = false
  /\ Ascii.eqb c "]"%char = false /\ Ascii.eqb c "}"%char = false.

(** The text of the elements after the first, as [print] writes it. *)
Definition more_items (level : nat) (xs : list json) : list ascii :=
  flat_map (fun y => ","%char :: newline_indent (S level) ++ print (S level) y) xs.

Definition more_members (level : nat) (ms : list (string * json)) : list ascii :=
  flat_map (fun m' => ","%char :: newline_indent (S level)
                      ++ print_string (fst m') ++ chars ": "
                      ++ print (S level) (snd m')) ms.

(** The round trip for one value, as a property of the value. *)
Definition reads_back (v : json) : Prop :=
  forall (fuel level : nat) (rest : list ascii),
    (size v <= fuel)%nat -> well_formed v = true -> delimited rest = true ->
    parse_value fuel (print level v ++ rest) = Some (v, rest).


(** [initial_data], when given, is a Python value. *)
Definition well_formed_option (initial_data : option json) : bool :=
  match initial_data with
  | Some data => well_formed data
  | None => true
  end.

(** Modelled from the spec: the profile schema (schemas/profile_schema.json
    is not among the sources).  "Required top-level fields: personal_info,
    education, work_experience, projects, skills": an instance conforms when
    it is an object with these five keys. *)
Definition required_fields_schema (instance : json) : option string :=
  match instance with
  | JDict members =>
      match
        List.filter
          (fun key => negb (existsb (fun m => String.eqb (fst m) key) members))
          ["personal_info"; "education"; "work_experience"; "projects"; "skills"]
      with
      | [] => None
      | key :: _ => Some ("'" +:+ key +:+ "' is a required property")
      end
  | _ => Some "instance is not of type 'object'"
  end.

End JsonSpec.

(** ** Concrete profiles and jobs used by the examples *)

Module Scenario.

Import ResumeTailor.

Definition someone : personal_info_t :=
  {| pi_name := "Ada Example"; email := "ada@example.com"; phone := "555-0100";
     linkedin := "linkedin.com/in/ada"; github := "github.com/ada" |}.

Definition job_as (title_ company_ : string) : work_experience_entry :=
  {| title := title_; company := company_; location := "Leeds";
     start_date := "2019-01"; end_date := None;
     description := Some ["Served customers."]; technologies := None |}.

(** The specification's scenario: one skill "Python" in category "Languages". *)
Definition python_profile : profile :=
  {| personal_info := someone; education := []; work_experience := [];
     projects := []; skills := [("Languages", ["Python"])] |}.

(** Four work-experience entries, none of which mentions a job keyword, and
    no skill. *)
Definition four_unrelated_jobs : profile :=
  {| personal_info := someone; education := [];
     work_experience := [job_as "Baker" "Crumb"; job_as "Gardener" "Moss";
                         job_as "Driver" "Wheel"; job_as "Painter" "Brush"];
     projects := []; skills := [("Languages", [])] |}.

Definition job_description : string := "Seeking Python engineer".

Definition project_named (name_ : string) : ResumeTailor.project_entry :=
  {| name := name_; p_start_date := "2021-05"; p_end_date := Some "2021-09";
     p_description := Some ["Built it."]; p_technologies := Some ["Wood"];
     link := None |}.

(** A scraped job from a table without an "Application" column: the
    dictionary has no key [link]. *)
Definition engineer_job : JobDatabase.job_dict :=
  {| JobDatabase.j_company := Some "Acme";
     JobDatabase.j_role := Some "Engineer";
     JobDatabase.j_location := Some "Leeds";
     JobDatabase.j_link := None;
     JobDatabase.j_date_posted := Some "3d";
     JobDatabase.j_original_category := Some "Software";
     JobDatabase.j_fit_score := None;
     JobDatabase.j_fit_category := None;
     JobDatabase.j_status := None;
     JobDatabase.j_raw_data := None |}.

(** A scraped job with an application link. *)
Definition linked_job : JobDatabase.job_dict :=
  {| JobDatabase.j_company := Some "Acme";
     JobDatabase.j_role := Some "Engineer";
     JobDatabase.j_location := Some "Leeds";
     JobDatabase.j_link := Some "https://example.com/apply";
     JobDatabase.j_date_posted := Some "3d";
     JobDatabase.j_original_category := Some "Software";
     JobDatabase.j_fit_score := None;
     JobDatabase.j_fit_category := None;
     JobDatabase.j_status := None;
     JobDatabase.j_raw_data := None |}.

Definition stored_job (id_ : Z) (role_ status_ : string) : JobDatabase.job_row :=
  {| JobDatabase.id := id_; JobDatabase.company := "Acme";
     JobDatabase.role := role_; JobDatabase.location := "Leeds";
     JobDatabase.link := "https://example.com/apply";
     JobDatabase.date_posted := "3d";
     JobDatabase.original_category := "Software";
     JobDatabase.fit_score := 3; JobDatabase.fit_category := "Medium Fit";
     JobDatabase.status := status_; JobDatabase.raw_data := "{}" |}.

Definition two_jobs_db : JobDatabase.db :=
  {| JobDatabase.rows := [stored_job 1 "Engineer" "new";
                          stored_job 2 "Analyst" "new"];
     JobDatabase.sqlite_sequence := 2 |}.


(** The profile of the first scenario as the document the profile store
    keeps. *)
Definition ada_profile : Json.json :=
  Json.JDict
    [("personal_info",
      Json.JDict [("name", Json.JStr "Ada Example");
                  ("email", Json.JStr "ada@example.com");
                  ("phone", Json.JStr "555-0100");
                  ("linkedin", Json.JStr "linkedin.com/in/ada");
                  ("github", Json.JStr "github.com/ada")]);
     ("education", Json.JList []);
     ("work_experience", Json.JList []);
     ("projects", Json.JList []);
     ("skills", Json.JDict [("Languages", Json.JList [Json.JStr "Python"])])].

(** No profile stored, nothing typed. *)
Definition empty_world : ProfileManager.world :=
  {| ProfileManager.files := ∅; ProfileManager.stdin := [] |}.

(** The file of profile "ada" exists and holds text that is not JSON. *)
Definition unreadable_world : ProfileManager.world :=
  {| ProfileManager.files := {[ ProfileManager.get_profile_path "ada" := "{" ]};
     ProfileManager.stdin := [] |}.


(** The file of profile "ada" holds the empty object; the user starts typing
    a document and then types "Cancel". *)
Definition editing_world : ProfileManager.world :=
  {| ProfileManager.files := {[ ProfileManager.get_profile_path "ada" := "{}" ]};
     ProfileManager.stdin := ["{"; "Cancel"; "}"] |}.


(** A profile store that holds [python_profile] under every name. *)
Definition always_python (profile_name : string)
  : option ResumeTailor.profile * option string :=
  (Some python_profile, None).

End Scenario.

(** * Theorems *)

(** ** Keyword score *)

Section KeywordScore.

Import ResumeTailor.

Variable T : list string.

Lemma score_loop_acc (K : list string) (acc : Z) :
  fold_left
    (fun score keyword =>
       if Py.contains (Py.lower keyword) (Py.lower (Py.join " " T))
       then score + 1 else score)
    K acc
  = acc + _calculate_keyword_score T K.
Proof.
  unfold _calculate_keyword_score.
  revert acc. induction K as [|k K IH]; intros acc; simpl.
  - lia.
  - destruct (Py.contains _ _).
    + rewrite (IH (acc + 1)), (IH (0 + 1)). lia.
    + rewrite (IH acc), (IH 0). lia.
Qed.

Lemma score_nil : _calculate_keyword_score T [] = 0.
Proof. reflexivity. Qed.

Lemma score_cons (k : string) (K : list string) :
  _calculate_keyword_score T (k :: K)
  = (if Spec.keyword_occurs (Py.join " " T) k then 1 else 0)
    + _calculate_keyword_score T K.
Proof.
  unfold _calculate_keyword_score at 1. simpl.
  rewrite score_loop_acc. unfold Spec.keyword_occurs.
  destruct (Py.contains _ _); lia.
Qed.

Lemma score_app (K1 K2 : list string) :
  _calculate_keyword_score T (K1 ++ K2)
  = _calculate_keyword_score T K1 + _calculate_keyword_score T K2.
Proof.
  induction K1 as [|k K1 IH]; simpl.
  - rewrite score_nil. lia.
  - rewrite !score_cons, IH. lia.
Qed.

Lemma score_nonneg (K : list string) : 0 <= _calculate_keyword_score T K.
Proof.
  induction K as [|k K IH].
  - rewrite score_nil. lia.
  - rewrite score_cons. destruct (Spec.keyword_occurs _ _); lia.
Qed.

Lemma score_is_count (K : list string) :
  _calculate_keyword_score T K = Spec.count_in_joined T K.
Proof.
  unfold Spec.count_in_joined.
  induction K as [|k K IH].
  - reflexivity.
  - rewrite score_cons, IH. simpl. unfold Py.join.
    destruct (Spec.keyword_occurs _ _); simpl; lia.
Qed.

Lemma score_permutation (K K' : list string) :
  Permutation K K' ->
  _calculate_keyword_score T K = _calculate_keyword_score T K'.
Proof.
  induction 1 as [|k K K' _ IH|k1 k2 K|K1 K2 K3 _ IH1 _ IH2].
  - reflexivity.
  - rewrite !score_cons, IH. reflexivity.
  - rewrite !score_cons. lia.
  - congruence.
Qed.

Lemma score_dedup_from (seen K : list string) :
  _calculate_keyword_score T K
  = _calculate_keyword_score T (Spec.dedup_from seen K)
    + _calculate_keyword_score T (Spec.repeats_from seen K).
Proof.
  revert seen. induction K as [|k K IH]; intros seen; simpl.
  - rewrite score_nil. lia.
  - destruct (Spec.seen_before seen k).
    + rewrite !score_cons, (IH seen). lia.
    + rewrite !score_cons, (IH (k :: seen)). lia.
Qed.

End KeywordScore.

(** C3, as stated, fails: with the fragments "Py" and "thon" the keyword
    "python" is a substring of the lowercased concatenation "python", which
    gives a count of 1, but the code joins the fragments with a space
    ("py thon") and scores 0. *)
Lemma keyword_score_concatenation_counterexample :
  ResumeTailor._calculate_keyword_score ["Py"; "thon"] ["python"] = 0
  /\ Spec.count_in_concatenation ["Py"; "thon"] ["python"] = 1
  /\ ResumeTailor._calculate_keyword_score ["Py"; "thon"] ["python"]
     <> Spec.count_in_concatenation ["Py"; "thon"] ["python"].
Proof. repeat split. vm_compute. discriminate. Qed.

(** C3, amended: for every list of text fragments T and every list of
    keywords K, the keyword score is the number of elements k of K whose
    lowercasing is a substring of the lowercasing of the fragments of T joined
    by single spaces; it is the same for every reordering K' of K, and it is
    never negative. *)
Theorem keyword_score_counts_joined_keywords (T K K' : list string) :
  Permutation K K' ->
  ResumeTailor._calculate_keyword_score T K = Spec.count_in_joined T K
  /\ ResumeTailor._calculate_keyword_score T K'
     = ResumeTailor._calculate_keyword_score T K
  /\ 0 <= ResumeTailor._calculate_keyword_score T K.
Proof.
  intros HP. split; [apply score_is_count|]. split.
  - symmetry. apply score_permutation, HP.
  - apply score_nonneg.
Qed.

Lemma keyword_score_counts_joined_keywords_witness :
  Permutation ["python"; "sql"; "rust"] ["sql"; "python"; "rust"]
  /\ ResumeTailor._calculate_keyword_score ["Python developer"; "SQL"]
                                           ["python"; "sql"; "rust"] = 2
  /\ ResumeTailor._calculate_keyword_score ["Python developer"; "SQL"]
                                           ["sql"; "python"; "rust"] = 2.
Proof.
  assert (HP : Permutation ["python"; "sql"; "rust"] ["sql"; "python"; "rust"])
    by apply perm_swap.
  split; [exact HP|].
  destruct (keyword_score_counts_joined_keywords
              ["Python developer"; "SQL"] _ _ HP) as (Hcount & Hperm & _).
  split.
  - rewrite Hcount. reflexivity.
  - rewrite Hperm, Hcount. reflexivity.
Defined.

(** C4, as stated, fails: the keyword "py" listed twice scores 2 against
    the fragment "python", and its deduplication scores 1. *)
Lemma keyword_score_duplicates_counterexample :
  ResumeTailor._calculate_keyword_score ["python"] ["py"; "py"] = 2
  /\ ResumeTailor._calculate_keyword_score ["python"] (Spec.dedup ["py"; "py"]) = 1
  /\ ResumeTailor._calculate_keyword_score ["python"] ["py"; "py"]
     <> ResumeTailor._calculate_keyword_score ["python"] (Spec.dedup ["py"; "py"]).
Proof. repeat split. vm_compute. discriminate. Qed.

(** C4, amended: for every list of keywords K and every list of text
    fragments T, the keyword score of T against K is the score of T against
    the deduplication of K plus the score of T against the repeated
    occurrences that deduplication removes; so it is never below the score
    against the deduplication, and every repeated occurrence of a keyword
    that matches adds 1. *)
Theorem keyword_score_counts_duplicates (T K : list string) :
  ResumeTailor._calculate_keyword_score T K
  = ResumeTailor._calculate_keyword_score T (Spec.dedup K)
    + ResumeTailor._calculate_keyword_score T (Spec.repeats K)
  /\ ResumeTailor._calculate_keyword_score T (Spec.dedup K)
     <= ResumeTailor._calculate_keyword_score T K.
Proof.
  pose proof (score_dedup_from T [] K) as H.
  pose proof (score_nonneg T (Spec.repeats K)) as Hr.
  unfold Spec.dedup, Spec.repeats in *. split; lia.
Qed.

(** ** Sorting by score, highest first *)

Section SortReverse.

Import ResumeTailor.

Import Spec.

Context {A : Type} (key : A -> Z).

Lemma insert_reverse_perm (x : A) (l : list A) :
  Permutation (x :: l) (insert_reverse key x l).
Proof.
  induction l as [|y l IH]; simpl.
  - reflexivity.
  - destruct (key x <? key y).
    + rewrite perm_swap. apply perm_skip, IH.
    + reflexivity.
Qed.

Lemma sort_reverse_perm (l : list A) : Permutation l (sort_reverse key l).
Proof.
  induction l as [|x l IH]; simpl.
  - reflexivity.
  - rewrite <- insert_reverse_perm. apply perm_skip, IH.
Qed.

Lemma sort_reverse_length (l : list A) :
  length (sort_reverse key l) = length l.
Proof. symmetry. apply Permutation_length, sort_reverse_perm. Qed.

Lemma insert_reverse_descending (x : A) (l : list A) :
  descending key l -> descending key (insert_reverse key x l).
Proof.
  unfold descending. induction 1 as [|y l Hl IH Hy]; simpl.
  - constructor; [constructor | constructor].
  - destruct (key x <? key y) eqn:E.
    + apply Z.ltb_lt in E. constructor; [exact IH|].
      rewrite <- insert_reverse_perm. constructor; [lia | exact Hy].
    + apply Z.ltb_ge in E. constructor.
      * constructor; assumption.
      * constructor; [exact E|].
        eapply Forall_impl; [exact Hy|]. simpl. intros z Hz. lia.
Qed.

Lemma sort_reverse_descending (l : list A) :
  descending key (sort_reverse key l).
Proof.
  induction l as [|x l IH]; simpl.
  - constructor.
  - apply insert_reverse_descending, IH.
Qed.

Lemma insert_reverse_stable (s : Z) (x : A) (l : list A) :
  List.filter (has_key key s) (insert_reverse key x l)
  = List.filter (has_key key s) (x :: l).
Proof.
  induction l as [|y l IH]; simpl.
  - reflexivity.
  - destruct (key x <? key y) eqn:E; simpl.
    + apply Z.ltb_lt in E. rewrite IH. simpl. unfold has_key.
      destruct (key x =? s) eqn:Ex, (key y =? s) eqn:Ey; try reflexivity.
      apply Z.eqb_eq in Ex, Ey. lia.
    + reflexivity.
Qed.

Lemma sort_reverse_stable (s : Z) (l : list A) :
  List.filter (has_key key s) (sort_reverse key l) = List.filter (has_key key s) l.
Proof.
  induction l as [|x l IH]; simpl.
  - reflexivity.
  - rewrite insert_reverse_stable. simpl. rewrite IH. reflexivity.
Qed.

End SortReverse.

(** ** Tailoring *)

Section Tailoring.

Import ResumeTailor.

Lemma tailor_skill_raises (job_keywords : list string) (skill : string)
  (d : defaultdict) :
  exists msg, tailor_skill job_keywords skill d = Raise (AttributeError msg).
Proof.
  unfold tailor_skill, defaultdict_insert, defaultdict_append.
  destruct (skill_matches job_keywords skill); eauto.
Qed.

Lemma tailor_skills_no_skill (profile_skills : list (string * list string))
  (job_keywords : list string) (d : defaultdict) :
  Forall (fun cs => snd cs = []) profile_skills ->
  tailor_skills profile_skills job_keywords d = Ok d.
Proof.
  unfold tailor_skills. induction 1 as [|cs rest Hcs _ IH]; simpl.
  - reflexivity.
  - rewrite Hcs. simpl. exact IH.
Qed.

Lemma tailor_skills_some_skill (profile_skills : list (string * list string))
  (job_keywords : list string) (d : defaultdict) :
  Exists (fun cs => snd cs <> []) profile_skills ->
  exists msg,
    tailor_skills profile_skills job_keywords d = Raise (AttributeError msg).
Proof.
  unfold tailor_skills.
  induction profile_skills as [|[category skills_list] rest IH]; intros HE.
  - inversion HE.
  - simpl. destruct skills_list as [|skill more].
    + simpl. apply IH. inversion HE as [? ? H|? ? H]; subst.
      * simpl in H. congruence.
      * exact H.
    + simpl. destruct (tailor_skill_raises job_keywords skill d) as [msg ->].
      simpl. eauto.
Qed.

Lemma skills_empty_or_not (profile_skills : list (string * list string)) :
  Exists (fun cs => snd cs <> []) profile_skills
  \/ Forall (fun cs => snd cs = []) profile_skills.
Proof.
  induction profile_skills as [|[category skills_list] rest [IH|IH]].
  - right. constructor.
  - left. apply Exists_cons_tl, IH.
  - destruct skills_list as [|skill more].
    + right. constructor; [reflexivity | exact IH].
    + left. apply Exists_cons_hd. simpl. discriminate.
Qed.

Lemma filter_kept_eq {A : Type} (original : list A) (scored : list (Z * A))
  (limit : Z) (l : list (Z * A)) :
  length scored = length original ->
  List.filter (fun se => (fst se >? 0) || (Z.of_nat (length scored) <=? limit)) l
  = List.filter (Spec.kept original limit) l.
Proof.
  intros Hlen. apply filter_ext. intros se. unfold Spec.kept.
  rewrite Hlen, Z.gtb_ltb. reflexivity.
Qed.

Lemma filter_none {A : Type} (f : A -> bool) (l : list A) :
  (forall x, In x l -> f x = false) -> List.filter f l = [].
Proof.
  induction l as [|x l IH]; intros H; simpl.
  - reflexivity.
  - rewrite (H x (or_introl eq_refl)). apply IH. intros y Hy. apply H. now right.
Qed.

(** The code extracts the keywords the specification describes. *)
Lemma extract_is_job_keywords (job_description : string) :
  _extract_keywords_from_job_description job_description
  = Spec.job_keywords job_description.
Proof.
  unfold _extract_keywords_from_job_description, Spec.job_keywords.
  f_equal. apply filter_ext. intros token. apply Z.gtb_ltb.
Qed.

(** The code scores a work-experience entry on the fragments the
    specification names. *)
Lemma score_experiences_scored_entries (exps : list work_experience_entry)
  (keywords : list string) :
  score_experiences exps keywords = Spec.scored_entries exps keywords.
Proof.
  unfold score_experiences, Spec.scored_entries. apply map_ext. intros exp.
  rewrite score_is_count. unfold exp_text, Spec.entry_fragments, get_list.
  reflexivity.
Qed.

Lemma score_projects_scored_projects (projs : list project_entry)
  (keywords : list string) :
  map (fun proj => (_calculate_keyword_score (proj_text proj) keywords, proj)) projs
  = Spec.scored_projects projs keywords.
Proof.
  unfold Spec.scored_projects. apply map_ext. intros proj.
  rewrite score_is_count. unfold proj_text, Spec.project_fragments, get_list.
  reflexivity.
Qed.

End Tailoring.

(** C1 fails on the code at the specification's own scenario (one skill
    "Python" in category "Languages", job description "Seeking Python
    engineer"): the claim places "Python" first in the tailored list of its
    category, and [tailor_resume] raises [AttributeError] at line 74, because
    [insert] is called on the skills dictionary and not on the category's
    list. *)
Theorem tailor_resume_python_skill_raises :
  ResumeTailor.skill_matches
    (ResumeTailor._extract_keywords_from_job_description Scenario.job_description)
    "Python" = true
  /\ ResumeTailor.tailor_resume Scenario.python_profile Scenario.job_description
     = Raise (AttributeError
                "'collections.defaultdict' object has no attribute 'insert'").
Proof. split; reflexivity. Qed.

(** C2: for every profile and every job description, [tailor_resume] raises
    [AttributeError] when some skills category holds at least one skill, and
    returns a tailored resume when every skills category's list is empty
    (one of the two always holds). *)
Theorem tailor_resume_raises_iff_some_skill (p : ResumeTailor.profile)
  (job_description : string) :
  (Exists (fun cs => snd cs <> []) (ResumeTailor.skills p)
   /\ exists msg,
        ResumeTailor.tailor_resume p job_description = Raise (AttributeError msg))
  \/ (Forall (fun cs => snd cs = []) (ResumeTailor.skills p)
      /\ exists r, ResumeTailor.tailor_resume p job_description = Ok r).
Proof.
  unfold ResumeTailor.tailor_resume.
  destruct (skills_empty_or_not (ResumeTailor.skills p)) as [HE|HF].
  - left. split; [exact HE|].
    destruct (tailor_skills_some_skill _
                (ResumeTailor._extract_keywords_from_job_description job_description)
                [] HE) as [msg ->].
    simpl. eauto.
  - right. split; [exact HF|].
    rewrite (tailor_skills_no_skill _ _ [] HF). simpl. eauto.
Qed.

(** C5: for every profile and every job description, the tailored
    work_experience list consists of the profile's work-experience entries,
    each paired with the number of job keywords that occur in its title,
    company, description and technologies, stable-sorted on that score,
    highest first (the sorted list is a permutation of the scored entries, is
    descending, and keeps the entries of each score in their original order),
    keeping an entry exactly when its score is > 0 or the original list has 3
    or fewer entries.  In particular an original list of 4 or more entries,
    none of which matches a job keyword, tailors to the empty list.  The
    scores and the keywords are those of the specification's wording; the
    list is the one lines 47-55 compute, it is the work_experience of every
    resume [tailor_resume] returns, and [tailor_resume] does return for every
    profile whose skills lists are all empty. *)
Theorem tailor_resume_work_experience (p : ResumeTailor.profile)
  (job_description : string) :
  let original := ResumeTailor.work_experience p in
  let scored :=
    Spec.scored_entries original (Spec.job_keywords job_description) in
  let tailored :=
    ResumeTailor.tailor_work_experience original
      (ResumeTailor._extract_keywords_from_job_description job_description) in
  (exists sorted,
      Permutation scored sorted
      /\ Spec.descending fst sorted
      /\ (forall s, List.filter (Spec.has_key fst s) sorted
                    = List.filter (Spec.has_key fst s) scored)
      /\ tailored = map snd (List.filter (Spec.kept original 3) sorted))
  /\ ((3 < length original)%nat ->
      (forall exp, In exp original ->
         Spec.count_in_joined (Spec.entry_fragments exp)
                              (Spec.job_keywords job_description) = 0) ->
      tailored = [])
  /\ (forall r, ResumeTailor.tailor_resume p job_description = Ok r ->
                ResumeTailor.t_work_experience r = tailored)
  /\ (Forall (fun category_skills => snd category_skills = [])
             (ResumeTailor.skills p) ->
      exists r, ResumeTailor.tailor_resume p job_description = Ok r
                /\ ResumeTailor.t_work_experience r = tailored).
Proof.
  intros original scored tailored.
  assert (Hscored :
    ResumeTailor.score_experiences original
      (ResumeTailor._extract_keywords_from_job_description job_description)
    = scored).
  { rewrite score_experiences_scored_entries, extract_is_job_keywords.
    reflexivity. }
  assert (Hlen : length (ResumeTailor.sort_reverse fst scored) = length original).
  { rewrite sort_reverse_length. unfold scored, Spec.scored_entries.
    apply length_map. }
  assert (Htailored :
    tailored = map snd (List.filter (Spec.kept original 3)
                                    (ResumeTailor.sort_reverse fst scored))).
  { unfold tailored, ResumeTailor.tailor_work_experience. rewrite Hscored.
    cbv zeta. rewrite (filter_kept_eq original); [reflexivity | exact Hlen]. }
  split; [|split; [|split]].
  - exists (ResumeTailor.sort_reverse fst scored).
    split; [apply sort_reverse_perm|].
    split; [apply sort_reverse_descending|].
    split; [intros s; apply sort_reverse_stable | exact Htailored].
  - intros Hlong Hzero. rewrite Htailored.
    rewrite filter_none; [reflexivity|].
    intros [s exp] Hin. unfold Spec.kept. simpl.
    apply (Permutation_in _ (Permutation_sym (sort_reverse_perm fst scored)))
      in Hin.
    unfold scored, Spec.scored_entries in Hin.
    apply in_map_iff in Hin. destruct Hin as (exp' & Heq & Hin').
    inversion Heq; subst s exp'. rewrite (Hzero exp Hin').
    apply orb_false_intro; [reflexivity|]. apply Z.leb_gt. lia.
  - intros r Hr. unfold ResumeTailor.tailor_resume in Hr.
    destruct (ResumeTailor.tailor_skills _ _ _); simpl in Hr; [|discriminate].
    inversion Hr; subst r. reflexivity.
  - intros Hskills. unfold ResumeTailor.tailor_resume.
    rewrite (tailor_skills_no_skill _ _ [] Hskills). simpl.
    eexists. split; reflexivity.
Qed.

Lemma tailor_resume_work_experience_witness :
  (3 < length (ResumeTailor.work_experience Scenario.four_unrelated_jobs))%nat
  /\ ResumeTailor.tailor_work_experience
       (ResumeTailor.work_experience Scenario.four_unrelated_jobs)
       (ResumeTailor._extract_keywords_from_job_description
          Scenario.job_description) = []
  /\ exists r,
       ResumeTailor.tailor_resume Scenario.four_unrelated_jobs
                                  Scenario.job_description = Ok r
       /\ ResumeTailor.t_work_experience r = [].
Proof.
  destruct (tailor_resume_work_experience Scenario.four_unrelated_jobs
              Scenario.job_description) as (_ & Hempty & _ & Hreturns).
  assert (Hlong :
    (3 < length (ResumeTailor.work_experience Scenario.four_unrelated_jobs))%nat).
  { simpl. lia. }
  assert (Hzero : forall exp,
    In exp (ResumeTailor.work_experience Scenario.four_unrelated_jobs) ->
    Spec.count_in_joined (Spec.entry_fragments exp)
      (Spec.job_keywords Scenario.job_description) = 0).
  { intros exp [<-|[<-|[<-|[<-|[]]]]]; reflexivity. }
  assert (Hskills :
    Forall (fun category_skills => snd category_skills = [])
           (ResumeTailor.skills Scenario.four_unrelated_jobs)).
  { repeat constructor. }
  split; [exact Hlong|]. split; [exact (Hempty Hlong Hzero)|].
  destruct (Hreturns Hskills) as (r & Hr & Hwork).
  exists r. split; [exact Hr|].
  rewrite Hwork. exact (Hempty Hlong Hzero).
Defined.

(** ** Categorization *)

Section Categorize.

Import JobDatabase.

Lemma fit_category_high (s high medium : Z) :
  fit_category_for s high medium = "High Fit" <-> high <= s.
Proof.
  unfold fit_category_for.
  destruct (s >=? high) eqn:Eh; [|destruct (s >=? medium) eqn:Em];
    rewrite ?Z.geb_leb, ?Z.leb_le, ?Z.leb_gt in *;
    split; intros H; (reflexivity || lia || discriminate H).
Qed.

Lemma fit_category_medium (s high medium : Z) :
  fit_category_for s high medium = "Medium Fit" <-> medium <= s < high.
Proof.
  unfold fit_category_for.
  destruct (s >=? high) eqn:Eh; [|destruct (s >=? medium) eqn:Em];
    rewrite ?Z.geb_leb, ?Z.leb_le, ?Z.leb_gt in *;
    split; intros H; (reflexivity || lia || discriminate H).
Qed.

Lemma fit_category_low (s high medium : Z) :
  fit_category_for s high medium = "Low Fit" <-> s < high /\ s < medium.
Proof.
  unfold fit_category_for.
  destruct (s >=? high) eqn:Eh; [|destruct (s >=? medium) eqn:Em];
    rewrite ?Z.geb_leb, ?Z.leb_le, ?Z.leb_gt in *;
    split; intros H; (reflexivity || lia || discriminate H).
Qed.

Lemma categorize_job_fields (p : ResumeTailor.profile) (high medium : Z)
  (job : job_dict) :
  exists s,
    j_fit_score (categorize_job p high medium job) = Some s
    /\ j_fit_category (categorize_job p high medium job)
       = Some (fit_category_for s high medium).
Proof. eexists. split; reflexivity. Qed.

End Categorize.

(** C6: for every fit score s and thresholds high and medium (5 and 2 when
    the caller omits them), the category is "High Fit" exactly when
    s >= high, "Medium Fit" exactly when medium <= s < high, and "Low Fit"
    otherwise; a score equal to high is "High Fit" and a score equal to
    medium (below high) is "Medium Fit".  Every job returned by
    [categorize_jobs] carries the category of its score for the caller's
    thresholds, and every job is returned when the profile loads. *)
Theorem categorize_jobs_fit_category
  (load_profile : string -> option ResumeTailor.profile * option string)
  (jobs_list : list JobDatabase.job_dict) (profile_name : string)
  (high_threshold medium_threshold : option Z) (s : Z) :
  let high := JobDatabase.getitem high_threshold 5 in
  let medium := JobDatabase.getitem medium_threshold 2 in
  let categorized :=
    JobDatabase.categorize_jobs load_profile jobs_list profile_name
                                high_threshold medium_threshold in
  (JobDatabase.fit_category_for s high medium = "High Fit" <-> high <= s)
  /\ (JobDatabase.fit_category_for s high medium = "Medium Fit"
      <-> medium <= s < high)
  /\ (JobDatabase.fit_category_for s high medium = "Low Fit"
      <-> s < high /\ s < medium)
  /\ JobDatabase.fit_category_for high high medium = "High Fit"
  /\ (medium < high ->
      JobDatabase.fit_category_for medium high medium = "Medium Fit")
  /\ Forall (fun job =>
               exists score,
                 JobDatabase.j_fit_score job = Some score
                 /\ JobDatabase.j_fit_category job
                    = Some (JobDatabase.fit_category_for score high medium))
            categorized
  /\ (forall p, JobDatabase.ResumeTailor_init load_profile profile_name = Ok p ->
                length categorized = length jobs_list).
Proof.
  intros high medium categorized.
  split; [apply fit_category_high|].
  split; [apply fit_category_medium|].
  split; [apply fit_category_low|].
  split; [apply fit_category_high; lia|].
  split; [intros Hlt; apply fit_category_medium; lia|].
  unfold categorized, JobDatabase.categorize_jobs. fold high medium.
  destruct (JobDatabase.ResumeTailor_init load_profile profile_name) as [p|e].
  - split.
    + apply List.Forall_forall. intros job Hin. apply in_map_iff in Hin.
      destruct Hin as (job0 & <- & _). apply categorize_job_fields.
    + intros _ _. apply length_map.
  - split; [constructor | intros p Hp; discriminate Hp].
Qed.

Lemma categorize_jobs_fit_category_witness :
  JobDatabase.fit_category_for 5 5 2 = "High Fit"
  /\ JobDatabase.fit_category_for 2 5 2 = "Medium Fit"
  /\ JobDatabase.fit_category_for 1 5 2 = "Low Fit"
  /\ map JobDatabase.j_fit_category
         (JobDatabase.categorize_jobs Scenario.always_python
            [Scenario.engineer_job] "ada" None None)
     = [Some "Low Fit"].
Proof.
  destruct (categorize_jobs_fit_category Scenario.always_python
              [Scenario.engineer_job] "ada" None None 1)
    as (_ & _ & Hlow & Hhigh & Hmedium & _ & _).
  simpl in Hlow, Hhigh, Hmedium.
  split; [exact Hhigh|]. split; [apply Hmedium; lia|].
  split; [apply Hlow; lia|]. reflexivity.
Defined.

(** ** The jobs table *)

(** C10: for every stored jobs state, every job id and every status string,
    [update_job_status] leaves the number and order of the records and the
    key sequence as they were; each record keeps every field but [status];
    the record with that id gets the new status, and every other record is
    unchanged. *)
Theorem update_job_status_changes_only_status (d : JobDatabase.db) (job_id : Z)
  (new_status : string) :
  JobDatabase.sqlite_sequence (JobDatabase.update_job_status d job_id new_status)
  = JobDatabase.sqlite_sequence d
  /\ Forall2
       (fun old new =>
          Spec.same_but_status old new
          /\ (JobDatabase.id old = job_id -> JobDatabase.status new = new_status)
          /\ (JobDatabase.id old <> job_id -> new = old))
       (JobDatabase.rows d)
       (JobDatabase.rows (JobDatabase.update_job_status d job_id new_status)).
Proof.
  split; [reflexivity|]. simpl.
  induction (JobDatabase.rows d) as [|row rest IH]; simpl.
  - constructor.
  - constructor; [|exact IH].
    destruct (JobDatabase.id row =? job_id) eqn:E.
    + apply Z.eqb_eq in E. split; [|split].
      * unfold Spec.same_but_status. simpl. repeat split.
      * intros _. reflexivity.
      * intros Hne. contradiction.
    + apply Z.eqb_neq in E. split; [|split].
      * unfold Spec.same_but_status. repeat split.
      * intros Heq. contradiction.
      * intros _. reflexivity.
Qed.

Lemma update_job_status_changes_only_status_witness :
  exists new1 new2,
    JobDatabase.rows
      (JobDatabase.update_job_status Scenario.two_jobs_db 1 "applied")
    = [new1; new2]
    /\ JobDatabase.status new1 = "applied"
    /\ JobDatabase.role new1 = "Engineer"
    /\ new2 = Scenario.stored_job 2 "Analyst" "new".
Proof.
  destruct (update_job_status_changes_only_status Scenario.two_jobs_db 1 "applied")
    as (_ & Hrows).
  inversion Hrows as [|old1 new1 olds news (Hsame & Hstatus & _) Hrest Ho Hn].
  inversion Hrest as [|old2 new2 olds' news' (_ & _ & Hother) Hnil Ho' Hn'].
  inversion Hnil. subst.
  eexists _, _. split; [reflexivity|].
  split; [apply Hstatus; reflexivity|].
  split; [apply Hsame | apply Hother; discriminate].
Defined.

Section InsertJobs.

Import JobDatabase.

Variable json_dumps : job_dict -> string.

Lemma select_none_fresh (d : db) (l r : string) :
  select_id_where_link_role d (Some l) (Some r) = None ->
  (l, r) ∉ map Spec.link_role (rows d).
Proof.
  unfold select_id_where_link_role. intros Hsel Hin.
  apply list_elem_of_In, in_map_iff in Hin.
  destruct Hin as (row & Hkey & Hrow).
  destruct (find _ (rows d)) as [found|] eqn:Hfind; [discriminate Hsel|].
  pose proof (find_none _ _ Hfind row Hrow) as Hno. simpl in Hno.
  unfold Spec.link_role in Hkey. inversion Hkey; subst l r.
  rewrite !String.eqb_refl in Hno. discriminate Hno.
Qed.

Lemma setdefault_getitem {A : Type} (field : option A) (default : A) :
  setdefault field default = Some (getitem field default).
Proof. destruct field; reflexivity. Qed.

Lemma bind_int_cases (n : Z) :
  (Spec.binds n /\ bind_int n = Ok n)
  \/ (~ Spec.binds n /\ exists msg, bind_int n = Raise (OverflowError msg)).
Proof.
  unfold bind_int, Spec.binds.
  destruct (- 2 ^ 63 <=? n) eqn:Hlow; destruct (n <? 2 ^ 63) eqn:Hhigh;
    cbn [andb]; rewrite ?Z.leb_le, ?Z.leb_gt, ?Z.ltb_lt, ?Z.ltb_ge in *;
    [left; split; [lia | reflexivity] | right; split; [lia | eauto] ..].
Qed.

(** A number of at most 53 bits is stored in a REAL column as it is. *)
Lemma to_real_exact (n : Z) : Spec.exact_real n -> to_real n = n.
Proof.
  unfold Spec.exact_real, to_real. intros Hn.
  destruct (Z.eq_dec (Z.abs n) (2 ^ 53)) as [Habs|Habs].
  - destruct (Z.abs_eq_or_opp n) as [E|E]; rewrite E in Habs.
    + subst n. reflexivity.
    + assert (n = - 2 ^ 53) as -> by lia. reflexivity.
  - assert (Hlog : Z.log2 (Z.abs n) - 52 <= 0).
    { destruct (Z.eq_dec n 0) as [->|Hnz]; [simpl; lia|].
      assert (Z.log2 (Z.abs n) < 53); [|lia].
      apply Z.log2_lt_pow2; lia. }
    apply Z.leb_le in Hlog. rewrite Hlog. reflexivity.
Qed.

(** What [insert_job] does when it returns: one row more, with the next key
    and the values of the dictionary, and the dictionary with all ten keys. *)
Lemma insert_job_ok (d : db) (job_data job' : job_dict) (d' : db) (lastrowid : Z) :
  insert_job json_dumps d job_data = Ok (job', d', lastrowid) ->
  Spec.binds (getitem (j_fit_score job_data) (-1))
  /\ lastrowid = sqlite_sequence d + 1
  /\ exists row,
       d' = {| rows := rows d ++ [row]; sqlite_sequence := sqlite_sequence d + 1 |}
       /\ id row = sqlite_sequence d + 1
       /\ company row = getitem (j_company job_data) "N/A"
       /\ role row = getitem (j_role job_data) "N/A"
       /\ location row = getitem (j_location job_data) "N/A"
       /\ link row = getitem (j_link job_data) "N/A"
       /\ date_posted row = getitem (j_date_posted job_data) "N/A"
       /\ original_category row = getitem (j_original_category job_data) "N/A"
       /\ fit_score row = to_real (getitem (j_fit_score job_data) (-1))
       /\ fit_category row = getitem (j_fit_category job_data) "unclassified"
       /\ status row = getitem (j_status job_data) "new"
       /\ raw_data row
          = getitem (j_raw_data job_data) (json_dumps (Spec.with_defaults job_data))
       /\ j_link job' = Some (link row)
       /\ j_role job' = Some (role row)
       /\ j_fit_score job' = Some (getitem (j_fit_score job_data) (-1))
       /\ j_raw_data job' = Some (raw_data row).
Proof.
  unfold insert_job. cbv zeta. rewrite !setdefault_getitem.
  cbn [j_company j_role j_location j_link j_date_posted j_original_category
       j_fit_score j_fit_category j_status j_raw_data getitem].
  fold (Spec.with_defaults job_data).
  destruct (bind_int_cases (getitem (j_fit_score job_data) (-1)))
    as [[Hbinds ->]|[_ [msg ->]]]; cbn [bind]; intros H; [|discriminate H].
  inversion H; subst job' d' lastrowid. clear H.
  split; [exact Hbinds|]. split; [reflexivity|].
  eexists. split; [reflexivity|]. cbn. repeat split.
Qed.

Lemma insert_job_binds (d : db) (job_data : job_dict) :
  Spec.binds (getitem (j_fit_score job_data) (-1)) ->
  exists job' d',
    insert_job json_dumps d job_data = Ok (job', d', sqlite_sequence d + 1).
Proof.
  intros Hbinds. unfold insert_job. cbv zeta. rewrite !setdefault_getitem.
  cbn [j_fit_score getitem].
  destruct (bind_int_cases (getitem (j_fit_score job_data) (-1)))
    as [[_ ->]|[Hno _]]; [|contradiction].
  cbn [bind]. eauto.
Qed.

Lemma insert_job_overflow (d : db) (job_data : job_dict) :
  ~ Spec.binds (getitem (j_fit_score job_data) (-1)) ->
  exists msg, insert_job json_dumps d job_data = Raise (OverflowError msg).
Proof.
  intros Hno. unfold insert_job. cbv zeta. rewrite !setdefault_getitem.
  cbn [j_fit_score getitem].
  destruct (bind_int_cases (getitem (j_fit_score job_data) (-1)))
    as [[Hbinds _]|[_ [msg ->]]]; [contradiction|].
  cbn [bind]. eauto.
Qed.

Lemma insert_job_rows (d : db) (job_data job' : job_dict) (d' : db)
  (lastrowid : Z) (l r : string) :
  j_link job_data = Some l -> j_role job_data = Some r ->
  insert_job json_dumps d job_data = Ok (job', d', lastrowid) ->
  exists row,
    rows d' = rows d ++ [row]
    /\ Spec.link_role row = (l, r)
    /\ Spec.has_link_and_role job'.
Proof.
  intros Hl Hr Hins.
  destruct (insert_job_ok _ _ _ _ _ Hins)
    as (_ & _ & row & -> & _ & _ & Hrole & _ & Hlink & _ & _ & _ & _ & _ & _
        & Hl' & Hr' & _).
  exists row. split; [reflexivity|]. split.
  - unfold Spec.link_role. rewrite Hlink, Hrole, Hl, Hr. reflexivity.
  - split; [rewrite Hl' | rewrite Hr']; eauto.
Qed.

(** Where every dictionary carries [link] and [role], one call of
    [insert_jobs] keeps the (link, role) pairs of the store distinct, and the
    count it adds is the number of rows it adds. *)
Lemma insert_jobs_loop_unique (jobs_list : list nat) :
  forall (h : heap) (d : db) (inserted_count : Z) (h' : heap) (d' : db)
         (inserted_count' : Z),
    Forall Spec.has_link_and_role h ->
    Spec.unique_link_role d ->
    insert_jobs_loop json_dumps jobs_list h d inserted_count
    = Ok (h', d', inserted_count') ->
    Forall Spec.has_link_and_role h'
    /\ Spec.unique_link_role d'
    /\ Z.of_nat (length (rows d'))
       = Z.of_nat (length (rows d)) + (inserted_count' - inserted_count).
Proof.
  induction jobs_list as [|r rest IH]; intros h d n h' d' n' Hh Hd;
    cbn [insert_jobs_loop].
  - intros H. inversion H; subst. repeat split; [exact Hh | exact Hd | lia].
  - destruct (h !! r) as [job_data|] eqn:Hjob; [|apply IH; assumption].
    destruct (Forall_lookup_1 _ _ _ _ Hh Hjob) as [[l Hl] [ro Hr]].
    rewrite Hl, Hr.
    destruct (select_id_where_link_role d (Some l) (Some ro)) eqn:Hsel;
      [apply IH; assumption|].
    destruct (insert_job json_dumps d job_data) as [[[job1 d1] rowid]|e] eqn:Hins;
      cbn [bind]; [|discriminate].
    destruct (insert_job_rows d job_data job1 d1 rowid l ro Hl Hr Hins)
      as (row & Hrows & Hkey & Hjob1).
    intros Hloop.
    destruct (IH (<[r:=job1]> h) d1 (n + 1) h' d' n') as (Hh' & Hd' & Hlen);
      [| |exact Hloop|].
    + apply Forall_insert; assumption.
    + unfold Spec.unique_link_role. rewrite Hrows, map_app. simpl.
      apply NoDup_app. split; [exact Hd|]. split; [|apply NoDup_singleton].
      intros key Hkey_in Hkey_new. apply list_elem_of_singleton in Hkey_new.
      subst key. rewrite Hkey in Hkey_in.
      exact (select_none_fresh d l ro Hsel Hkey_in).
    + repeat split; [exact Hh' | exact Hd'|].
      rewrite Hlen, Hrows, length_app. simpl. lia.
Qed.

End InsertJobs.

(** The same dictionary at two places of the list is inserted once: the
    first [insert_job] fills in its [link], which the second check finds. *)
Lemma insert_jobs_same_dictionary_twice (json_dumps : JobDatabase.job_dict -> string) :
  match
    JobDatabase.insert_jobs json_dumps [Scenario.engineer_job]
      JobDatabase.empty_db [0%nat; 0%nat]
  with
  | Ok (_, d, inserted_count) =>
      inserted_count = 1 /\ length (JobDatabase.rows d) = 1%nat
  | Raise _ => False
  end.
Proof. cbn. split; reflexivity. Qed.

(** C7 fails on the code for job dictionaries without the key [link] (or
    [role]): the duplicate check at line 69 compares the stored column with
    NULL, which matches no row, and [insert_job] then stores the default
    "N/A".  Two separate dictionaries with role "Engineer" and no link, from
    the empty store: both are inserted, the call returns 2, and the two stored
    records share the pair ("N/A", "Engineer"). *)
Theorem insert_jobs_repeats_job_without_link (json_dumps : JobDatabase.job_dict -> string) :
  match
    JobDatabase.insert_jobs json_dumps
      [Scenario.engineer_job; Scenario.engineer_job] JobDatabase.empty_db
      [0%nat; 1%nat]
  with
  | Ok (_, d, inserted_count) =>
      inserted_count = 2
      /\ map (fun row => (JobDatabase.id row, Spec.link_role row)) (JobDatabase.rows d)
         = [(1, ("N/A", "Engineer")); (2, ("N/A", "Engineer"))]
      /\ ~ Spec.unique_link_role d
  | Raise _ => False
  end.
Proof.
  cbn. split; [reflexivity|]. split; [reflexivity|].
  unfold Spec.unique_link_role. simpl. intros Hnodup.
  apply NoDup_cons in Hnodup. destruct Hnodup as [Hnotin _].
  apply Hnotin. constructor.
Qed.

(** ** JSON text: what [json.dump] writes, [json.load] reads back *)

Section JsonRoundTrip.

Import Json JsonSpec.

Lemma json_ind' (P : json -> Prop) :
  P JNull -> (forall b, P (JBool b)) -> (forall n, P (JInt n)) ->
  (forall s, P (JStr s)) ->
  (forall items, Forall P items -> P (JList items)) ->
  (forall members, Forall (fun m => P (snd m)) members -> P (JDict members)) ->
  forall v, P v.
Proof.
  intros Hnull Hbool Hint Hstr Hlist Hdict.
  fix IH 1. intros [ |b|n|s|items|members].
  - exact Hnull.
  - apply Hbool.
  - apply Hint.
  - apply Hstr.
  - apply Hlist. induction items as [|x items IHitems]; constructor.
    + apply IH.
    + exact IHitems.
  - apply Hdict. induction members as [|[k x] members IHmembers]; constructor.
    + apply IH.
    + exact IHmembers.
Qed.

Lemma skip_ws_spaces (n : nat) (s : list ascii) :
  skip_ws (repeat " "%char n ++ s) = skip_ws s.
Proof. induction n as [|n IH]; simpl; [reflexivity | exact IH]. Qed.

Lemma skip_ws_newline_indent (level : nat) (s : list ascii) :
  skip_ws (newline_indent level ++ s) = skip_ws s.
Proof. unfold newline_indent. cbn [app skip_ws]. simpl is_ws. cbv iota. apply skip_ws_spaces. Qed.

Lemma read_digits_delimited (rest : list ascii) :
  delimited rest = true -> read_digits rest = (Nil, rest).
Proof.
  destruct rest as [|c rest]; [reflexivity|]. simpl. intros H.
  apply orb_true_iff in H. destruct H as [H|H]; apply Ascii.eqb_eq in H; subst c;
    reflexivity.
Qed.

Lemma read_digits_uint_chars (u : uint) (rest : list ascii) :
  delimited rest = true -> read_digits (uint_chars u ++ rest) = (u, rest).
Proof.
  intros H. induction u; simpl; rewrite ?IHu; auto using read_digits_delimited.
Qed.

Lemma continues_number_delimited (rest : list ascii) :
  delimited rest = true -> continues_number rest = false.
Proof.
  destruct rest as [|c rest]; [reflexivity|]. simpl. intros H.
  apply orb_true_iff in H. destruct H as [H|H]; apply Ascii.eqb_eq in H; subst c;
    reflexivity.
Qed.

Lemma unorm_to_uint (n : N) : unorm (N.to_uint n) = N.to_uint n.
Proof.
  rewrite <- (DecimalN.Unsigned.of_to n) at 2.
  symmetry. apply DecimalN.Unsigned.to_of.
Qed.

Lemma uint_beq_refl (u : uint) : uint_beq u u = true.
Proof. induction u; simpl; auto. Qed.

Lemma to_uint_not_nil (n : N) : N.to_uint n <> Nil.
Proof.
  destruct n as [|p]; simpl; [discriminate|].
  apply DecimalPos.Unsigned.to_uint_nonnil.
Qed.

Lemma uint_chars_head (u : uint) :
  u <> Nil ->
  exists c r, uint_chars u = c :: r /\ is_ws c = false
              /\ (exists d, digit_of c = Some d).
Proof.
  destruct u; intros H; [contradiction| ..]; simpl; eexists _, _;
    (split; [reflexivity|]); (split; [reflexivity|]); eexists; reflexivity.
Qed.

Lemma parse_int_digits (u : uint) (rest : list ascii) :
  u <> Nil -> unorm u = u -> delimited rest = true ->
  parse_int (uint_chars u ++ rest) = Some (Z.of_N (N.of_uint u), rest).
Proof.
  intros Hnil Hnorm Hrest. unfold parse_int.
  destruct (uint_chars_head u Hnil) as (c & r & Hc & _ & d & Hd).
  assert (Hminus : Ascii.eqb c "-"%char = false).
  { destruct (Ascii.eqb c "-"%char) eqn:E; [|reflexivity].
    apply Ascii.eqb_eq in E. subst c. discriminate Hd. }
  rewrite Hc. cbn [app]. rewrite Hminus. rewrite app_comm_cons, <- Hc.
  rewrite (read_digits_uint_chars u rest Hrest).
  rewrite Hnorm, uint_beq_refl, (continues_number_delimited rest Hrest).
  destruct u; [contradiction| ..]; reflexivity.
Qed.

Lemma parse_int_print_int (n : Z) (rest : list ascii) :
  delimited rest = true ->
  parse_int (print_int n ++ rest) = Some (n, rest).
Proof.
  intros Hrest. unfold print_int.
  destruct (n <? 0) eqn:Hneg.
  - apply Z.ltb_lt in Hneg. cbn [app]. unfold parse_int.
    change (Ascii.eqb "-"%char "-"%char) with true. cbv iota.
    rewrite (read_digits_uint_chars _ rest Hrest).
    rewrite unorm_to_uint, uint_beq_refl, (continues_number_delimited rest Hrest).
    pose proof (to_uint_not_nil (Z.abs_N n)) as Hnil.
    rewrite DecimalN.Unsigned.of_to.
    replace (- Z.of_N (Z.abs_N n)) with n by (rewrite N2Z.inj_abs_N; lia).
    destruct (N.to_uint (Z.abs_N n)); [contradiction| ..]; reflexivity.
  - apply Z.ltb_ge in Hneg. cbn [app].
    rewrite parse_int_digits;
      [|apply to_uint_not_nil|apply unorm_to_uint|exact Hrest].
    rewrite DecimalN.Unsigned.of_to, N2Z.inj_abs_N, Z.abs_eq by lia.
    reflexivity.
Qed.

Lemma parse_string_body_escape_char (c : ascii) (r : list ascii) :
  parse_string_body (escape_char c ++ r)
  = match parse_string_body r with
    | Some (str, rest) => Some (String c str, rest)
    | None => None
    end.
Proof.
  destruct c as [[] [] [] [] [] [] [] []]; reflexivity.
Qed.

Lemma parse_string_body_escape (s : string) (rest : list ascii) :
  parse_string_body (escape s ++ quote :: rest) = Some (s, rest).
Proof.
  induction s as [|c s IH]; simpl.
  - reflexivity.
  - rewrite <- app_assoc, parse_string_body_escape_char, IH. reflexivity.
Qed.

End JsonRoundTrip.

Section JsonRoundTripValues.

Import Json JsonSpec.

Lemma uint_chars_number_start (u : uint) :
  u <> Nil -> exists c r, uint_chars u = c :: r /\ number_start c.
Proof.
  destruct u; intros H; [contradiction| ..]; simpl; eexists _, _;
    (split; [reflexivity|]); repeat split.
Qed.

Lemma print_int_number_start (n : Z) :
  exists c r, print_int n = c :: r /\ number_start c.
Proof.
  unfold print_int. destruct (n <? 0).
  - eexists _, _. split; [reflexivity|]. repeat split.
  - apply uint_chars_number_start, to_uint_not_nil.
Qed.

Lemma skip_ws_idempotent (s : list ascii) : skip_ws (skip_ws s) = skip_ws s.
Proof.
  induction s as [|c s IH]; simpl; [reflexivity|].
  destruct (is_ws c) eqn:E; [exact IH|]. simpl. rewrite E. reflexivity.
Qed.

Lemma parse_value_skip_ws (fuel : nat) (s : list ascii) :
  parse_value fuel (skip_ws s) = parse_value fuel s.
Proof.
  destruct fuel; cbn [parse_value]; [reflexivity|].
  rewrite skip_ws_idempotent. reflexivity.
Qed.

Lemma parse_value_newline_indent (fuel level : nat) (s : list ascii) :
  parse_value fuel (newline_indent level ++ s) = parse_value fuel s.
Proof.
  rewrite <- parse_value_skip_ws, skip_ws_newline_indent, parse_value_skip_ws.
  reflexivity.
Qed.

Lemma parse_value_space (fuel : nat) (s : list ascii) :
  parse_value fuel (" "%char :: s) = parse_value fuel s.
Proof.
  rewrite <- parse_value_skip_ws. simpl skip_ws. apply parse_value_skip_ws.
Qed.

Lemma parse_items_newline_indent (fuel level : nat) (s : list ascii) :
  parse_items fuel (newline_indent level ++ s) = parse_items fuel s.
Proof.
  destruct fuel; cbn [parse_items]; [reflexivity|].
  rewrite parse_value_newline_indent. reflexivity.
Qed.

Lemma parse_members_newline_indent (fuel level : nat) (s : list ascii) :
  parse_members fuel (newline_indent level ++ s) = parse_members fuel s.
Proof.
  destruct fuel; cbn [parse_members]; [reflexivity|].
  rewrite skip_ws_newline_indent. reflexivity.
Qed.

Lemma print_list_cons (level : nat) (x : json) (xs : list json) (rest : list ascii) :
  print level (JList (x :: xs)) ++ rest
  = "["%char :: newline_indent (S level)
    ++ print (S level) x
    ++ more_items level xs ++ newline_indent level ++ "]"%char :: rest.
Proof.
  cbn [print]. fold (more_items level xs).
  rewrite <- app_comm_cons. f_equal.
  rewrite <- !app_assoc. reflexivity.
Qed.

Lemma print_dict_cons (level : nat) (m : string * json)
  (ms : list (string * json)) (rest : list ascii) :
  print level (JDict (m :: ms)) ++ rest
  = "{"%char :: newline_indent (S level)
    ++ quote :: escape (fst m)
    ++ quote :: ":"%char :: " "%char :: print (S level) (snd m)
    ++ more_members level ms ++ newline_indent level ++ "}"%char :: rest.
Proof.
  cbn [print]. fold (more_members level ms).
  rewrite <- app_comm_cons. f_equal. unfold print_string.
  rewrite <- !app_assoc. cbn [app chars list_ascii_of_string].
  rewrite <- !app_assoc. reflexivity.
Qed.

(** The first character of the text of a value: not white space and not a
    closing bracket. *)
Lemma print_head (level : nat) (v : json) :
  exists c r, print level v = c :: r
              /\ is_ws c = false
              /\ Ascii.eqb c "]"%char = false /\ Ascii.eqb c "}"%char = false.
Proof.
  destruct v as [ |[]|n|s|[|x xs]|[|m ms]];
    try (eexists _, _; split; [reflexivity|]; repeat split).
  destruct (print_int_number_start n) as (c & r & Hc & Hstart).
  exists c, r. split; [exact Hc|]. unfold number_start in Hstart. tauto.
Qed.

Lemma delimited_more_items (level : nat) (xs : list json) (rest : list ascii) :
  delimited (more_items level xs ++ newline_indent level ++ rest) = true.
Proof. destruct xs; reflexivity. Qed.

Lemma delimited_more_members (level : nat) (ms : list (string * json))
  (rest : list ascii) :
  delimited (more_members level ms ++ newline_indent level ++ rest) = true.
Proof. destruct ms; reflexivity. Qed.

Lemma parse_items_reads_back (xs : list json) :
  Forall reads_back xs ->
  forall (x : json) (fuel level : nat) (rest : list ascii),
    reads_back x ->
    (S (size x) + list_sum (map (fun y => S (size y)) xs) <= fuel)%nat ->
    well_formed x = true -> forallb well_formed xs = true ->
    parse_items fuel
      (print (S level) x
       ++ more_items level xs ++ newline_indent level ++ "]"%char :: rest)
    = Some (x :: xs, rest).
Proof.
  induction 1 as [|y ys Hy Hys IH]; intros x fuel level rest Hx Hfuel Hwx Hwxs;
    (destruct fuel as [|fuel]; [simpl in Hfuel; lia|]); cbn [parse_items].
  - rewrite (Hx fuel (S level)); [|simpl in Hfuel; lia|exact Hwx|reflexivity].
    cbn [more_items flat_map app]. rewrite skip_ws_newline_indent. reflexivity.
  - cbn [forallb] in Hwxs. apply andb_true_iff in Hwxs. destruct Hwxs as [Hwy Hwys].
    unfold list_sum in *. cbn [map fold_right] in Hfuel.
    rewrite (Hx fuel (S level));
      [|lia|exact Hwx|apply (delimited_more_items level (y :: ys))].
    cbn [more_items flat_map]. fold (more_items level ys).
    rewrite <- app_assoc. cbn [app skip_ws is_ws].
    change (is_ws ","%char) with false. cbv iota.
    change (Ascii.eqb ","%char ","%char) with true. cbv iota.
    rewrite <- app_assoc, parse_items_newline_indent.
    rewrite (IH y fuel level rest Hy); [reflexivity|lia|exact Hwy|exact Hwys].
Qed.


Lemma more_members_cons (level : nat) (m : string * json)
  (ms : list (string * json)) (tail : list ascii) :
  more_members level (m :: ms) ++ tail
  = ","%char :: newline_indent (S level)
    ++ quote :: escape (fst m)
    ++ quote :: ":"%char :: " "%char :: print (S level) (snd m)
    ++ more_members level ms ++ tail.
Proof.
  cbn [more_members flat_map]. fold (more_members level ms).
  unfold print_string. rewrite <- !app_assoc.
  cbn [app chars list_ascii_of_string]. rewrite <- !app_assoc.
  cbn [app]. rewrite <- ?app_assoc. reflexivity.
Qed.

Lemma parse_members_reads_back (ms : list (string * json)) :
  Forall (fun m => reads_back (snd m)) ms ->
  forall (m : string * json) (fuel level : nat) (rest : list ascii),
    reads_back (snd m) ->
    (S (size (snd m)) + list_sum (map (fun m' => S (size (snd m'))) ms) <= fuel)%nat ->
    well_formed (snd m) = true ->
    forallb (fun m' => well_formed (snd m')) ms = true ->
    parse_members fuel
      (quote :: escape (fst m)
       ++ quote :: ":"%char :: " "%char :: print (S level) (snd m)
       ++ more_members level ms ++ newline_indent level ++ "}"%char :: rest)
    = Some (m :: ms, rest).
Proof.
  induction 1 as [|m' ms Hm' Hms IH];
    intros [k v] fuel level rest Hv Hfuel Hwv Hwms; cbn [fst snd] in *;
    (destruct fuel as [|fuel]; [simpl in Hfuel; lia|]);
    cbn [parse_members skip_ws]; change (is_ws quote) with false; cbv iota;
    change (Ascii.eqb quote quote) with true; cbv iota;
    rewrite parse_string_body_escape; cbn [skip_ws];
    change (is_ws ":"%char) with false; cbv iota;
    change (Ascii.eqb ":"%char ":"%char) with true; cbv iota;
    rewrite parse_value_space.
  - rewrite (Hv fuel (S level)); [|simpl in Hfuel; lia|exact Hwv|reflexivity].
    cbn [more_members flat_map app]. rewrite skip_ws_newline_indent. reflexivity.
  - cbn [forallb] in Hwms. apply andb_true_iff in Hwms.
    destruct Hwms as [Hwm' Hwms].
    unfold list_sum in *. cbn [map fold_right] in Hfuel.
    rewrite (Hv fuel (S level));
      [|lia|exact Hwv|apply (delimited_more_members level (m' :: ms))].
    rewrite more_members_cons. cbn [skip_ws].
    change (is_ws ","%char) with false. cbv iota.
    change (Ascii.eqb ","%char ","%char) with true. cbv iota.
    rewrite parse_members_newline_indent.
    rewrite (IH m' fuel level rest Hm'); [reflexivity|lia|exact Hwm'|exact Hwms].
Qed.

Lemma dict_set_fresh (k : string) (v : json) (d : list (string * json)) :
  existsb (String.eqb k) (map fst d) = false ->
  dict_set k v d = d ++ [(k, v)].
Proof.
  induction d as [|[k' v'] d IH]; simpl; intros H.
  - reflexivity.
  - apply orb_false_iff in H. destruct H as [Hk Hd].
    rewrite String.eqb_sym, Hk, (IH Hd). reflexivity.
Qed.

Lemma existsb_app_false {A : Type} (f : A -> bool) (l1 l2 : list A) :
  existsb f l1 = false -> existsb f l2 = false -> existsb f (l1 ++ l2) = false.
Proof. intros H1 H2. rewrite existsb_app, H1, H2. reflexivity. Qed.

Lemma dict_of_pairs_from (pairs d : list (string * json)) :
  keys_unique (map fst pairs) = true ->
  (forall m, In m pairs -> existsb (String.eqb (fst m)) (map fst d) = false) ->
  fold_left (fun d kv => dict_set (fst kv) (snd kv) d) pairs d = d ++ pairs.
Proof.
  revert d. induction pairs as [|[k v] pairs IH]; intros d Hu Hd; simpl.
  - rewrite app_nil_r. reflexivity.
  - simpl in Hu. apply andb_true_iff in Hu. destruct Hu as [Hk Hu].
    apply negb_true_iff in Hk.
    rewrite (dict_set_fresh k v d (Hd (k, v) (or_introl eq_refl))).
    rewrite IH; [rewrite <- app_assoc; reflexivity|exact Hu|].
    intros m Hm. rewrite map_app. apply existsb_app_false.
    + apply Hd. now right.
    + simpl. rewrite orb_false_r.
      destruct (String.eqb (fst m) k) eqn:E; [|reflexivity].
      apply String.eqb_eq in E. subst k.
      assert (Hin : In (fst m) (map fst pairs)) by (apply in_map; exact Hm).
      assert (Hex : existsb (String.eqb (fst m)) (map fst pairs) = true).
      { apply existsb_exists. exists (fst m). split; [exact Hin|].
        apply String.eqb_refl. }
      congruence.
Qed.

Lemma dict_of_pairs_unique (pairs : list (string * json)) :
  keys_unique (map fst pairs) = true -> dict_of_pairs pairs = pairs.
Proof.
  intros Hu. unfold dict_of_pairs.
  rewrite dict_of_pairs_from; [reflexivity|exact Hu|reflexivity].
Qed.

(** Every well-formed value is read back from the text [print] writes for
    it, whatever the nesting level and whatever delimiter follows. *)
Lemma print_reads_back (v : json) : reads_back v.
Proof.
  induction v as [ |b|n|s|items Hitems|members Hmembers] using json_ind';
    intros fuel level rest Hfuel Hwf Hrest;
    (destruct fuel as [|fuel]; [simpl in Hfuel; lia|]).
  - reflexivity.
  - destruct b; reflexivity.
  - destruct (print_int_number_start n) as (c & r & Hc & Hstart).
    destruct Hstart as (Hws & Hn & Ht & Hf & Hq & Hl & Hd & _ & _).
    cbn [print parse_value]. rewrite Hc. cbn [app skip_ws].
    rewrite Hws, Hn, Ht, Hf, Hq, Hl, Hd.
    rewrite app_comm_cons, <- Hc, (parse_int_print_int n rest Hrest).
    reflexivity.
  - cbn [print parse_value]. unfold print_string.
    rewrite <- app_comm_cons, <- app_assoc. cbn [app skip_ws].
    change (is_ws quote) with false. cbv iota.
    change (Ascii.eqb quote "n"%char) with false.
    change (Ascii.eqb quote "t"%char) with false.
    change (Ascii.eqb quote "f"%char) with false.
    change (Ascii.eqb quote quote) with true. cbv iota.
    rewrite parse_string_body_escape. reflexivity.
  - destruct items as [|x xs]; [reflexivity|].
    rewrite print_list_cons. cbn [parse_value skip_ws].
    change (is_ws "["%char) with false. cbv iota.
    change (Ascii.eqb "["%char "n"%char) with false.
    change (Ascii.eqb "["%char "t"%char) with false.
    change (Ascii.eqb "["%char "f"%char) with false.
    change (Ascii.eqb "["%char quote) with false.
    change (Ascii.eqb "["%char "["%char) with true. cbv iota.
    rewrite skip_ws_newline_indent.
    destruct (print_head (S level) x) as (c & r & Hc & Hws & Hclose & _).
    rewrite Hc. cbn [app skip_ws]. rewrite Hws, Hclose.
    rewrite app_comm_cons, <- Hc.
    cbn [well_formed forallb] in Hwf. apply andb_true_iff in Hwf.
    destruct Hwf as [Hwx Hwxs].
    inversion Hitems as [|? ? Hx Hxs]; subst.
    rewrite (parse_items_reads_back xs Hxs x fuel level rest Hx);
      [reflexivity| |exact Hwx|exact Hwxs].
    cbn [size map] in Hfuel. unfold list_sum in *. cbn [fold_right] in Hfuel. lia.
  - destruct members as [|m ms]; [reflexivity|].
    rewrite print_dict_cons. cbn [parse_value skip_ws].
    change (is_ws "{"%char) with false. cbv iota.
    change (Ascii.eqb "{"%char "n"%char) with false.
    change (Ascii.eqb "{"%char "t"%char) with false.
    change (Ascii.eqb "{"%char "f"%char) with false.
    change (Ascii.eqb "{"%char quote) with false.
    change (Ascii.eqb "{"%char "["%char) with false.
    change (Ascii.eqb "{"%char "{"%char) with true. cbv iota.
    rewrite skip_ws_newline_indent. cbn [skip_ws].
    change (is_ws quote) with false. cbv iota.
    change (Ascii.eqb quote "}"%char) with false. cbv iota.
    cbn [well_formed] in Hwf. apply andb_true_iff in Hwf.
    destruct Hwf as [Hkeys Hwms]. cbn [forallb] in Hwms.
    apply andb_true_iff in Hwms. destruct Hwms as [Hwm Hwms].
    inversion Hmembers as [|? ? Hm Hms]; subst.
    rewrite (parse_members_reads_back ms Hms m fuel level rest Hm);
      [|cbn [size map] in Hfuel; unfold list_sum in *;
        cbn [fold_right] in Hfuel; lia|exact Hwm|exact Hwms].
    cbn [option_map fst snd]. rewrite (dict_of_pairs_unique _ Hkeys). reflexivity.
Qed.

End JsonRoundTripValues.

Section JsonLoadsDumps.

Import Json JsonSpec.

Lemma length_newline_indent (level : nat) :
  (1 <= length (newline_indent level))%nat.
Proof. unfold newline_indent. simpl. lia. Qed.

Lemma length_more_items (level : nat) (xs : list json) :
  Forall (fun y => forall level, (size y <= length (print level y))%nat) xs ->
  (list_sum (map (fun y => S (size y)) xs) <= length (more_items level xs))%nat.
Proof.
  unfold list_sum. induction 1 as [|y ys Hy _ IH]; simpl; [lia|].
  rewrite !length_app. specialize (Hy (S level)). fold (more_items level ys).
  lia.
Qed.

Lemma length_more_members (level : nat) (ms : list (string * json)) :
  Forall (fun m => forall level, (size (snd m) <= length (print level (snd m)))%nat)
         ms ->
  (list_sum (map (fun m => S (size (snd m))) ms)
   <= length (more_members level ms))%nat.
Proof.
  unfold list_sum. induction 1 as [|m ms Hm _ IH]; simpl; [lia|].
  rewrite !length_app. specialize (Hm (S level)). fold (more_members level ms).
  cbn [length]. rewrite !length_app. cbn [length]. lia.
Qed.

(** The text of a value is at least as long as the fuel the value needs. *)
Lemma size_le_length_print (v : json) :
  forall level, (size v <= length (print level v))%nat.
Proof.
  induction v as [ |b|n|s|items Hitems|members Hmembers] using json_ind';
    intros level.
  - simpl. lia.
  - destruct b; simpl; lia.
  - destruct (print_int_number_start n) as (c & r & Hc & _).
    cbn [print size]. rewrite Hc. simpl. lia.
  - cbn [print size]. unfold print_string. simpl. lia.
  - destruct items as [|x xs]; [simpl; lia|].
    inversion Hitems as [|? ? Hx Hxs]; subst.
    pose proof (length_more_items level xs Hxs) as Hmore.
    pose proof (Hx (S level)) as Hfirst.
    pose proof (length_newline_indent (S level)) as Hnl.
    cbn [print size map]. fold (more_items level xs).
    unfold list_sum in *. cbn [fold_right length].
    rewrite !length_app. lia.
  - destruct members as [|m ms]; [simpl; lia|].
    inversion Hmembers as [|? ? Hm Hms]; subst.
    pose proof (length_more_members level ms Hms) as Hmore.
    pose proof (Hm (S level)) as Hfirst.
    pose proof (length_newline_indent (S level)) as Hnl.
    cbn [print size map]. fold (more_members level ms).
    unfold list_sum in *. cbn [fold_right length].
    rewrite !length_app. lia.
Qed.

(** [json.loads(json.dumps(v, indent=2)) == v] for every value without a
    repeated dictionary key. *)
Lemma loads_dumps (v : json) :
  well_formed v = true -> loads (dumps v) = Some v.
Proof.
  intros Hwf. unfold loads, dumps.
  rewrite list_ascii_of_string_of_list_ascii.
  pose proof (print_reads_back v (S (length (print 0 v))) 0%nat []) as H.
  rewrite app_nil_r in H. rewrite H; [reflexivity| |exact Hwf|reflexivity].
  pose proof (size_le_length_print v 0%nat). lia.
Qed.

End JsonLoadsDumps.

(** ** The profile store *)

Section ProfileStore.

Import Json ProfileManager.

Variable schema : json -> option string.

Lemma load_profile_written (w : world) (profile_name : string) (profile_data : json) :
  JsonSpec.well_formed profile_data = true ->
  load_profile schema
    {| files := <[get_profile_path profile_name := dumps profile_data]> (files w);
       stdin := stdin w |}
    profile_name
  = (profile_data, None).
Proof.
  intros Hwf. unfold load_profile. cbn [files].
  rewrite lookup_insert_eq, (loads_dumps profile_data Hwf).
  destruct (validate_profile schema profile_data). reflexivity.
Qed.

(** Where the stored document loads to a value other than [None], creating
    a profile of that name fails and changes nothing. *)
Lemma create_new_profile_refuses_loadable (w : world) (profile_name : string)
  (initial_data : option json) :
  is_not_None (fst (load_profile schema w profile_name)) = true ->
  create_new_profile schema w profile_name initial_data
  = Ok (w, (false, "Profile '" +:+ profile_name +:+ "' already exists.")).
Proof. intros H. unfold create_new_profile. rewrite H. reflexivity. Qed.

End ProfileStore.



(** C9 fails on the code when the stored document cannot be read back: the
    existence test at line 66 is [load_profile(name)[0] is not None], and
    [load_profile] returns [None] for a file that is not valid JSON (and for
    the document [null]).  With the file of profile "ada" holding the text
    "{", [create_new_profile("ada", data)] does not fail: it reports success
    and replaces the stored document. *)
Theorem create_new_profile_overwrites_unreadable :
  ProfileManager.files Scenario.unreadable_world !! ProfileManager.get_profile_path "ada"
  = Some "{"
  /\ ProfileManager.load_profile JsonSpec.required_fields_schema
       Scenario.unreadable_world "ada"
     = (Json.JNull, Some "Error: Invalid JSON in profile file.")
  /\ exists w',
       ProfileManager.create_new_profile JsonSpec.required_fields_schema
         Scenario.unreadable_world "ada" (Some Scenario.ada_profile)
       = Ok (w', (true, "Profile 'ada' saved successfully."))
       /\ ProfileManager.files w' !! ProfileManager.get_profile_path "ada"
          = Some (Json.dumps Scenario.ada_profile).
Proof.
  assert (Hfile :
    ProfileManager.files Scenario.unreadable_world !! ProfileManager.get_profile_path "ada"
    = Some "{").
  { unfold Scenario.unreadable_world. cbn [ProfileManager.files]. apply lookup_singleton_eq. }
  assert (Hload :
    ProfileManager.load_profile JsonSpec.required_fields_schema
      Scenario.unreadable_world "ada"
    = (Json.JNull, Some "Error: Invalid JSON in profile file.")).
  { unfold ProfileManager.load_profile. rewrite Hfile. reflexivity. }
  split; [exact Hfile|]. split; [exact Hload|].
  unfold ProfileManager.create_new_profile. rewrite Hload.
  cbn [fst ProfileManager.is_not_None].
  eexists. split; [reflexivity|].
  cbn [ProfileManager.files]. apply lookup_insert_eq.
Qed.

(** * Further properties of the code *)

(** ** Keyword extraction *)

Section Keywords.

Import ResumeTailor.

Lemma char_lower_idempotent (c : ascii) :
  Py.char_lower (Py.char_lower c) = Py.char_lower c.
Proof. destruct c as [[] [] [] [] [] [] [] []]; reflexivity. Qed.

Lemma isspace_char_lower (c : ascii) :
  Py.isspace (Py.char_lower c) = Py.isspace c.
Proof. destruct c as [[] [] [] [] [] [] [] []]; reflexivity. Qed.

Lemma lower_idempotent (s : string) : Py.lower (Py.lower s) = Py.lower s.
Proof.
  induction s as [|c s IH]; simpl; [reflexivity|].
  rewrite char_lower_idempotent, IH. reflexivity.
Qed.

Lemma lower_length (s : string) :
  String.length (Py.lower s) = String.length s.
Proof. induction s as [|c s IH]; simpl; [reflexivity|]. rewrite IH. reflexivity. Qed.

Lemma no_space_lower (s : string) : Spec.no_space (Py.lower s) = Spec.no_space s.
Proof.
  induction s as [|c s IH]; simpl; [reflexivity|].
  rewrite isspace_char_lower, IH. reflexivity.
Qed.

Lemma no_space_snoc (word : string) (c : ascii) :
  Spec.no_space word = true -> Py.isspace c = false ->
  Spec.no_space (word +:+ String c "") = true.
Proof.
  intros Hw Hc. induction word as [|d word IH]; simpl in *.
  - rewrite Hc. reflexivity.
  - apply andb_true_iff in Hw. destruct Hw as [Hd Hw].
    rewrite Hd, (IH Hw). reflexivity.
Qed.

Lemma split_from_words (s word : string) :
  Spec.no_space word = true ->
  Forall (fun w => w <> "" /\ Spec.no_space w = true) (Py.split_from word s).
Proof.
  revert word. induction s as [|c s IH]; intros word Hword; simpl.
  - destruct (String.eqb word "") eqn:E; [constructor|].
    apply String.eqb_neq in E. constructor; [split; assumption | constructor].
  - destruct (Py.isspace c) eqn:Hc.
    + destruct (String.eqb word "") eqn:E.
      * apply IH. reflexivity.
      * apply String.eqb_neq in E. constructor; [split; assumption|].
        apply IH. reflexivity.
    + apply IH, no_space_snoc; assumption.
Qed.

(** Text that ends in a whitespace character and more: the words of both
    parts, in order. *)
Lemma split_from_app (a b word : string) (c : ascii) :
  Py.isspace c = true ->
  Py.split_from word (a +:+ String c b)
  = Py.split_from word a ++ Py.split b.
Proof.
  intros Hc. revert word. induction a as [|d a IH]; intros word; simpl.
  - rewrite Hc. unfold Py.split. destruct (String.eqb word ""); reflexivity.
  - destruct (Py.isspace d).
    + destruct (String.eqb word ""); rewrite IH; reflexivity.
    + apply IH.
Qed.

Lemma extract_app (a b : string) :
  _extract_keywords_from_job_description (a +:+ " " +:+ b)
  = _extract_keywords_from_job_description a
    ++ _extract_keywords_from_job_description b.
Proof.
  unfold _extract_keywords_from_job_description, Py.split.
  change (a +:+ " " +:+ b) with (a +:+ String " "%char b).
  rewrite (split_from_app a b "" " "%char eq_refl).
  rewrite List.filter_app, map_app. reflexivity.
Qed.

End Keywords.

(** X1: every keyword extracted from a job description is a lowercase word of
    more than two characters without white space. *)
Theorem extracted_keywords_are_lowercase_words (job_description k : string) :
  In k (ResumeTailor._extract_keywords_from_job_description job_description) ->
  Py.lower k = k /\ 2 < Py.len k /\ Spec.no_space k = true /\ k <> "".
Proof.
  unfold ResumeTailor._extract_keywords_from_job_description. intros Hin.
  apply in_map_iff in Hin. destruct Hin as (w & <- & Hw).
  apply filter_In in Hw. destruct Hw as [Hw Hlen].
  pose proof (split_from_words job_description "" eq_refl) as Hwords.
  rewrite List.Forall_forall in Hwords. destruct (Hwords w Hw) as [_ Hspace].
  apply Z.gtb_lt in Hlen.
  assert (Hlen' : 2 < Py.len (Py.lower w)).
  { unfold Py.len in *. rewrite lower_length. exact Hlen. }
  split; [apply lower_idempotent|]. split; [exact Hlen'|].
  split; [rewrite no_space_lower; exact Hspace|].
  intros Hempty. rewrite Hempty in Hlen'. unfold Py.len in Hlen'. simpl in Hlen'.
  lia.
Qed.

Lemma extracted_keywords_are_lowercase_words_witness :
  In "python" (ResumeTailor._extract_keywords_from_job_description
                 Scenario.job_description)
  /\ Py.lower "python" = "python" /\ 2 < Py.len "python".
Proof.
  assert (Hin : In "python" (ResumeTailor._extract_keywords_from_job_description
                              Scenario.job_description)).
  { vm_compute. right. left. reflexivity. }
  destruct (extracted_keywords_are_lowercase_words Scenario.job_description
              "python" Hin) as (Hlower & Hlen & _).
  split; [exact Hin|]. split; [exact Hlower | exact Hlen].
Defined.

(** ** Fit score and categories *)

Section FitScore.

Import JobDatabase.

Lemma sum_scores_acc {A : Type} (f : A -> Z) (xs : list A) (acc : Z) :
  sum_scores f xs acc = acc + sum_scores f xs 0.
Proof.
  unfold sum_scores. revert acc. induction xs as [|x xs IH]; intros acc; simpl.
  - lia.
  - rewrite (IH (acc + f x)), (IH (0 + f x)). lia.
Qed.

Lemma sum_scores_cons {A : Type} (f : A -> Z) (x : A) (xs : list A) :
  sum_scores f (x :: xs) 0 = f x + sum_scores f xs 0.
Proof.
  change (sum_scores f (x :: xs) 0) with (sum_scores f xs (0 + f x)).
  rewrite sum_scores_acc. lia.
Qed.

Lemma sum_scores_plus {A : Type} (f g h : A -> Z) (xs : list A) :
  (forall x, h x = f x + g x) ->
  sum_scores h xs 0 = sum_scores f xs 0 + sum_scores g xs 0.
Proof.
  intros Hh. induction xs as [|x xs IH]; [reflexivity|].
  rewrite !sum_scores_cons, IH, Hh. lia.
Qed.

Lemma sum_scores_nonneg {A : Type} (f : A -> Z) (xs : list A) :
  (forall x, 0 <= f x) -> 0 <= sum_scores f xs 0.
Proof.
  intros Hf. induction xs as [|x xs IH]; [reflexivity|].
  rewrite sum_scores_cons. specialize (Hf x). lia.
Qed.

Lemma profile_score_sections (p : ResumeTailor.profile) (K : list string) :
  profile_score p K
  = sum_scores (fun cs => ResumeTailor._calculate_keyword_score (snd cs) K)
               (ResumeTailor.skills p) 0
    + sum_scores (fun exp =>
                    ResumeTailor._calculate_keyword_score
                      (ResumeTailor.get_list (ResumeTailor.description exp)
                       ++ ResumeTailor.get_list (ResumeTailor.technologies exp)) K)
                 (ResumeTailor.work_experience p) 0
    + sum_scores (fun proj =>
                    ResumeTailor._calculate_keyword_score
                      (ResumeTailor.get_list (ResumeTailor.p_description proj)
                       ++ ResumeTailor.get_list (ResumeTailor.p_technologies proj)) K)
                 (ResumeTailor.projects p) 0.
Proof.
  unfold profile_score. cbv zeta.
  rewrite sum_scores_acc. rewrite (sum_scores_acc _ (ResumeTailor.work_experience p)).
  lia.
Qed.

Lemma profile_score_app (p : ResumeTailor.profile) (K1 K2 : list string) :
  profile_score p (K1 ++ K2) = profile_score p K1 + profile_score p K2.
Proof.
  rewrite !profile_score_sections.
  rewrite (sum_scores_plus
             (fun cs => ResumeTailor._calculate_keyword_score (snd cs) K1)
             (fun cs => ResumeTailor._calculate_keyword_score (snd cs) K2))
    by (intros; apply score_app).
  rewrite (sum_scores_plus
             (fun exp => ResumeTailor._calculate_keyword_score
                (ResumeTailor.get_list (ResumeTailor.description exp)
                 ++ ResumeTailor.get_list (ResumeTailor.technologies exp)) K1)
             (fun exp => ResumeTailor._calculate_keyword_score
                (ResumeTailor.get_list (ResumeTailor.description exp)
                 ++ ResumeTailor.get_list (ResumeTailor.technologies exp)) K2))
    by (intros; apply score_app).
  rewrite (sum_scores_plus
             (fun proj => ResumeTailor._calculate_keyword_score
                (ResumeTailor.get_list (ResumeTailor.p_description proj)
                 ++ ResumeTailor.get_list (ResumeTailor.p_technologies proj)) K1)
             (fun proj => ResumeTailor._calculate_keyword_score
                (ResumeTailor.get_list (ResumeTailor.p_description proj)
                 ++ ResumeTailor.get_list (ResumeTailor.p_technologies proj)) K2))
    by (intros; apply score_app).
  lia.
Qed.

Lemma profile_score_nonneg (p : ResumeTailor.profile) (K : list string) :
  0 <= profile_score p K.
Proof.
  rewrite profile_score_sections.
  pose proof (sum_scores_nonneg
    (fun cs => ResumeTailor._calculate_keyword_score (snd cs) K)
    (ResumeTailor.skills p) (fun cs => score_nonneg _ K)).
  pose proof (sum_scores_nonneg
    (fun exp => ResumeTailor._calculate_keyword_score
       (ResumeTailor.get_list (ResumeTailor.description exp)
        ++ ResumeTailor.get_list (ResumeTailor.technologies exp)) K)
    (ResumeTailor.work_experience p) (fun exp => score_nonneg _ K)).
  pose proof (sum_scores_nonneg
    (fun proj => ResumeTailor._calculate_keyword_score
       (ResumeTailor.get_list (ResumeTailor.p_description proj)
        ++ ResumeTailor.get_list (ResumeTailor.p_technologies proj)) K)
    (ResumeTailor.projects p) (fun proj => score_nonneg _ K)).
  lia.
Qed.

Lemma extract_empty :
  ResumeTailor._extract_keywords_from_job_description "" = [].
Proof. reflexivity. Qed.

Lemma truthy_getitem (field : option string) :
  truthy field = false ->
  ResumeTailor._extract_keywords_from_job_description (getitem field "") = [].
Proof.
  destruct field as [v|]; simpl; [|reflexivity].
  intros H. apply negb_false_iff, String.eqb_eq in H. subst v. reflexivity.
Qed.

Lemma job_keywords_of_parts (job : job_dict) :
  job_keywords_of job
  = ResumeTailor._extract_keywords_from_job_description (getitem (j_role job) "")
    ++ ResumeTailor._extract_keywords_from_job_description
         (getitem (j_company job) "").
Proof.
  unfold job_keywords_of.
  destruct (truthy (j_role job)) eqn:Hr, (truthy (j_company job)) eqn:Hc;
    cbn [app Py.join String.concat].
  - apply extract_app.
  - rewrite (truthy_getitem _ Hc), app_nil_r. reflexivity.
  - rewrite (truthy_getitem _ Hr). reflexivity.
  - rewrite (truthy_getitem _ Hr), (truthy_getitem _ Hc). reflexivity.
Qed.

End FitScore.

(** X2: the fit score [categorize_jobs] gives a job is the profile's score
    against the keywords of the job's role plus its score against the
    keywords of the job's company (an absent or empty field has no keyword);
    it is never negative. *)
Theorem categorize_job_score_is_role_plus_company (p : ResumeTailor.profile)
  (high_threshold medium_threshold : Z) (job : JobDatabase.job_dict) :
  let role_keywords :=
    ResumeTailor._extract_keywords_from_job_description
      (JobDatabase.getitem (JobDatabase.j_role job) "") in
  let company_keywords :=
    ResumeTailor._extract_keywords_from_job_description
      (JobDatabase.getitem (JobDatabase.j_company job) "") in
  JobDatabase.j_fit_score
    (JobDatabase.categorize_job p high_threshold medium_threshold job)
  = Some (JobDatabase.profile_score p role_keywords
          + JobDatabase.profile_score p company_keywords)
  /\ 0 <= JobDatabase.profile_score p role_keywords
          + JobDatabase.profile_score p company_keywords.
Proof.
  intros role_keywords company_keywords. split.
  - unfold JobDatabase.categorize_job. cbn [JobDatabase.j_fit_score].
    rewrite job_keywords_of_parts, profile_score_app. reflexivity.
  - pose proof (profile_score_nonneg p role_keywords).
    pose proof (profile_score_nonneg p company_keywords). lia.
Qed.

(** X3: categorization is monotonic for any thresholds: a higher score never
    gets a lower category (Low Fit below Medium Fit below High Fit). *)
Theorem fit_category_monotonic (s1 s2 high_threshold medium_threshold : Z) :
  s1 <= s2 ->
  Spec.fit_rank (JobDatabase.fit_category_for s1 high_threshold medium_threshold)
  <= Spec.fit_rank (JobDatabase.fit_category_for s2 high_threshold medium_threshold).
Proof.
  intros Hle. unfold JobDatabase.fit_category_for.
  destruct (s1 >=? high_threshold) eqn:H1, (s2 >=? high_threshold) eqn:H2,
    (s1 >=? medium_threshold) eqn:M1, (s2 >=? medium_threshold) eqn:M2;
    rewrite ?Z.geb_leb, ?Z.leb_le, ?Z.leb_gt in *;
    try (vm_compute; discriminate); lia.
Qed.

Lemma fit_category_monotonic_witness :
  3 <= 6
  /\ Spec.fit_rank (JobDatabase.fit_category_for 3 5 2)
     <= Spec.fit_rank (JobDatabase.fit_category_for 6 5 2).
Proof.
  assert (H : 3 <= 6) by lia.
  split; [exact H | exact (fit_category_monotonic 3 6 5 2 H)].
Defined.

(** X4: [categorize_jobs] assigns only [fit_score] and [fit_category]: every
    other key of every job is returned as it was, in the same order, and
    categorizing the result again changes nothing. *)
Theorem categorize_jobs_keeps_other_fields
  (load_profile : string -> option ResumeTailor.profile * option string)
  (jobs_list : list JobDatabase.job_dict) (profile_name : string)
  (high_threshold medium_threshold : option Z) (p : ResumeTailor.profile) :
  JobDatabase.ResumeTailor_init load_profile profile_name = Ok p ->
  Forall2 Spec.same_but_fit jobs_list
          (JobDatabase.categorize_jobs load_profile jobs_list profile_name
                                       high_threshold medium_threshold)
  /\ JobDatabase.categorize_jobs load_profile
       (JobDatabase.categorize_jobs load_profile jobs_list profile_name
                                    high_threshold medium_threshold)
       profile_name high_threshold medium_threshold
     = JobDatabase.categorize_jobs load_profile jobs_list profile_name
                                   high_threshold medium_threshold.
Proof.
  intros Hp. unfold JobDatabase.categorize_jobs. rewrite Hp. split.
  - induction jobs_list as [|job rest IH]; simpl; constructor; [|exact IH].
    unfold Spec.same_but_fit. simpl. repeat split.
  - rewrite map_map. apply map_ext. intros job. reflexivity.
Qed.

Lemma categorize_jobs_keeps_other_fields_witness :
  Forall2 Spec.same_but_fit [Scenario.engineer_job]
          (JobDatabase.categorize_jobs Scenario.always_python
             [Scenario.engineer_job] "ada" None None).
Proof.
  exact (proj1 (categorize_jobs_keeps_other_fields Scenario.always_python
                  [Scenario.engineer_job] "ada" None None
                  Scenario.python_profile eq_refl)).
Defined.

(** X5: when the profile does not load ([load_profile] reports an error, or
    returns no data), [categorize_jobs] returns the empty list whatever the
    jobs, and [insert_jobs] on that result stores nothing and returns 0. *)
Theorem categorize_jobs_without_profile
  (load_profile : string -> option ResumeTailor.profile * option string)
  (json_dumps : JobDatabase.job_dict -> string)
  (jobs_list : list JobDatabase.job_dict) (profile_name : string)
  (high_threshold medium_threshold : option Z) (d : JobDatabase.db) :
  JobDatabase.truthy (snd (load_profile profile_name)) = true
  \/ fst (load_profile profile_name) = None ->
  JobDatabase.categorize_jobs load_profile jobs_list profile_name
                              high_threshold medium_threshold = []
  /\ JobDatabase.insert_jobs json_dumps
       (JobDatabase.categorize_jobs load_profile jobs_list profile_name
                                    high_threshold medium_threshold)
       d []
     = Ok ([], d, 0).
Proof.
  intros H.
  assert (Hnone :
    JobDatabase.categorize_jobs load_profile jobs_list profile_name
                                high_threshold medium_threshold = []).
  { unfold JobDatabase.categorize_jobs, JobDatabase.ResumeTailor_init.
    destruct (load_profile profile_name) as [data error]. simpl in H.
    destruct (JobDatabase.truthy error); [reflexivity|].
    destruct H as [H|H]; [discriminate H|]. rewrite H. reflexivity. }
  split; [exact Hnone|]. rewrite Hnone. reflexivity.
Qed.

Lemma categorize_jobs_without_profile_witness :
  JobDatabase.categorize_jobs (fun _ => (None, Some "Profile not found."))
    [Scenario.engineer_job] "nobody" None None = [].
Proof.
  exact (proj1 (categorize_jobs_without_profile
                  (fun _ => (None, Some "Profile not found."))
                  (fun _ => "{}") [Scenario.engineer_job] "nobody" None None
                  JobDatabase.empty_db (or_introl eq_refl))).
Defined.

(** ** Tailoring: what is kept, and in which order *)

Section Selection.

Import ResumeTailor.

Context {A : Type} (text : A -> list string) (job_keywords : list string)
  (limit : Z).

(** The entries with their scores, and the selection both tailoring steps
    make from them. *)
Lemma select_sub_permutation (f : Z * A -> bool) (l : list (Z * A)) :
  Permutation (map snd (List.filter f l)
               ++ map snd (List.filter (fun se => negb (f se)) l))
              (map snd l).
Proof.
  induction l as [|se l IH]; simpl; [reflexivity|].
  destruct (f se); simpl.
  - apply perm_skip, IH.
  - rewrite <- Permutation_middle. apply perm_skip, IH.
Qed.

Lemma sort_reverse_sorted (key : A -> Z) (l : list A) :
  Spec.descending key l -> sort_reverse key l = l.
Proof.
  unfold Spec.descending. induction 1 as [|x l Hl IH Hx]; simpl; [reflexivity|].
  rewrite IH. destruct l as [|y l']; simpl; [reflexivity|].
  inversion Hx as [|? ? Hy _]; subst.
  destruct (key x <? key y) eqn:E; [|reflexivity].
  apply Z.ltb_lt in E. lia.
Qed.

Lemma map_snd_scored (score : A -> Z) (l : list A) :
  map snd (map (fun x => (score x, x)) l) = l.
Proof. rewrite map_map. simpl. apply map_id. Qed.

Lemma filter_scored (score : A -> Z) (f : Z * A -> bool) (l : list A) :
  map snd (List.filter f (map (fun x => (score x, x)) l))
  = List.filter (fun x => f (score x, x)) l.
Proof.
  induction l as [|x l IH]; simpl; [reflexivity|].
  destruct (f (score x, x)); simpl; rewrite IH; reflexivity.
Qed.

Lemma filter_all {B : Type} (f : B -> bool) (l : list B) :
  (forall x, In x l -> f x = true) -> List.filter f l = l.
Proof.
  induction l as [|x l IH]; intros H; simpl; [reflexivity|].
  rewrite (H x (or_introl eq_refl)), IH; [reflexivity|].
  intros y Hy. apply H. now right.
Qed.

Lemma descending_all_zero (score : A -> Z) (l : list A) :
  (forall x, In x l -> score x = 0) ->
  Spec.descending fst (map (fun x => (score x, x)) l).
Proof.
  unfold Spec.descending. induction l as [|x l IH]; intros H; simpl.
  - constructor.
  - constructor.
    + apply IH. intros y Hy. apply H. now right.
    + apply List.Forall_forall. intros se Hse. apply in_map_iff in Hse.
      destruct Hse as (y & <- & Hy). simpl.
      rewrite (H x (or_introl eq_refl)), (H y (or_intror Hy)). lia.
Qed.

End Selection.

Section TailoredLists.

Import ResumeTailor.

Lemma tailor_work_experience_kept (exps : list work_experience_entry)
  (job_keywords : list string) :
  tailor_work_experience exps job_keywords
  = map snd (List.filter (Spec.kept exps 3)
               (sort_reverse fst (score_experiences exps job_keywords))).
Proof.
  unfold tailor_work_experience. cbv zeta.
  rewrite (filter_kept_eq exps); [reflexivity|].
  rewrite sort_reverse_length. apply length_map.
Qed.

Lemma tailor_projects_kept (projs : list project_entry)
  (job_keywords : list string) :
  tailor_projects projs job_keywords
  = map snd (List.filter (Spec.kept projs 2)
               (sort_reverse fst (Spec.score_projects projs job_keywords))).
Proof.
  unfold tailor_projects. fold (Spec.score_projects projs job_keywords).
  cbv zeta. rewrite (filter_kept_eq projs); [reflexivity|].
  rewrite sort_reverse_length. apply length_map.
Qed.

End TailoredLists.

(** X6: the tailored projects list is obtained like the work experience,
    with a limit of 2: the projects, each paired with the number of keywords
    that occur in its name, description and technologies, are stable-sorted
    by score, highest first, and a project is kept exactly when its score is
    > 0 or the original list has 2 or fewer projects.  In particular 3 or
    more projects none of which matches a keyword tailor to the empty list. *)
Theorem tailor_projects_sorted_and_filtered
  (projs : list ResumeTailor.project_entry) (job_keywords : list string) :
  let scored := Spec.scored_projects projs job_keywords in
  let tailored := ResumeTailor.tailor_projects projs job_keywords in
  (exists sorted,
      Permutation scored sorted
      /\ Spec.descending fst sorted
      /\ (forall s, List.filter (Spec.has_key fst s) sorted
                    = List.filter (Spec.has_key fst s) scored)
      /\ tailored = map snd (List.filter (Spec.kept projs 2) sorted))
  /\ ((2 < length projs)%nat ->
      (forall proj, In proj projs ->
         Spec.count_in_joined (Spec.project_fragments proj) job_keywords = 0) ->
      tailored = []).
Proof.
  intros scored tailored.
  assert (Htailored :
    tailored = map snd (List.filter (Spec.kept projs 2)
                                    (ResumeTailor.sort_reverse fst scored))).
  { unfold tailored. rewrite tailor_projects_kept. unfold Spec.score_projects.
    rewrite score_projects_scored_projects. reflexivity. }
  split.
  - exists (ResumeTailor.sort_reverse fst scored).
    split; [apply sort_reverse_perm|].
    split; [apply sort_reverse_descending|].
    split; [intros s; apply sort_reverse_stable | exact Htailored].
  - intros Hlong Hzero. rewrite Htailored.
    rewrite filter_none; [reflexivity|].
    intros [s proj] Hin. unfold Spec.kept. simpl.
    apply (Permutation_in _ (Permutation_sym (sort_reverse_perm fst _))) in Hin.
    unfold scored, Spec.scored_projects in Hin.
    apply in_map_iff in Hin. destruct Hin as (proj' & Heq & Hin').
    inversion Heq; subst s proj'. rewrite (Hzero proj Hin').
    apply orb_false_intro; [reflexivity|]. apply Z.leb_gt. lia.
Qed.

Lemma tailor_projects_sorted_and_filtered_witness :
  ResumeTailor.tailor_projects
    [Scenario.project_named "Loom"; Scenario.project_named "Kiln";
     Scenario.project_named "Anvil"]
    ["python"] = [].
Proof.
  destruct (tailor_projects_sorted_and_filtered
              [Scenario.project_named "Loom"; Scenario.project_named "Kiln";
               Scenario.project_named "Anvil"] ["python"]) as (_ & Hempty).
  apply Hempty.
  - simpl. lia.
  - intros proj [<-|[<-|[<-|[]]]]; reflexivity.
Defined.

(** X7: tailoring the work experience never invents or repeats an entry (the
    tailored list together with the dropped entries is a rearrangement of
    the original list), keeps every entry whose score is > 0, and keeps all
    entries when the original list has 3 or fewer. *)
Theorem tailor_work_experience_selection
  (exps : list ResumeTailor.work_experience_entry) (job_keywords : list string) :
  let tailored := ResumeTailor.tailor_work_experience exps job_keywords in
  (exists dropped, Permutation (tailored ++ dropped) exps)
  /\ (forall exp, In exp exps ->
        0 < ResumeTailor._calculate_keyword_score (ResumeTailor.exp_text exp)
                                                  job_keywords ->
        In exp tailored)
  /\ ((length exps <= 3)%nat -> Permutation tailored exps).
Proof.
  intros tailored. unfold tailored. rewrite tailor_work_experience_kept.
  set (scored := ResumeTailor.score_experiences exps job_keywords).
  assert (Hsnd : Permutation (map snd (ResumeTailor.sort_reverse fst scored)) exps).
  { rewrite <- (sort_reverse_perm fst scored). unfold scored,
      ResumeTailor.score_experiences. rewrite map_snd_scored. reflexivity. }
  split; [|split].
  - eexists. rewrite select_sub_permutation. exact Hsnd.
  - intros exp Hin Hpos. apply in_map_iff.
    exists (ResumeTailor._calculate_keyword_score (ResumeTailor.exp_text exp)
                                                  job_keywords, exp).
    split; [reflexivity|]. apply filter_In. split.
    + apply (Permutation_in _ (sort_reverse_perm fst scored)).
      unfold scored, ResumeTailor.score_experiences.
      apply in_map_iff. exists exp. split; [reflexivity | exact Hin].
    + unfold Spec.kept. simpl. apply orb_true_iff. left. apply Z.ltb_lt, Hpos.
  - intros Hshort. rewrite filter_all; [exact Hsnd|].
    intros se _. unfold Spec.kept. apply orb_true_iff. right.
    apply Z.leb_le. lia.
Qed.

Lemma tailor_work_experience_selection_witness :
  In (Scenario.job_as "Driver" "Wheel")
     (ResumeTailor.tailor_work_experience
        (ResumeTailor.work_experience Scenario.four_unrelated_jobs) ["wheel"]).
Proof.
  destruct (tailor_work_experience_selection
              (ResumeTailor.work_experience Scenario.four_unrelated_jobs)
              ["wheel"]) as (_ & Hkept & _).
  apply Hkept.
  - simpl. right. right. left. reflexivity.
  - vm_compute. reflexivity.
Defined.

(** X8: when the scores of the work-experience entries do not increase along
    the original list, tailoring keeps the original order: the tailored list
    is the original list without the entries that are not kept. *)
Theorem tailor_work_experience_keeps_sorted_order
  (exps : list ResumeTailor.work_experience_entry) (job_keywords : list string) :
  Spec.descending fst (ResumeTailor.score_experiences exps job_keywords) ->
  ResumeTailor.tailor_work_experience exps job_keywords
  = List.filter
      (fun exp =>
         Spec.kept exps 3
           (ResumeTailor._calculate_keyword_score (ResumeTailor.exp_text exp)
                                                  job_keywords, exp))
      exps.
Proof.
  intros Hsorted. rewrite tailor_work_experience_kept.
  rewrite (sort_reverse_sorted fst _ Hsorted).
  unfold ResumeTailor.score_experiences. apply filter_scored.
Qed.

Lemma tailor_work_experience_keeps_sorted_order_witness :
  ResumeTailor.tailor_work_experience
    [Scenario.job_as "Engineer" "Python works"; Scenario.job_as "Baker" "Crumb"]
    ["python"; "engineer"]
  = [Scenario.job_as "Engineer" "Python works"; Scenario.job_as "Baker" "Crumb"].
Proof.
  rewrite tailor_work_experience_keeps_sorted_order; [reflexivity|].
  unfold Spec.descending. simpl.
  repeat constructor; vm_compute; discriminate.
Defined.

(** X9: a job description without a word of more than two characters has no
    keyword, and then nothing matches: the work experience is returned
    unchanged when it has 3 or fewer entries and empty otherwise, and the
    projects unchanged when there are 2 or fewer and empty otherwise. *)
Theorem tailoring_without_keywords
  (exps : list ResumeTailor.work_experience_entry)
  (projs : list ResumeTailor.project_entry) (job_description : string) :
  ResumeTailor._extract_keywords_from_job_description job_description = [] ->
  ResumeTailor.tailor_work_experience exps
    (ResumeTailor._extract_keywords_from_job_description job_description)
  = (if (length exps <=? 3)%nat then exps else [])
  /\ ResumeTailor.tailor_projects projs
       (ResumeTailor._extract_keywords_from_job_description job_description)
     = (if (length projs <=? 2)%nat then projs else []).
Proof.
  intros ->. split.
  - rewrite tailor_work_experience_kept.
    rewrite (sort_reverse_sorted fst);
      [|apply descending_all_zero; intros; reflexivity].
    unfold ResumeTailor.score_experiences. rewrite filter_scored.
    destruct (length exps <=? 3)%nat eqn:E.
    + apply Nat.leb_le in E. apply filter_all. intros exp _.
      unfold Spec.kept. apply orb_true_iff. right. apply Z.leb_le. lia.
    + apply Nat.leb_gt in E. apply filter_none. intros exp _.
      unfold Spec.kept. simpl. apply Z.leb_gt. lia.
  - rewrite tailor_projects_kept.
    rewrite (sort_reverse_sorted fst);
      [|apply descending_all_zero; intros; reflexivity].
    unfold Spec.score_projects. rewrite filter_scored.
    destruct (length projs <=? 2)%nat eqn:E.
    + apply Nat.leb_le in E. apply filter_all. intros proj _.
      unfold Spec.kept. apply orb_true_iff. right. apply Z.leb_le. lia.
    + apply Nat.leb_gt in E. apply filter_none. intros proj _.
      unfold Spec.kept. simpl. apply Z.leb_gt. lia.
Qed.

Lemma tailoring_without_keywords_witness :
  ResumeTailor._extract_keywords_from_job_description "QA at HP" = []
  /\ ResumeTailor.tailor_work_experience
       (ResumeTailor.work_experience Scenario.four_unrelated_jobs)
       (ResumeTailor._extract_keywords_from_job_description "QA at HP") = [].
Proof.
  assert (H : ResumeTailor._extract_keywords_from_job_description "QA at HP" = [])
    by reflexivity.
  split; [exact H|].
  exact (proj1 (tailoring_without_keywords
                  (ResumeTailor.work_experience Scenario.four_unrelated_jobs)
                  [] "QA at HP" H)).
Defined.

Lemma tailor_resume_returns (p : ResumeTailor.profile) (job_description : string)
  (r : ResumeTailor.tailored_resume_t) :
  ResumeTailor.tailor_resume p job_description = Ok r ->
  ResumeTailor.t_personal_info r = ResumeTailor.personal_info p
  /\ ResumeTailor.t_education r = ResumeTailor.education p
  /\ ResumeTailor.t_projects r
     = ResumeTailor.tailor_projects (ResumeTailor.projects p)
         (ResumeTailor._extract_keywords_from_job_description job_description)
  /\ ResumeTailor.t_skills r = [].
Proof.
  unfold ResumeTailor.tailor_resume. intros Hr.
  destruct (skills_empty_or_not (ResumeTailor.skills p)) as [HE|HF].
  - destruct (tailor_skills_some_skill _
                (ResumeTailor._extract_keywords_from_job_description job_description)
                [] HE) as [msg Hmsg].
    rewrite Hmsg in Hr. discriminate Hr.
  - rewrite (tailor_skills_no_skill _ _ [] HF) in Hr. simpl in Hr.
    inversion Hr; subst r. repeat split.
Qed.

(** X10: whenever [tailor_resume] returns, the result carries the profile's
    personal information and education unchanged and the tailored projects,
    and its skills dictionary is empty: no skills category of the profile,
    not even its name, reaches the tailored resume. *)
Theorem tailor_resume_result (p : ResumeTailor.profile) (job_description : string)
  (r : ResumeTailor.tailored_resume_t) :
  ResumeTailor.tailor_resume p job_description = Ok r ->
  ResumeTailor.t_personal_info r = ResumeTailor.personal_info p
  /\ ResumeTailor.t_education r = ResumeTailor.education p
  /\ ResumeTailor.t_projects r
     = ResumeTailor.tailor_projects (ResumeTailor.projects p)
         (ResumeTailor._extract_keywords_from_job_description job_description)
  /\ ResumeTailor.t_skills r = [].
Proof. apply tailor_resume_returns. Qed.

Lemma tailor_resume_result_witness :
  exists r,
    ResumeTailor.tailor_resume Scenario.four_unrelated_jobs
                               Scenario.job_description = Ok r
    /\ ResumeTailor.t_skills r = []
    /\ ResumeTailor.t_personal_info r = Scenario.someone.
Proof.
  eexists. split; [reflexivity|].
  destruct (tailor_resume_result Scenario.four_unrelated_jobs
              Scenario.job_description _ eq_refl) as (Hinfo & _ & _ & Hskills).
  split; [exact Hskills | exact Hinfo].
Defined.

Lemma append_assoc (a b c : string) : (a +:+ b) +:+ c = a +:+ b +:+ c.
Proof.
  induction a as [|x a IH]; [reflexivity|].
  change (String x ((a +:+ b) +:+ c) = String x (a +:+ b +:+ c)).
  rewrite IH. reflexivity.
Qed.

Lemma ends_with_append (a rest tail : string) :
  (exists b, rest = b +:+ tail) -> exists b, a +:+ rest = b +:+ tail.
Proof.
  intros [b ->]. exists (a +:+ b). symmetry. apply append_assoc.
Qed.

(** X11: the Markdown of a resume that [tailor_resume] returned ends with an
    empty Skills section: the heading "## Skills" and a blank line. *)
Theorem format_to_markdown_of_tailored_has_no_skills (p : ResumeTailor.profile)
  (job_description : string) (r : ResumeTailor.tailored_resume_t) :
  ResumeTailor.tailor_resume p job_description = Ok r ->
  exists before,
    ResumeTailor.format_to_markdown r
    = before +:+ "## Skills" +:+ Py.nl +:+ Py.nl.
Proof.
  intros Hr.
  destruct (tailor_resume_returns p job_description r Hr) as (_ & _ & _ & Hskills).
  unfold ResumeTailor.format_to_markdown. rewrite Hskills.
  cbn [map String.concat].
  do 27 apply ends_with_append. exists "". reflexivity.
Qed.

Lemma format_to_markdown_of_tailored_has_no_skills_witness :
  exists r before,
    ResumeTailor.tailor_resume Scenario.four_unrelated_jobs
                               Scenario.job_description = Ok r
    /\ ResumeTailor.format_to_markdown r
       = before +:+ "## Skills" +:+ Py.nl +:+ Py.nl.
Proof.
  destruct (format_to_markdown_of_tailored_has_no_skills
              Scenario.four_unrelated_jobs Scenario.job_description _ eq_refl)
    as [before Hbefore].
  eexists _, before. split; [reflexivity | exact Hbefore].
Defined.

(** ** The jobs table: keys, lookups and listings *)

Section JobsTable.

Import JobDatabase.

Variable json_dumps : job_dict -> string.

Lemma find_app_none {A : Type} (f : A -> bool) (l l' : list A) :
  find f l = None -> find f (l ++ l') = find f l'.
Proof.
  induction l as [|x l IH]; simpl; [reflexivity|].
  destruct (f x); [discriminate | exact IH].
Qed.

Lemma find_app_some {A : Type} (f : A -> bool) (l l' : list A) (x : A) :
  find f l = Some x -> find f (l ++ l') = Some x.
Proof.
  induction l as [|y l IH]; simpl; [discriminate|].
  destruct (f y); [trivial | exact IH].
Qed.

Lemma find_id_above (d : db) (job_id : Z) :
  Spec.ids_in_order d -> sqlite_sequence d < job_id ->
  find (fun row => id row =? job_id) (rows d) = None.
Proof.
  intros [_ Hle] Hlt. induction Hle as [|row rest Hrow _ IH]; simpl.
  - reflexivity.
  - destruct (id row =? job_id) eqn:E; [apply Z.eqb_eq in E; lia | exact IH].
Qed.

Lemma ids_in_order_insert (d : db) (row : job_row) :
  Spec.ids_in_order d -> id row = sqlite_sequence d + 1 ->
  Spec.ids_in_order
    {| rows := rows d ++ [row]; sqlite_sequence := sqlite_sequence d + 1 |}.
Proof.
  intros [Hnodup Hle] Hid. unfold Spec.ids_in_order. cbn [rows sqlite_sequence].
  split.
  - rewrite map_app. simpl. apply NoDup_app. split; [exact Hnodup|].
    split; [|apply NoDup_singleton].
    intros k Hk Hnew. apply list_elem_of_singleton in Hnew. subst k.
    apply list_elem_of_In, in_map_iff in Hk. destruct Hk as (row' & Heq & Hin).
    rewrite List.Forall_forall in Hle. specialize (Hle row' Hin). lia.
  - apply Forall_app. split.
    + eapply Forall_impl; [exact Hle|]. simpl. intros r Hr. lia.
    + constructor; [lia | constructor].
Qed.

Lemma ids_in_order_insert_jobs_loop (jobs_list : list nat) :
  forall (h : heap) (d : db) (n : Z) (h' : heap) (d' : db) (n' : Z),
    Spec.ids_in_order d ->
    insert_jobs_loop json_dumps jobs_list h d n = Ok (h', d', n') ->
    Spec.ids_in_order d'.
Proof.
  induction jobs_list as [|r rest IH]; intros h d n h' d' n' Hd;
    cbn [insert_jobs_loop].
  - intros H. inversion H; subst. exact Hd.
  - destruct (h !! r) as [job_data|]; [|apply IH, Hd].
    destruct (select_id_where_link_role d (j_link job_data) (j_role job_data));
      [apply IH, Hd|].
    destruct (insert_job json_dumps d job_data) as [[[job1 d1] rowid]|e] eqn:Hins;
      cbn [bind]; [|discriminate].
    destruct (insert_job_ok _ _ _ _ _ _ Hins) as (_ & _ & row & -> & Hid & _).
    apply IH, ids_in_order_insert; assumption.
Qed.

(** What one call of [insert_jobs] does to the store, whatever the
    dictionaries: it appends, and counts what it appends. *)
Lemma insert_jobs_loop_appends (jobs_list : list nat) :
  forall (h : heap) (d : db) (n : Z) (h' : heap) (d' : db) (n' : Z),
    insert_jobs_loop json_dumps jobs_list h d n = Ok (h', d', n') ->
    exists added,
      rows d' = rows d ++ added
      /\ Z.of_nat (length added) = n' - n
      /\ sqlite_sequence d' = sqlite_sequence d + (n' - n)
      /\ length h' = length h.
Proof.
  induction jobs_list as [|r rest IH]; intros h d n h' d' n';
    cbn [insert_jobs_loop].
  - intros H. inversion H; subst. exists []. rewrite app_nil_r.
    repeat split; simpl; lia.
  - destruct (h !! r) as [job_data|]; [|apply IH].
    destruct (select_id_where_link_role d (j_link job_data) (j_role job_data));
      [apply IH|].
    destruct (insert_job json_dumps d job_data) as [[[job1 d1] rowid]|e] eqn:Hins;
      cbn [bind]; [|discriminate].
    destruct (insert_job_ok _ _ _ _ _ _ Hins) as (_ & _ & row & -> & _).
    intros Hloop. destruct (IH _ _ _ _ _ _ Hloop) as (added & Hrows & Hlen & Hseq & Hheap).
    cbn [rows sqlite_sequence] in Hrows, Hseq.
    exists (row :: added). rewrite Hrows, <- app_assoc. simpl.
    unfold heap in *. rewrite length_insert in Hheap.
    repeat split; [|lia|exact Hheap]. lia.
Qed.

(** The only exception of [insert_jobs] is the one of the binding. *)
Lemma insert_jobs_loop_raises (jobs_list : list nat) :
  forall (h : heap) (d : db) (n : Z) (e : exn),
    insert_jobs_loop json_dumps jobs_list h d n = Raise e ->
    exists msg, e = OverflowError msg.
Proof.
  induction jobs_list as [|r rest IH]; intros h d n e; cbn [insert_jobs_loop].
  - discriminate.
  - destruct (h !! r) as [job_data|]; [|apply IH].
    destruct (select_id_where_link_role d (j_link job_data) (j_role job_data));
      [apply IH|].
    destruct (bind_int_cases (getitem (j_fit_score job_data) (-1)))
      as [[Hbinds _]|[Hno _]].
    + destruct (insert_job_binds json_dumps d job_data Hbinds) as (job1 & d1 & ->).
      cbn [bind]. apply IH.
    + destruct (insert_job_overflow json_dumps d job_data Hno) as [msg ->].
      cbn [bind]. intros H. inversion H. eauto.
Qed.

(** [insert_jobs] returns when every score in the heap can be bound. *)
Lemma insert_jobs_loop_returns (jobs_list : list nat) :
  forall (h : heap) (d : db) (n : Z),
    Forall Spec.binds_fit_score h ->
    exists h' d' n', insert_jobs_loop json_dumps jobs_list h d n = Ok (h', d', n').
Proof.
  induction jobs_list as [|r rest IH]; intros h d n Hh; cbn [insert_jobs_loop].
  - eauto.
  - destruct (h !! r) as [job_data|] eqn:Hjob; [|apply IH, Hh].
    destruct (select_id_where_link_role d (j_link job_data) (j_role job_data));
      [apply IH, Hh|].
    assert (Hbinds : Spec.binds (getitem (j_fit_score job_data) (-1))).
    { pose proof (Forall_lookup_1 _ _ _ _ Hh Hjob) as Hscore.
      unfold Spec.binds_fit_score in Hscore.
      destruct (j_fit_score job_data) as [score|]; [apply Hscore; reflexivity|].
      unfold Spec.binds. simpl. lia. }
    destruct (insert_job json_dumps d job_data) as [[[job1 d1] rowid]|e] eqn:Hins.
    + cbn [bind]. apply IH. apply Forall_insert; [exact Hh|].
      destruct (insert_job_ok _ _ _ _ _ _ Hins)
        as (_ & _ & row & _ & _ & _ & _ & _ & _ & _ & _ & _ & _ & _ & _ & _ & _
            & Hscore & _).
      intros score Hs. rewrite Hscore in Hs. inversion Hs; subst score.
      exact Hbinds.
    + destruct (insert_job_binds json_dumps d job_data Hbinds) as (job1 & d1 & H).
      rewrite H in Hins. discriminate Hins.
Qed.

Lemma get_job_by_id_update (d : db) (job_id j : Z) (new_status : string) :
  j <> job_id ->
  get_job_by_id (update_job_status d job_id new_status) j = get_job_by_id d j.
Proof.
  intros Hne. unfold get_job_by_id, update_job_status. cbn [rows].
  induction (rows d) as [|row rest IH]; simpl; [reflexivity|].
  destruct (id row =? job_id) eqn:E; simpl.
  - apply Z.eqb_eq in E.
    destruct (id row =? j) eqn:Ej; [apply Z.eqb_eq in Ej; lia | exact IH].
  - destruct (id row =? j); [reflexivity | exact IH].
Qed.

Lemma update_job_status_absent (d : db) (job_id : Z) (new_status : string) :
  get_job_by_id d job_id = None ->
  update_job_status d job_id new_status = d.
Proof.
  destruct d as [rs seq]. unfold get_job_by_id, update_job_status.
  cbn [rows sqlite_sequence]. intros Hnone. f_equal.
  induction rs as [|row rest IH]; simpl in *; [reflexivity|].
  destruct (id row =? job_id); [discriminate Hnone|].
  rewrite (IH Hnone). reflexivity.
Qed.

Lemma get_job_by_id_updated (d : db) (job_id : Z) (new_status : string)
  (row : job_row) :
  get_job_by_id d job_id = Some row ->
  exists row',
    get_job_by_id (update_job_status d job_id new_status) job_id = Some row'
    /\ status row' = new_status /\ Spec.same_but_status row row'.
Proof.
  unfold get_job_by_id, update_job_status. cbn [rows].
  induction (rows d) as [|r rest IH]; simpl; [discriminate|].
  destruct (id r =? job_id) eqn:E; simpl.
  - rewrite E. intros H. inversion H; subst r. eexists. split; [reflexivity|].
    split; [reflexivity|]. unfold Spec.same_but_status. simpl. repeat split.
  - rewrite E. exact IH.
Qed.

End JobsTable.

(** X12: in a store whose keys are in order, [insert_job] either raises
    [OverflowError], exactly when the dictionary's [fit_score] is an [int]
    outside the 64-bit range, or hands out the next key, keeps the keys in
    order, and the new record can be fetched by that key: it holds the
    dictionary's values in all ten columns, with "N/A", -1, "unclassified" and
    "new" for the keys the dictionary lacks and, for a missing [raw_data], the
    snapshot of the dictionary with its defaults; the score is kept as the
    REAL column keeps it, which is the score itself up to 2^53.  Every other
    key fetches what it fetched before. *)
Theorem insert_job_then_get_job_by_id (json_dumps : JobDatabase.job_dict -> string)
  (d : JobDatabase.db) (job_data : JobDatabase.job_dict) :
  let score := JobDatabase.getitem (JobDatabase.j_fit_score job_data) (-1) in
  Spec.ids_in_order d ->
  match JobDatabase.insert_job json_dumps d job_data with
  | Ok (_, d', lastrowid) =>
      Spec.binds score
      /\ lastrowid = JobDatabase.sqlite_sequence d + 1
      /\ Spec.ids_in_order d'
      /\ (exists row,
            JobDatabase.get_job_by_id d' lastrowid = Some row
            /\ JobDatabase.id row = lastrowid
            /\ JobDatabase.company row
               = JobDatabase.getitem (JobDatabase.j_company job_data) "N/A"
            /\ JobDatabase.role row
               = JobDatabase.getitem (JobDatabase.j_role job_data) "N/A"
            /\ JobDatabase.location row
               = JobDatabase.getitem (JobDatabase.j_location job_data) "N/A"
            /\ JobDatabase.link row
               = JobDatabase.getitem (JobDatabase.j_link job_data) "N/A"
            /\ JobDatabase.date_posted row
               = JobDatabase.getitem (JobDatabase.j_date_posted job_data) "N/A"
            /\ JobDatabase.original_category row
               = JobDatabase.getitem (JobDatabase.j_original_category job_data)
                                     "N/A"
            /\ JobDatabase.fit_score row = JobDatabase.to_real score
            /\ (Spec.exact_real score -> JobDatabase.fit_score row = score)
            /\ JobDatabase.fit_category row
               = JobDatabase.getitem (JobDatabase.j_fit_category job_data)
                                     "unclassified"
            /\ JobDatabase.status row
               = JobDatabase.getitem (JobDatabase.j_status job_data) "new"
            /\ JobDatabase.raw_data row
               = JobDatabase.getitem (JobDatabase.j_raw_data job_data)
                   (json_dumps (Spec.with_defaults job_data)))
      /\ (forall j, j <> lastrowid ->
            JobDatabase.get_job_by_id d' j = JobDatabase.get_job_by_id d j)
  | Raise e => ~ Spec.binds score /\ exists msg, e = OverflowError msg
  end.
Proof.
  intros score Hd.
  destruct (JobDatabase.insert_job json_dumps d job_data)
    as [[[job' d'] rowid]|e] eqn:Hins.
  - destruct (insert_job_ok _ _ _ _ _ _ Hins)
      as (Hbinds & -> & row & -> & Hid & Hcompany & Hrole & Hlocation & Hlink
          & Hdate & Hcategory & Hscore & Hfit & Hstatus & Hraw & _).
    split; [exact Hbinds|]. split; [reflexivity|].
    split; [apply ids_in_order_insert; assumption|]. split.
    + exists row. split.
      * unfold JobDatabase.get_job_by_id. cbn [JobDatabase.rows].
        rewrite find_app_none by (apply find_id_above; [exact Hd | lia]).
        simpl. rewrite Hid, Z.eqb_refl. reflexivity.
      * repeat split; try assumption.
        intros Hexact. rewrite Hscore. apply to_real_exact, Hexact.
    + intros j Hj. unfold JobDatabase.get_job_by_id. cbn [JobDatabase.rows].
      destruct (find (fun r => JobDatabase.id r =? j) (JobDatabase.rows d))
        as [found|] eqn:Hfind.
      * apply find_app_some, Hfind.
      * rewrite (find_app_none _ _ _ Hfind). simpl.
        destruct (JobDatabase.id row =? j) eqn:E; [|reflexivity].
        apply Z.eqb_eq in E. lia.
  - destruct (bind_int_cases score) as [[Hbinds _]|[Hno _]].
    + destruct (insert_job_binds json_dumps d job_data Hbinds) as (job1 & d1 & H).
      rewrite H in Hins. discriminate Hins.
    + split; [exact Hno|].
      destruct (insert_job_overflow json_dumps d job_data Hno) as [msg H].
      rewrite H in Hins. inversion Hins. eauto.
Qed.

Lemma insert_job_then_get_job_by_id_witness :
  exists job' d' row,
    JobDatabase.insert_job (fun _ => "{}") Scenario.two_jobs_db
                           Scenario.engineer_job
    = Ok (job', d', 3)
    /\ JobDatabase.get_job_by_id d' 3 = Some row
    /\ JobDatabase.link row = "N/A" /\ JobDatabase.date_posted row = "3d"
    /\ JobDatabase.fit_score row = -1 /\ JobDatabase.raw_data row = "{}".
Proof.
  assert (Hd : Spec.ids_in_order Scenario.two_jobs_db).
  { split; simpl.
    - apply NoDup_cons. split; [|apply NoDup_singleton].
      intros H. apply list_elem_of_singleton in H. discriminate H.
    - repeat constructor; simpl; lia. }
  pose proof (insert_job_then_get_job_by_id (fun _ => "{}") Scenario.two_jobs_db
                Scenario.engineer_job Hd) as H.
  destruct (JobDatabase.insert_job (fun _ => "{}") Scenario.two_jobs_db
                                   Scenario.engineer_job)
    as [[[job' d'] rowid]|e]; [|destruct H as [Hno _]; exfalso; apply Hno;
                                unfold Spec.binds; simpl; lia].
  destruct H as (_ & -> & _ & (row & Hget & _ & _ & _ & _ & Hlink & Hdate & _
                                  & _ & Hscore & _ & _ & Hraw) & _).
  exists job', d', row. split; [reflexivity|]. split; [exact Hget|].
  split; [exact Hlink|]. split; [exact Hdate|]. split; [|exact Hraw].
  apply Hscore. unfold Spec.exact_real. simpl. lia.
Defined.

(** X13: after [update_job_status], fetching the job by its id gives the
    same record with the new status; fetching any other id gives what it gave
    before; and for an id that is not in the store the update changes
    nothing. *)
Theorem update_job_status_then_get_job_by_id (d : JobDatabase.db) (job_id : Z)
  (new_status : string) :
  (forall row, JobDatabase.get_job_by_id d job_id = Some row ->
     exists row',
       JobDatabase.get_job_by_id
         (JobDatabase.update_job_status d job_id new_status) job_id = Some row'
       /\ JobDatabase.status row' = new_status
       /\ Spec.same_but_status row row')
  /\ (JobDatabase.get_job_by_id d job_id = None ->
      JobDatabase.update_job_status d job_id new_status = d)
  /\ (forall j, j <> job_id ->
        JobDatabase.get_job_by_id
          (JobDatabase.update_job_status d job_id new_status) j
        = JobDatabase.get_job_by_id d j).
Proof.
  split; [intros row; apply get_job_by_id_updated|].
  split; [apply update_job_status_absent|].
  intros j Hj. apply get_job_by_id_update, Hj.
Qed.

Lemma update_job_status_then_get_job_by_id_witness :
  (exists row',
     JobDatabase.get_job_by_id
       (JobDatabase.update_job_status Scenario.two_jobs_db 2 "applied") 2
     = Some row'
     /\ JobDatabase.status row' = "applied")
  /\ JobDatabase.update_job_status Scenario.two_jobs_db 7 "applied"
     = Scenario.two_jobs_db.
Proof.
  destruct (update_job_status_then_get_job_by_id Scenario.two_jobs_db 2 "applied")
    as (Hfound & _ & _).
  destruct (update_job_status_then_get_job_by_id Scenario.two_jobs_db 7 "applied")
    as (_ & Habsent & _).
  split.
  - destruct (Hfound (Scenario.stored_job 2 "Analyst" "new") eq_refl)
      as (row' & Hget & Hstatus & _).
    exists row'. split; [exact Hget | exact Hstatus].
  - apply Habsent. reflexivity.
Defined.

(** X14: [update_job_fit_score_and_category] with an [int] score either
    raises [OverflowError], exactly when the score is outside the 64-bit
    range, and then changes nothing, or leaves the number and order of the
    records and the key sequence as they were; each record keeps every column
    but [fit_score] and [fit_category]; the record with that id gets the new
    category and the score as the REAL column keeps it (the score itself up to
    2^53, the nearest double above), and every other record is unchanged. *)
Theorem update_job_fit_changes_only_fit (d : JobDatabase.db) (job_id : Z)
  (new_fit_score : Z) (new_fit_category : string) :
  match
    JobDatabase.update_job_fit_score_and_category d job_id new_fit_score
                                                  new_fit_category
  with
  | Ok d' =>
      Spec.binds new_fit_score
      /\ JobDatabase.sqlite_sequence d' = JobDatabase.sqlite_sequence d
      /\ Forall2
           (fun old new =>
              Spec.same_but_fit_columns old new
              /\ (JobDatabase.id old = job_id ->
                  JobDatabase.fit_score new = JobDatabase.to_real new_fit_score
                  /\ (Spec.exact_real new_fit_score ->
                      JobDatabase.fit_score new = new_fit_score)
                  /\ JobDatabase.fit_category new = new_fit_category)
              /\ (JobDatabase.id old <> job_id -> new = old))
           (JobDatabase.rows d) (JobDatabase.rows d')
  | Raise e => ~ Spec.binds new_fit_score /\ exists msg, e = OverflowError msg
  end.
Proof.
  unfold JobDatabase.update_job_fit_score_and_category.
  destruct (bind_int_cases new_fit_score) as [[Hbinds ->]|[Hno [msg ->]]];
    cbn [bind]; [|split; [exact Hno | eauto]].
  split; [exact Hbinds|]. split; [reflexivity|]. cbn [JobDatabase.rows].
  induction (JobDatabase.rows d) as [|row rest IH]; simpl.
  - constructor.
  - constructor; [|exact IH].
    destruct (JobDatabase.id row =? job_id) eqn:E.
    + apply Z.eqb_eq in E. split; [|split].
      * unfold Spec.same_but_fit_columns. simpl. repeat split.
      * intros _. cbn [JobDatabase.fit_score JobDatabase.fit_category].
        split; [reflexivity|]. split; [apply to_real_exact | reflexivity].
      * intros Hne. contradiction.
    + apply Z.eqb_neq in E. split; [|split].
      * unfold Spec.same_but_fit_columns. repeat split.
      * intros Heq. contradiction.
      * intros _. reflexivity.
Qed.

Lemma update_job_fit_changes_only_fit_witness :
  (exists d' new1,
     JobDatabase.update_job_fit_score_and_category Scenario.two_jobs_db 1
       (2 ^ 53 + 1) "High Fit" = Ok d'
     /\ JobDatabase.rows d' = [new1; Scenario.stored_job 2 "Analyst" "new"]
     /\ JobDatabase.fit_score new1 = 2 ^ 53
     /\ JobDatabase.status new1 = "new")
  /\ exists msg,
       JobDatabase.update_job_fit_score_and_category Scenario.two_jobs_db 1
         (2 ^ 63) "High Fit" = Raise (OverflowError msg).
Proof.
  pose proof (update_job_fit_changes_only_fit Scenario.two_jobs_db 1 (2 ^ 53 + 1)
                "High Fit") as Hin.
  pose proof (update_job_fit_changes_only_fit Scenario.two_jobs_db 1 (2 ^ 63)
                "High Fit") as Hout.
  split.
  - destruct (JobDatabase.update_job_fit_score_and_category Scenario.two_jobs_db 1
                (2 ^ 53 + 1) "High Fit") as [d'|e] eqn:E;
      [|vm_compute in E; discriminate E].
    destruct Hin as (_ & _ & Hrows).
    inversion Hrows as [|old1 new1 olds news (Hsame & Hfit & _) Hrest Ho Hn].
    inversion Hrest as [|old2 new2 olds' news' (_ & _ & Hother) Hnil Ho' Hn'].
    inversion Hnil. subst.
    exists d', new1. split; [reflexivity|].
    split; [rewrite <- Hn, (Hother ltac:(discriminate)); reflexivity|].
    split; [rewrite (proj1 (Hfit eq_refl)); reflexivity | apply Hsame].
  - destruct (JobDatabase.update_job_fit_score_and_category Scenario.two_jobs_db 1
                (2 ^ 63) "High Fit") as [d'|e] eqn:E;
      [vm_compute in E; discriminate E|].
    destruct Hout as (_ & msg & ->). eauto.
Defined.

(** X15: [get_jobs] lists exactly the records that pass its filters, and a
    filter restricts the listing only when it is given and is not the empty
    string: a listed tuple is the selected columns of a stored record whose
    status equals a non-empty status filter and whose category equals a
    non-empty category filter, and every such record is listed. *)
Theorem get_jobs_selects (d : JobDatabase.db)
  (status_ fit_category_ : option string) (t : JobDatabase.job_tuple) :
  In t (JobDatabase.get_jobs d status_ fit_category_)
  <-> exists row,
        In row (JobDatabase.rows d)
        /\ t = JobDatabase.select_columns row
        /\ (forall s, status_ = Some s -> s <> "" -> JobDatabase.status row = s)
        /\ (forall c, fit_category_ = Some c -> c <> "" ->
                      JobDatabase.fit_category row = c).
Proof.
  assert (Hclause : forall param column,
    JobDatabase.where_clause param column = true
    <-> (forall v, param = Some v -> v <> "" -> column = v)).
  { intros [v|] column; unfold JobDatabase.where_clause.
    - destruct (String.eqb v "") eqn:E; simpl.
      + apply String.eqb_eq in E. split; [|reflexivity].
        intros _ v' Hv' Hne. inversion Hv'; subst. contradiction.
      + apply String.eqb_neq in E. split.
        * intros H v' Hv' _. inversion Hv'; subst. apply String.eqb_eq, H.
        * intros H. apply String.eqb_eq, (H v eq_refl E).
    - split; [intros _ v Hv; discriminate Hv | reflexivity]. }
  unfold JobDatabase.get_jobs. rewrite in_map_iff. split.
  - intros (row & <- & Hin). apply filter_In in Hin. destruct Hin as [Hin Hf].
    apply andb_true_iff in Hf. destruct Hf as [Hs Hc].
    exists row. split; [exact Hin|]. split; [reflexivity|].
    split; [apply Hclause, Hs | apply Hclause, Hc].
  - intros (row & Hin & -> & Hs & Hc). exists row. split; [reflexivity|].
    apply filter_In. split; [exact Hin|]. apply andb_true_iff.
    split; apply Hclause; assumption.
Qed.

Lemma get_jobs_selects_witness :
  In (2, "Acme", "Analyst", "Leeds", "https://example.com/apply", "Medium Fit",
      "new")
     (JobDatabase.get_jobs Scenario.two_jobs_db (Some "new") (Some "")).
Proof.
  apply (get_jobs_selects Scenario.two_jobs_db (Some "new") (Some "")).
  exists (Scenario.stored_job 2 "Analyst" "new").
  split; [simpl; right; left; reflexivity|]. split; [reflexivity|]. split.
  - intros s Hs _. inversion Hs. reflexivity.
  - intros c Hc Hne. inversion Hc; subst. contradiction.
Defined.

(** X16: after [update_job_status] has given a job of the store a status
    that is not empty, [get_jobs] with that status lists the job, with its
    other columns as they were. *)
Theorem get_jobs_lists_updated_job (d : JobDatabase.db) (job_id : Z)
  (new_status : string) (row : JobDatabase.job_row)
  (fit_category_ : option string) :
  JobDatabase.get_job_by_id d job_id = Some row ->
  new_status <> "" ->
  JobDatabase.where_clause fit_category_ (JobDatabase.fit_category row) = true ->
  In (job_id, JobDatabase.company row, JobDatabase.role row,
      JobDatabase.location row, JobDatabase.link row,
      JobDatabase.fit_category row, new_status)
     (JobDatabase.get_jobs (JobDatabase.update_job_status d job_id new_status)
                           (Some new_status) fit_category_).
Proof.
  intros Hget Hne Hcat.
  destruct (get_job_by_id_updated d job_id new_status row Hget)
    as (row' & Hget' & Hstatus & Hsame).
  unfold JobDatabase.get_job_by_id in Hget, Hget'.
  pose proof (find_some _ _ Hget) as [_ Hid]. apply Z.eqb_eq in Hid.
  pose proof (find_some _ _ Hget') as [Hin' _].
  destruct Hsame as (Hi & Hc & Hr & Hl & Hk & _ & _ & _ & Hf & _).
  unfold JobDatabase.get_jobs. apply in_map_iff. exists row'. split.
  - unfold JobDatabase.select_columns.
    rewrite Hi, Hc, Hr, Hl, Hk, Hf, Hstatus, Hid. reflexivity.
  - apply filter_In. split; [exact Hin'|].
    rewrite Hf, Hcat, andb_true_r. unfold JobDatabase.where_clause.
    apply String.eqb_neq in Hne. rewrite Hne. simpl.
    rewrite Hstatus. apply String.eqb_refl.
Qed.

Lemma get_jobs_lists_updated_job_witness :
  In (2, "Acme", "Analyst", "Leeds", "https://example.com/apply", "Medium Fit",
      "applied")
     (JobDatabase.get_jobs
        (JobDatabase.update_job_status Scenario.two_jobs_db 2 "applied")
        (Some "applied") None).
Proof.
  apply (get_jobs_lists_updated_job Scenario.two_jobs_db 2 "applied"
           (Scenario.stored_job 2 "Analyst" "new") None).
  - reflexivity.
  - discriminate.
  - reflexivity.
Defined.

(** X17: whatever the dictionaries, a call of [insert_jobs] that returns has
    only appended to the store: the records that were there stay as they were
    and in place, the number returned is the number of records appended and
    the amount by which the key sequence grows, and keys that were in order
    stay in order.  The call returns when every [fit_score] in the
    dictionaries can be bound; otherwise the only exception is the
    [OverflowError] of the binding. *)
Theorem insert_jobs_appends (json_dumps : JobDatabase.job_dict -> string)
  (h : JobDatabase.heap) (d : JobDatabase.db) (jobs_list : list nat) :
  match JobDatabase.insert_jobs json_dumps h d jobs_list with
  | Ok (h', d', inserted_count) =>
      (exists added,
         JobDatabase.rows d' = JobDatabase.rows d ++ added
         /\ Z.of_nat (length added) = inserted_count
         /\ JobDatabase.sqlite_sequence d'
            = JobDatabase.sqlite_sequence d + inserted_count)
      /\ (Spec.ids_in_order d -> Spec.ids_in_order d')
  | Raise e =>
      (exists msg, e = OverflowError msg) /\ ~ Forall Spec.binds_fit_score h
  end.
Proof.
  unfold JobDatabase.insert_jobs.
  destruct (JobDatabase.insert_jobs_loop json_dumps jobs_list h d 0)
    as [[[h' d'] n']|e] eqn:Hloop.
  - destruct (insert_jobs_loop_appends json_dumps _ _ _ _ _ _ _ Hloop)
      as (added & Hrows & Hlen & Hseq & _).
    split.
    + exists added. repeat split; [exact Hrows | lia | rewrite Hseq; lia].
    + intros Hids.
      exact (ids_in_order_insert_jobs_loop json_dumps _ _ _ _ _ _ _ Hids Hloop).
  - split; [exact (insert_jobs_loop_raises json_dumps _ _ _ _ _ Hloop)|].
    intros Hh.
    destruct (insert_jobs_loop_returns json_dumps jobs_list h d 0 Hh)
      as (h' & d' & n' & H).
    rewrite H in Hloop. discriminate Hloop.
Qed.

Lemma insert_jobs_appends_witness :
  exists h' d',
    JobDatabase.insert_jobs (fun _ => "{}") [Scenario.engineer_job]
                            JobDatabase.empty_db [0%nat] = Ok (h', d', 1)
    /\ Spec.ids_in_order d'.
Proof.
  pose proof (insert_jobs_appends (fun _ => "{}") [Scenario.engineer_job]
                JobDatabase.empty_db [0%nat]) as H.
  destruct (JobDatabase.insert_jobs (fun _ => "{}") [Scenario.engineer_job]
              JobDatabase.empty_db [0%nat]) as [[[h' d'] n']|e] eqn:E;
    [|vm_compute in E; discriminate E].
  destruct H as (_ & Hids).
  exists h', d'. split.
  - vm_compute in E. inversion E. reflexivity.
  - apply Hids. split; simpl; constructor.
Defined.


Section InsertJobsAgain.

Import JobDatabase.

Variable json_dumps : job_dict -> string.

Lemma stored_extends (d d' : db) (added : list job_row) (job : job_dict) :
  rows d' = rows d ++ added -> Spec.stored d job -> Spec.stored d' job.
Proof.
  unfold Spec.stored, select_id_where_link_role. intros Hrows [found Hfound].
  destruct (j_link job) as [l|]; [|discriminate Hfound].
  destruct (j_role job) as [r|]; [|discriminate Hfound].
  destruct (find _ (rows d)) as [row|] eqn:Hfind; [|discriminate Hfound].
  rewrite Hrows, (find_app_some _ _ added row Hfind). simpl. eauto.
Qed.

Lemma stored_same_link_role (d : db) (job job' : job_dict) :
  Spec.link_role_of job' = Spec.link_role_of job ->
  Spec.stored d job -> Spec.stored d job'.
Proof.
  unfold Spec.stored, Spec.link_role_of. intros H. inversion H as [[Hl Hr]].
  rewrite Hl, Hr. trivial.
Qed.

Lemma insert_job_stores (d : db) (job_data job' : job_dict) (d' : db)
  (lastrowid : Z) :
  Spec.has_link_and_role job_data ->
  insert_job json_dumps d job_data = Ok (job', d', lastrowid) ->
  Spec.link_role_of job' = Spec.link_role_of job_data
  /\ Spec.stored d' job_data
  /\ exists row, rows d' = rows d ++ [row].
Proof.
  intros [[l Hl] [r Hr]] Hins.
  destruct (insert_job_ok _ _ _ _ _ _ Hins)
    as (_ & _ & row & -> & _ & _ & Hrole & _ & Hlink & _ & _ & _ & _ & _ & _
        & Hl' & Hr' & _).
  rewrite Hl in Hlink. rewrite Hr in Hrole. cbn [getitem] in Hlink, Hrole.
  split; [|split; [|eauto]].
  - unfold Spec.link_role_of. rewrite Hl', Hr', Hlink, Hrole, Hl, Hr. reflexivity.
  - unfold Spec.stored, select_id_where_link_role. rewrite Hl, Hr.
    cbn [rows].
    destruct (find (fun row0 => String.eqb (link row0) l
                                && String.eqb (role row0) r) (rows d))
      as [found|] eqn:Hfind.
    + rewrite (find_app_some _ _ [row] found Hfind). simpl. eauto.
    + rewrite (find_app_none _ _ [row] Hfind). simpl.
      rewrite Hlink, Hrole, !String.eqb_refl. simpl. eauto.
Qed.

(** After the loop every listed dictionary is found by the duplicate check,
    and no dictionary has changed its link or role. *)
Lemma insert_jobs_loop_stores (jobs_list : list nat) :
  forall (h : heap) (d : db) (n : Z) (h' : heap) (d' : db) (n' : Z),
    Forall Spec.has_link_and_role h ->
    insert_jobs_loop json_dumps jobs_list h d n = Ok (h', d', n') ->
    (forall r, Spec.link_role_of <$> (h' !! r) = Spec.link_role_of <$> (h !! r))
    /\ (forall r job, In r jobs_list -> h' !! r = Some job -> Spec.stored d' job)
    /\ (exists added, rows d' = rows d ++ added).
Proof.
  induction jobs_list as [|r rest IH]; intros h d n h' d' n' Hh;
    cbn [insert_jobs_loop].
  - intros H. inversion H; subst.
    split; [reflexivity|]. split; [intros r job []|].
    exists []. rewrite app_nil_r. reflexivity.
  - destruct (h !! r) as [job_data|] eqn:Hjob.
    + destruct (select_id_where_link_role d (j_link job_data) (j_role job_data))
        as [existing|] eqn:Hsel.
      * intros Hloop.
        destruct (IH h d n h' d' n' Hh Hloop) as (Hsame & Hstored & added & Hrows).
        split; [exact Hsame|]. split; [|eauto].
        intros r' job [<-|Hin] Hlook; [|apply (Hstored r' job Hin Hlook)].
        specialize (Hsame r). rewrite Hlook, Hjob in Hsame. simpl in Hsame.
        assert (Heq : Spec.link_role_of job = Spec.link_role_of job_data)
          by congruence.
        apply (stored_same_link_role d' job_data job Heq).
        apply (stored_extends d d' added job_data Hrows).
        unfold Spec.stored. rewrite Hsel. eauto.
      * destruct (insert_job json_dumps d job_data)
          as [[[job1 d1] rowid]|e] eqn:Hins; cbn [bind]; [|discriminate].
        destruct (insert_job_stores d job_data job1 d1 rowid
                    (Forall_lookup_1 _ _ _ _ Hh Hjob) Hins)
          as (Hjob1 & Hstored1 & row & Hrows1).
        assert (Hh1 : Forall Spec.has_link_and_role (<[r:=job1]> h)).
        { apply Forall_insert; [exact Hh|].
          destruct (Forall_lookup_1 _ _ _ _ Hh Hjob) as [[l Hl] [ro Hr]].
          unfold Spec.link_role_of in Hjob1. inversion Hjob1 as [[Hl' Hr']].
          split; [rewrite Hl', Hl | rewrite Hr', Hr]; eauto. }
        intros Hloop.
        destruct (IH (<[r:=job1]> h) d1 (n + 1) h' d' n' Hh1 Hloop)
          as (Hsame & Hstored & added & Hrows).
        assert (Hsame' : forall r0,
          Spec.link_role_of <$> (h' !! r0) = Spec.link_role_of <$> (h !! r0)).
        { intros r0. rewrite Hsame. unfold heap in *.
          destruct (decide (r = r0)) as [->|Hne].
          - rewrite list_lookup_insert_eq by (eapply lookup_lt_Some; exact Hjob).
            rewrite Hjob. simpl. rewrite Hjob1. reflexivity.
          - rewrite list_lookup_insert_ne by exact Hne. reflexivity. }
        split; [exact Hsame'|]. split.
        -- intros r' job [<-|Hin] Hlook; [|apply (Hstored r' job Hin Hlook)].
           specialize (Hsame' r). rewrite Hlook, Hjob in Hsame'. simpl in Hsame'.
           assert (Heq : Spec.link_role_of job = Spec.link_role_of job_data)
             by congruence.
           apply (stored_same_link_role d' job_data job Heq).
           apply (stored_extends d1 d' added job_data Hrows Hstored1).
        -- exists (row :: added). rewrite Hrows, Hrows1, <- app_assoc. reflexivity.
    + intros Hloop.
      destruct (IH h d n h' d' n' Hh Hloop) as (Hsame & Hstored & Hrows).
      split; [exact Hsame|]. split; [|exact Hrows].
      intros r' job [<-|Hin] Hlook; [|apply (Hstored r' job Hin Hlook)].
      specialize (Hsame r). rewrite Hlook, Hjob in Hsame. discriminate Hsame.
Qed.

Lemma insert_jobs_loop_all_stored (jobs_list : list nat) (h : heap) (d : db)
  (n : Z) :
  (forall r job, In r jobs_list -> h !! r = Some job -> Spec.stored d job) ->
  insert_jobs_loop json_dumps jobs_list h d n = Ok (h, d, n).
Proof.
  induction jobs_list as [|r rest IH]; intros Hstored; cbn [insert_jobs_loop].
  - reflexivity.
  - assert (Hrest : forall r0 job, In r0 rest -> h !! r0 = Some job ->
                                   Spec.stored d job).
    { intros r0 job Hin. apply Hstored. now right. }
    destruct (h !! r) as [job_data|] eqn:Hjob; [|apply IH, Hrest].
    destruct (Hstored r job_data (or_introl eq_refl) Hjob) as [existing Hsel].
    rewrite Hsel. apply IH, Hrest.
Qed.

End InsertJobsAgain.

(** X18: where every dictionary carries [link] and [role], a call of
    [insert_jobs] on a store without two records of the same (link, role)
    leaves it so; the [OverflowError] of a score that cannot be bound is the
    only way for the call not to return. *)
Theorem insert_jobs_keeps_link_role_unique
  (json_dumps : JobDatabase.job_dict -> string) (h : JobDatabase.heap)
  (d : JobDatabase.db) (jobs_list : list nat) :
  Forall Spec.has_link_and_role h ->
  Spec.unique_link_role d ->
  match JobDatabase.insert_jobs json_dumps h d jobs_list with
  | Ok (_, d', _) => Spec.unique_link_role d'
  | Raise e =>
      (exists msg, e = OverflowError msg) /\ ~ Forall Spec.binds_fit_score h
  end.
Proof.
  intros Hh Hd. unfold JobDatabase.insert_jobs.
  destruct (JobDatabase.insert_jobs_loop json_dumps jobs_list h d 0)
    as [[[h' d'] n']|e] eqn:Hloop.
  - exact (proj1 (proj2 (insert_jobs_loop_unique json_dumps _ _ _ _ _ _ _
                           Hh Hd Hloop))).
  - split; [exact (insert_jobs_loop_raises json_dumps _ _ _ _ _ Hloop)|].
    intros Hbinds.
    destruct (insert_jobs_loop_returns json_dumps jobs_list h d 0 Hbinds)
      as (h' & d' & n' & H).
    rewrite H in Hloop. discriminate Hloop.
Qed.

Lemma insert_jobs_keeps_link_role_unique_witness :
  exists h' d',
    JobDatabase.insert_jobs (fun _ => "{}")
      [Scenario.linked_job; Scenario.linked_job] JobDatabase.empty_db
      [0%nat; 1%nat] = Ok (h', d', 1)
    /\ Spec.unique_link_role d'.
Proof.
  pose proof (insert_jobs_keeps_link_role_unique (fun _ => "{}")
                [Scenario.linked_job; Scenario.linked_job] JobDatabase.empty_db
                [0%nat; 1%nat]) as H.
  destruct (JobDatabase.insert_jobs (fun _ => "{}")
              [Scenario.linked_job; Scenario.linked_job] JobDatabase.empty_db
              [0%nat; 1%nat]) as [[[h' d'] n']|e] eqn:E;
    [|vm_compute in E; discriminate E].
  exists h', d'. split.
  - vm_compute in E. inversion E. reflexivity.
  - apply H.
    + repeat constructor; simpl; eauto.
    + constructor.
Defined.

(** X19: where every dictionary carries [link] and [role], inserting the same
    list a second time is a no-op counted as zero insertions: the store and
    the dictionaries stay as the first call left them. *)
Theorem insert_jobs_twice (json_dumps : JobDatabase.job_dict -> string)
  (h : JobDatabase.heap) (d : JobDatabase.db) (jobs_list : list nat) :
  Forall Spec.has_link_and_role h ->
  match JobDatabase.insert_jobs json_dumps h d jobs_list with
  | Ok (h', d', _) =>
      JobDatabase.insert_jobs json_dumps h' d' jobs_list = Ok (h', d', 0)
  | Raise e =>
      (exists msg, e = OverflowError msg) /\ ~ Forall Spec.binds_fit_score h
  end.
Proof.
  intros Hh. unfold JobDatabase.insert_jobs.
  destruct (JobDatabase.insert_jobs_loop json_dumps jobs_list h d 0)
    as [[[h' d'] n']|e] eqn:Hloop.
  - destruct (insert_jobs_loop_stores json_dumps _ _ _ _ _ _ _ Hh Hloop)
      as (_ & Hstored & _).
    apply insert_jobs_loop_all_stored. exact Hstored.
  - split; [exact (insert_jobs_loop_raises json_dumps _ _ _ _ _ Hloop)|].
    intros Hbinds.
    destruct (insert_jobs_loop_returns json_dumps jobs_list h d 0 Hbinds)
      as (h' & d' & n' & H).
    rewrite H in Hloop. discriminate Hloop.
Qed.

Lemma insert_jobs_twice_witness :
  exists h' d',
    JobDatabase.insert_jobs (fun _ => "{}")
      [Scenario.linked_job; Scenario.linked_job] JobDatabase.empty_db
      [0%nat; 1%nat] = Ok (h', d', 1)
    /\ JobDatabase.insert_jobs (fun _ => "{}") h' d' [0%nat; 1%nat]
       = Ok (h', d', 0).
Proof.
  pose proof (insert_jobs_twice (fun _ => "{}")
                [Scenario.linked_job; Scenario.linked_job] JobDatabase.empty_db
                [0%nat; 1%nat]) as H.
  destruct (JobDatabase.insert_jobs (fun _ => "{}")
              [Scenario.linked_job; Scenario.linked_job] JobDatabase.empty_db
              [0%nat; 1%nat]) as [[[h' d'] n']|e] eqn:E;
    [|vm_compute in E; discriminate E].
  exists h', d'. split.
  - vm_compute in E. inversion E. reflexivity.
  - apply H. repeat constructor; simpl; eauto.
Defined.

(** ** What [json.load] returns *)

Section JsonLoaded.

Import Json JsonSpec.

Lemma existsb_dict_set (x k : string) (v : json) (d : list (string * json)) :
  String.eqb x k = false ->
  existsb (String.eqb x) (map fst (dict_set k v d))
  = existsb (String.eqb x) (map fst d).
Proof.
  intros Hx. induction d as [|[k' v'] d IH]; simpl.
  - rewrite Hx. reflexivity.
  - destruct (String.eqb k' k); simpl; [reflexivity|]. rewrite IH. reflexivity.
Qed.

Lemma keys_unique_dict_set (k : string) (v : json) (d : list (string * json)) :
  keys_unique (map fst d) = true -> keys_unique (map fst (dict_set k v d)) = true.
Proof.
  induction d as [|[k' v'] d IH]; simpl; intros H; [reflexivity|].
  apply andb_true_iff in H. destruct H as [Hk Hd].
  destruct (String.eqb k' k) eqn:E; simpl.
  - rewrite Hk, Hd. reflexivity.
  - rewrite (existsb_dict_set k' k v d E), Hk, (IH Hd). reflexivity.
Qed.

Lemma values_well_formed_dict_set (k : string) (v : json)
  (d : list (string * json)) :
  well_formed v = true ->
  forallb (fun m => well_formed (snd m)) d = true ->
  forallb (fun m => well_formed (snd m)) (dict_set k v d) = true.
Proof.
  intros Hv. induction d as [|[k' v'] d IH]; simpl; intros H.
  - rewrite Hv. reflexivity.
  - apply andb_true_iff in H. destruct H as [Hv' Hd].
    destruct (String.eqb k' k); simpl.
    + rewrite Hv, Hd. reflexivity.
    + rewrite Hv', (IH Hd). reflexivity.
Qed.

Lemma well_formed_dict_set (k : string) (v : json) (d : list (string * json)) :
  well_formed v = true -> well_formed (JDict d) = true ->
  well_formed (JDict (dict_set k v d)) = true.
Proof.
  cbn [well_formed]. intros Hv H. apply andb_true_iff in H.
  destruct H as [Hk Hd].
  rewrite (keys_unique_dict_set k v d Hk),
    (values_well_formed_dict_set k v d Hv Hd). reflexivity.
Qed.





End JsonLoaded.

(** ** The profile store: what is written, and when *)

Section ProfileStoreMore.

Import Json JsonSpec ProfileManager.

Variable schema : json -> option string.







Lemma save_profile_cases (w : world) (profile_name : string) (profile_data : json) :
  (exists message,
     schema profile_data = Some message
     /\ save_profile schema w profile_name profile_data
        = (w, (false, "Cannot save invalid profile: "
                      +:+ "Profile validation error: " +:+ message)))
  \/ (schema profile_data = None
      /\ save_profile schema w profile_name profile_data
         = ({| files := <[get_profile_path profile_name := dumps profile_data]>
                          (files w);
               stdin := stdin w |},
            (true, "Profile '" +:+ profile_name +:+ "' saved successfully."))).
Proof.
  unfold save_profile, validate_profile, write_text.
  destruct (schema profile_data) as [message|].
  - left. exists message. split; reflexivity.
  - right. split; reflexivity.
Qed.




Lemma well_formed_dict_setdefault (key : string) (default : json)
  (d : list (string * json)) :
  well_formed default = true -> well_formed (JDict d) = true ->
  well_formed (JDict (dict_setdefault key default d)) = true.
Proof.
  intros Hdefault Hd. unfold dict_setdefault.
  destruct (existsb _ d); [exact Hd|]. apply well_formed_dict_set; assumption.
Qed.

Lemma input_files (w w' : world) (line : string) :
  input w = Ok (line, w') -> files w' = files w.
Proof.
  unfold input. destruct (stdin w); intros H; inversion H. reflexivity.
Qed.

Lemma ask_personal_info_result (w w' : world)
  (new_profile new_profile' : list (string * json)) :
  ask_personal_info w new_profile = Ok (new_profile', w') ->
  well_formed (JDict new_profile) = true ->
  files w' = files w /\ well_formed (JDict new_profile') = true.
Proof.
  unfold ask_personal_info.
  destruct (negb (truthy (dict_get "personal_info" new_profile)));
    [|intros H Hwf; inversion H; subst; split; [reflexivity | exact Hwf]].
  destruct (input w) as [[l1 w1]|] eqn:E1; [|discriminate]. simpl.
  destruct (input w1) as [[l2 w2]|] eqn:E2; [|discriminate]. simpl.
  destruct (input w2) as [[l3 w3]|] eqn:E3; [|discriminate]. simpl.
  destruct (input w3) as [[l4 w4]|] eqn:E4; [|discriminate]. simpl.
  destruct (input w4) as [[l5 w5]|] eqn:E5; [|discriminate]. simpl.
  intros H Hwf. inversion H; subst. split.
  - rewrite (input_files _ _ _ E5), (input_files _ _ _ E4),
      (input_files _ _ _ E3), (input_files _ _ _ E2), (input_files _ _ _ E1).
    reflexivity.
  - apply well_formed_dict_set; [reflexivity | exact Hwf].
Qed.

(** What a call of [create_new_profile] that returns has done: refused
    because the profile loads, or handed a dictionary to [save_profile] in a
    world with the same files. *)
Lemma create_new_profile_cases (w w' : world) (profile_name : string)
  (initial_data : option json) (outcome : bool * string) :
  well_formed_option initial_data = true ->
  create_new_profile schema w profile_name initial_data = Ok (w', outcome) ->
  (w' = w /\ fst outcome = false)
  \/ (exists w1 new_profile,
        files w1 = files w
        /\ well_formed (JDict new_profile) = true
        /\ save_profile schema w1 profile_name (JDict new_profile)
           = (w', outcome)).
Proof.
  intros Hinit. unfold create_new_profile.
  destruct (is_not_None (fst (load_profile schema w profile_name))).
  { intros H. inversion H; subst. left. split; reflexivity. }
  set (chosen := match initial_data with
                 | Some data => if truthy data then data else JDict []
                 | None => JDict []
                 end).
  assert (Hchosen : well_formed chosen = true).
  { unfold chosen. destruct initial_data as [data|]; [|reflexivity].
    destruct (truthy data); [exact Hinit | reflexivity]. }
  destruct chosen as [ | | | | |members]; try discriminate.
  destruct (ask_personal_info w members) as [[np w1]|] eqn:Eask; [|discriminate].
  simpl. intros H. inversion H as [Hsave]. clear H.
  destruct (ask_personal_info_result _ _ _ _ Eask Hchosen) as [Hfiles Hwf].
  right. eexists w1, _. split; [exact Hfiles|]. split; [|reflexivity].
  repeat apply well_formed_dict_setdefault; try reflexivity. exact Hwf.
Qed.

End ProfileStoreMore.









(** X24: after [create_new_profile] has reported success, creating a profile
    of the same name again fails with "already exists" and changes nothing,
    whatever initial data the second call is given. *)
Theorem create_new_profile_twice (schema : Json.json -> option string)
  (w w' : ProfileManager.world) (profile_name message : string)
  (initial_data initial_data' : option Json.json) :
  JsonSpec.well_formed_option initial_data = true ->
  ProfileManager.create_new_profile schema w profile_name initial_data
  = Ok (w', (true, message)) ->
  ProfileManager.create_new_profile schema w' profile_name initial_data'
  = Ok (w', (false, "Profile '" +:+ profile_name +:+ "' already exists.")).
Proof.
  intros Hinit Hcreate.
  destruct (create_new_profile_cases schema w w' profile_name initial_data _
              Hinit Hcreate)
    as [[_ Hfalse]|(w1 & np & _ & Hnp & Hsave)]; [discriminate Hfalse|].
  destruct (save_profile_cases schema w1 profile_name (Json.JDict np))
    as [(msg & _ & Hrefused)|(_ & Hsaved)].
  - rewrite Hrefused in Hsave. inversion Hsave.
  - rewrite Hsaved in Hsave. inversion Hsave as [[Hw' Hmsg]].
    apply create_new_profile_refuses_loadable.
    rewrite (load_profile_written schema w1 profile_name _ Hnp). reflexivity.
Qed.

Lemma create_new_profile_twice_witness :
  exists w',
    ProfileManager.create_new_profile JsonSpec.required_fields_schema
      Scenario.empty_world "ada" (Some Scenario.ada_profile)
    = Ok (w', (true, "Profile 'ada' saved successfully."))
    /\ ProfileManager.create_new_profile JsonSpec.required_fields_schema
         w' "ada" None
       = Ok (w', (false, "Profile 'ada' already exists.")).
Proof.
  eexists. split; [reflexivity|].
  eapply (create_new_profile_twice JsonSpec.required_fields_schema
            Scenario.empty_world _ "ada" _ (Some Scenario.ada_profile) None).
  - reflexivity.
  - reflexivity.
Defined.

Section EditProfile.

Import Json JsonSpec ProfileManager.

Lemma read_document_cancel (before after : list string) (line : string)
  (updated_json_lines : list string) :
  Forall (fun l => Py.lower l <> "cancel") before ->
  Py.lower line = "cancel" ->
  read_document (before ++ line :: after) updated_json_lines = (None, after).
Proof.
  intros Hbefore Hline. revert updated_json_lines.
  induction Hbefore as [|l before Hl _ IH]; intros acc; simpl.
  - rewrite Hline. reflexivity.
  - apply String.eqb_neq in Hl. rewrite Hl. apply IH.
Qed.


End EditProfile.



(** X26: when the profile loads and a typed line reads "cancel" in any
    letter case, [edit_profile] reports "Editing cancelled by user." and
    writes nothing, whatever was typed before that line; the lines after it
    are left unread. *)
Theorem edit_profile_cancelled (schema : Json.json -> option string)
  (w : ProfileManager.world) (profile_name line : string)
  (before after : list string) :
  ProfileManager.is_error
    (snd (ProfileManager.load_profile schema w profile_name)) = false ->
  ProfileManager.stdin w = before ++ line :: after ->
  Forall (fun l => Py.lower l <> "cancel") before ->
  Py.lower line = "cancel" ->
  ProfileManager.edit_profile schema w profile_name
  = ({| ProfileManager.files := ProfileManager.files w;
        ProfileManager.stdin := after |},
     (false, "Editing cancelled by user.")).
Proof.
  intros Hloads Hstdin Hbefore Hline. unfold ProfileManager.edit_profile.
  destruct (ProfileManager.load_profile schema w profile_name) as [data error].
  simpl in Hloads. rewrite Hloads, Hstdin.
  rewrite (read_document_cancel before after line [] Hbefore Hline).
  reflexivity.
Qed.

Lemma edit_profile_cancelled_witness :
  ProfileManager.edit_profile JsonSpec.required_fields_schema
    Scenario.editing_world "ada"
  = ({| ProfileManager.files := ProfileManager.files Scenario.editing_world;
        ProfileManager.stdin := ["}"] |},
     (false, "Editing cancelled by user.")).
Proof.
  apply (edit_profile_cancelled JsonSpec.required_fields_schema
           Scenario.editing_world "ada" "Cancel" ["{"] ["}"]).
  - unfold ProfileManager.load_profile, Scenario.editing_world.
    cbn [ProfileManager.files]. rewrite lookup_singleton_eq. reflexivity.
  - reflexivity.
  - repeat constructor. discriminate.
  - reflexivity.
Defined.



(** ** The application flow *)

Section ApplicationFlow.

Import ApplicationWorkflow.

Lemma filter_chars_kept (keep : ascii -> bool) (s : string) (c : ascii) :
  In c (list_ascii_of_string (Py.filter_chars keep s)) -> keep c = true.
Proof.
  induction s as [|d s IH]; simpl; [intros []|].
  destruct (keep d) eqn:E; simpl; [|exact IH].
  intros [<-|H]; [exact E | apply IH, H].
Qed.

Lemma rstrip_chars (s : string) (c : ascii) :
  In c (list_ascii_of_string (Py.rstrip s)) -> In c (list_ascii_of_string s).
Proof.
  induction s as [|d s IH]; simpl; [trivial|].
  destruct (Py.rstrip s) as [|d' r].
  - destruct (Py.isspace d); simpl; [intros [] | intros [<-|[]]; now left].
  - simpl. intros [<-|H]; [now left | right; apply IH; exact H].
Qed.

Lemma rstrip_idempotent (s : string) : Py.rstrip (Py.rstrip s) = Py.rstrip s.
Proof.
  induction s as [|d s IH]; simpl; [reflexivity|].
  destruct (Py.rstrip s) as [|d' r] eqn:E.
  - destruct (Py.isspace d) eqn:Hd; simpl; [reflexivity|].
    rewrite Hd. reflexivity.
  - change (Py.rstrip (String d (String d' r)))
      with (match Py.rstrip (String d' r) with
            | EmptyString =>
                if Py.isspace d then EmptyString else String d EmptyString
            | String c' r' => String d (String c' r')
            end).
    rewrite IH. reflexivity.
Qed.

End ApplicationFlow.

(** X28: for a profile that has at least one skill, the application flow
    never returns: whatever the selected job, the stored jobs and the typed
    input, [execute_application_flow] raises before it asks for approval, so
    no status is written. *)
Theorem execute_application_flow_raises_with_skills
  (str_of : Json.json -> string)
  (render_markdown_to_pdf : string -> string -> bool * string)
  (self : ApplicationWorkflow.workflow) (st : ApplicationWorkflow.state)
  (selected_job : JobDatabase.job_row) (p : ResumeTailor.profile) :
  ApplicationWorkflow.resume_tailor self = Some p ->
  Exists (fun cs => snd cs <> []) (ResumeTailor.skills p) ->
  exists e,
    ApplicationWorkflow.execute_application_flow str_of render_markdown_to_pdf
      self st selected_job = Raise e.
Proof.
  intros Hself Hskill. unfold ApplicationWorkflow.execute_application_flow.
  rewrite Hself.
  destruct (ApplicationWorkflow.full_job_description_text str_of selected_job)
    as [text|e]; simpl; [|eauto].
  unfold ResumeTailor.tailor_resume.
  destruct (tailor_skills_some_skill _
              (ResumeTailor._extract_keywords_from_job_description text) []
              Hskill) as [msg ->].
  simpl. eauto.
Qed.

Lemma execute_application_flow_raises_with_skills_witness :
  exists e,
    ApplicationWorkflow.execute_application_flow (fun _ => "") (fun _ _ => (true, ""))
      (ApplicationWorkflow.init Scenario.always_python "ada")
      {| ApplicationWorkflow.db := Scenario.two_jobs_db;
         ApplicationWorkflow.stdin := ["yes"] |}
      (Scenario.stored_job 1 "Engineer" "new")
    = Raise e.
Proof.
  apply (execute_application_flow_raises_with_skills _ _ _ _ _
           Scenario.python_profile).
  - reflexivity.
  - constructor. simpl. discriminate.
Defined.



(** X30: the company and role parts of the output file name hold only
    letters, digits, spaces and underscores (so no path separator and no
    dot), and do not end in white space. *)
Theorem safe_name_characters (s : string) (c : ascii) :
  In c (list_ascii_of_string (ApplicationWorkflow.safe_name s)) ->
  (Py.isalnum c = true \/ c = " "%char \/ c = "_"%char)
  /\ c <> "/"%char /\ c <> "."%char
  /\ Py.rstrip (ApplicationWorkflow.safe_name s) = ApplicationWorkflow.safe_name s.
Proof.
  unfold ApplicationWorkflow.safe_name. intros Hin.
  apply rstrip_chars, filter_chars_kept in Hin.
  assert (Hc : Py.isalnum c = true \/ c = " "%char \/ c = "_"%char).
  { apply orb_true_iff in Hin. destruct Hin as [Hin|Hin].
    - apply orb_true_iff in Hin. destruct Hin as [Hin|Hin]; [now left|].
      right. left. apply Ascii.eqb_eq, Hin.
    - right. right. apply Ascii.eqb_eq, Hin. }
  split; [exact Hc|]. split; [|split; [|apply rstrip_idempotent]].
  - intros ->. destruct Hc as [H|[H|H]]; discriminate H.
  - intros ->. destruct Hc as [H|[H|H]]; discriminate H.
Qed.

Lemma safe_name_characters_witness :
  ApplicationWorkflow.safe_name "Acme, Inc. (UK)/ " = "Acme Inc UK"
  /\ Py.isalnum "K"%char = true.
Proof.
  split; [reflexivity|].
  destruct (safe_name_characters "Acme, Inc. (UK)/ " "K"%char) as ([H|[H|H]] & _).
  - vm_compute. tauto.
  - exact H.
  - discriminate H.
  - discriminate H.
Defined.
